(** * Snapshot-testing harness

    A shallow embedding of [tests/snapshots/test_snapshots.py] (with the
    constants of [paths.py] and the placeholder model of [src/main.py]).

    The harness is sequential, effectful Python: it mutates the file system,
    an external database and the process environment, and it raises.  The
    embedding is a state-and-exception monad over an explicit [world]; the
    third-party collaborators (pandas, numpy, json, the database client and
    the model entry point) are the fields of the class [External]. *)

From Stdlib Require Import ZArith List String Ascii Bool Lia DecimalString DecimalPos.
From Stdlib Require Import Sorted Permutation.
From Stdlib Require Import QArith Qpower.
From Stdlib Require Import Floats.PrimFloat Floats.SpecFloat Floats.FloatOps Floats.FloatAxioms.
From stdpp Require Import base strings list gmap.

Close Scope Q_scope.

Set Warnings "-inexact-float,-register-all".

Local Open Scope string_scope.
Local Open Scope list_scope.

(** ** Paths *)

(** A [pathlib.Path] below the project root, as the list of its components. *)
Definition path := list string.

(** [Path.joinpath] *)
Definition joinpath (p : path) (parts : list string) : path := p ++ parts.

(** [Path.relative_to]: [None] stands for the [ValueError] raised when [base]
    is not a prefix of [p]. *)
Fixpoint relative_to (p base : path) {struct base} : option path :=
  match base with
  | [] => Some p
  | b :: base' =>
      match p with
      | [] => None
      | c :: p' => if String.eqb c b then relative_to p' base' else None
      end
  end.

(** [Path.name] *)
Definition name_of (p : path) : string := List.last p "".

(** [str.rfind(".")] *)
Fixpoint rfind_dot (s : string) : option nat :=
  match s with
  | EmptyString => None
  | String c s' =>
      match rfind_dot s' with
      | Some i => Some (S i)
      | None => if Ascii.eqb c "." then Some 0 else None
      end
  end.

(** [Path.suffix]: the last dot-separated part of the name, dot included,
    unless the only dot is the first or the last character. *)
Definition suffix (p : path) : string :=
  let name := name_of p in
  match rfind_dot name with
  | Some i =>
      if Nat.ltb 0 i && Nat.ltb i (String.length name - 1)
      then String.substring i (String.length name - i) name
      else ""
  | None => ""
  end.

(** [str.startswith] *)
Fixpoint startswith (s pre : string) {struct pre} : bool :=
  match pre with
  | EmptyString => true
  | String a pre' =>
      match s with
      | EmptyString => false
      | String b s' => Ascii.eqb a b && startswith s' pre'
      end
  end.

(** ** paths.py *)

Module paths.
(** [ROOT_DIR]: every path of the harness lies below it, so it is the root
    of the modelled file system. *)
Definition ROOT_DIR : path := [].
Definition SOURCE_DIR : path := joinpath ROOT_DIR ["src"].
Definition TEST_DIR : path := joinpath ROOT_DIR ["tests"].
Definition TEST_UNIT_DIR : path := joinpath TEST_DIR ["unit"].
Definition TEST_SNAPSHOTS_DIR : path := joinpath TEST_DIR ["snapshots"].
End paths.

(** ** Exceptions *)

(** Instances of Python's [Exception]: what [except Exception] catches. *)
Inductive exception : Type :=
| ValueError (msg : string)
| KeyError (msg : string)
| AssertionError (msg : string)
| FileNotFoundError (p : path)
| FileExistsError (p : path)
| NotADirectoryError (p : path)
| IsADirectoryError (p : path)
| LibraryError (what : string).

(** Whatever a [raise] can propagate: an [Exception], or [SystemExit]
    ([sys.exit]), which derives from [BaseException] only. *)
Inductive raised : Type :=
| Exc (e : exception)
| SystemExit (code : Z).

(** ** File system *)

(** A file (with its bytes) or a directory (with its entries, in listing
    order). *)
Inductive node : Type :=
| File (data : string)
| Dir (entries : list (string * node)).

Fixpoint entry_get (name : string) (es : list (string * node)) : option node :=
  match es with
  | [] => None
  | (k, v) :: es' => if String.eqb k name then Some v else entry_get name es'
  end.

Definition entry_del (name : string) (es : list (string * node))
  : list (string * node) :=
  List.filter (fun kv => negb (String.eqb (fst kv) name)) es.

Fixpoint entry_set (name : string) (v : node) (es : list (string * node))
  : list (string * node) :=
  match es with
  | [] => [(name, v)]
  | (k, v0) :: es' =>
      if String.eqb k name then (k, v) :: es' else (k, v0) :: entry_set name v es'
  end.

Fixpoint lookup_node (p : path) (n : node) : option node :=
  match p with
  | [] => Some n
  | name :: rest =>
      match n with
      | Dir es =>
          match entry_get name es with
          | Some c => lookup_node rest c
          | None => None
          end
      | File _ => None
      end
  end.

Definition is_dir (p : path) (fs : node) : bool :=
  match lookup_node p fs with Some (Dir _) => true | _ => false end.

Definition is_file (p : path) (fs : node) : bool :=
  match lookup_node p fs with Some (File _) => true | _ => false end.

(** Replace ([Some]) or unlink ([None]) the node at [p]; the parent of [p]
    must be a directory, otherwise nothing changes. *)
Fixpoint put_node (p : path) (v : option node) (n : node) : node :=
  match p with
  | [] => match v with Some n' => n' | None => n end
  | name :: rest =>
      match n with
      | File _ => n
      | Dir es =>
          match rest with
          | [] =>
              Dir (match v with
                   | Some n' => entry_set name n' es
                   | None => entry_del name es
                   end)
          | _ :: _ =>
              match entry_get name es with
              | Some c => Dir (entry_set name (put_node rest v c) es)
              | None => n
              end
          end
      end
  end.

(** [Path.mkdir(parents=True, exist_ok=True)] / [os.makedirs]: create the
    missing directories along [p]; an error when a component is a file. *)
Fixpoint mkdirs (at_ : path) (p : path) (n : node) : exception + node :=
  match p with
  | [] =>
      match n with
      | Dir _ => inr n
      | File _ => inl (FileExistsError at_)
      end
  | name :: rest =>
      match n with
      | File _ => inl (NotADirectoryError at_)
      | Dir es =>
          let child := match entry_get name es with
                       | Some c => c
                       | None => Dir []
                       end in
          match mkdirs (at_ ++ [name]) rest child with
          | inr c' => inr (Dir (entry_set name c' es))
          | inl e => inl e
          end
      end
  end.

(** The names [os.scandir] classifies as directories and as non-directories. *)
Definition dirnames (es : list (string * node)) : list string :=
  List.map fst (List.filter (fun kv => match snd kv with Dir _ => true | File _ => false end) es).

Definition filenames (es : list (string * node)) : list string :=
  List.map fst (List.filter (fun kv => match snd kv with Dir _ => false | File _ => true end) es).

(** [os.walk(top)], top-down: one triple [(root, dirs, files)] per directory.
    A [top] that cannot be listed yields nothing ([onerror] is [None]). *)
Fixpoint walk_node (root : path) (n : node) : list (path * list string * list string) :=
  match n with
  | File _ => []
  | Dir es =>
      (root, dirnames es, filenames es)
        :: List.flat_map
             (fun kv =>
                match snd kv with
                | Dir _ => walk_node (root ++ [fst kv]) (snd kv)
                | File _ => []
                end) es
  end.

Definition walk (top : path) (fs : node) : list (path * list string * list string) :=
  match lookup_node top fs with
  | Some n => walk_node top n
  | None => []
  end.

(** [open(p).read()] and the readers that take a path. *)
Definition read_bytes (p : path) (fs : node) : exception + string :=
  match lookup_node p fs with
  | Some (File data) => inr data
  | Some (Dir _) => inl (IsADirectoryError p)
  | None => inl (FileNotFoundError p)
  end.

(** Writing the file [p]: its parent must be a directory and [p] itself must
    not be one. *)
Definition write_bytes (p : path) (data : string) (fs : node) : exception + node :=
  match lookup_node p fs with
  | Some (Dir _) => inl (IsADirectoryError p)
  | _ =>
      if is_dir (removelast p) fs
      then inr (put_node p (Some (File data)) fs)
      else inl (FileNotFoundError p)
  end.

(** [shutil.rmtree(p)] with the default [ignore_errors=False]. *)
Definition rmtree_fs (p : path) (fs : node) : exception + node :=
  match lookup_node p fs with
  | Some (Dir _) => inr (put_node p None fs)
  | Some (File _) => inl (NotADirectoryError p)
  | None => inl (FileNotFoundError p)
  end.

(** [shutil.copy2(src, dst)]: a directory [dst] receives the file under its
    own name. *)
Definition copy2_fs (src dst : path) (fs : node) : exception + node :=
  match read_bytes src fs with
  | inl e => inl e
  | inr data =>
      let dst' := if is_dir dst fs then dst ++ [name_of src] else dst in
      write_bytes dst' data fs
  end.

(** [shutil.copytree(src, dst)] with the default [dirs_exist_ok=False]. *)
Definition copytree_fs (src dst : path) (fs : node) : exception + node :=
  match lookup_node src fs with
  | None => inl (FileNotFoundError src)
  | Some (File _) => inl (NotADirectoryError src)
  | Some (Dir es) =>
      match lookup_node dst fs with
      | Some _ => inl (FileExistsError dst)
      | None =>
          match mkdirs [] (removelast dst) fs with
          | inl e => inl e
          | inr fs' => inr (put_node dst (Some (Dir es)) fs')
          end
      end
  end.

(** ** JSON documents and Python's [==] on them *)

(** What [json.load] returns: [None], [bool], [int], [float], [str], [list]
    and [dict] (keys in document order). *)
Inductive json : Type :=
| JNull
| JBool (b : bool)
| JInt (z : Z)
| JFloat (f : float)
| JString (s : string)
| JList (items : list json)
| JDict (items : list (string * json)).

Fixpoint dict_get (k : string) (d : list (string * json)) : option json :=
  match d with
  | [] => None
  | (k', v) :: d' => if String.eqb k' k then Some v else dict_get k d'
  end.

(** [int == float] compares the exact values: the float must be finite,
    integral and equal to the integer. *)
Definition int_eq_float (z : Z) (f : float) : bool :=
  match Prim2SF f with
  | S754_zero _ => Z.eqb z 0
  | S754_finite sign m e =>
      let mag :=
        if Z.leb 0 e then Some (Z.shiftl (Z.pos m) e)
        else if Z.eqb (Z.land (Z.pos m) (Z.ones (- e))) 0
             then Some (Z.shiftr (Z.pos m) (- e))
             else None in
      match mag with
      | Some v => Z.eqb z (if sign then - v else v)
      | None => false
      end
  | S754_infinity _ | S754_nan => false
  end.

(** The numeric tower of [==]: [bool] is an [int] ([True == 1]). *)
Definition num_of (j : json) : option (Z + float) :=
  match j with
  | JBool b => Some (inl (if b then 1 else 0)%Z)
  | JInt z => Some (inl z)
  | JFloat f => Some (inr f)
  | _ => None
  end.

Definition num_eq (x y : Z + float) : bool :=
  match x, y with
  | inl a, inl b => Z.eqb a b
  | inl a, inr g => int_eq_float a g
  | inr f, inl b => int_eq_float b f
  | inr f, inr g => PrimFloat.eqb f g
  end.

(** [x is y] for two values out of two loaded documents, as far as [==] can
    tell it from [x == y]: [json] hands out the one object [json.decoder.NaN]
    for every [NaN] literal, so two NaN are the same object although
    [NaN == NaN] is false.  (Any other two values that are one object,
    [None], [True] or a small [int], are equal anyway.) *)
Definition py_is (a b : json) : bool :=
  match a, b with
  | JFloat f, JFloat g => PrimFloat.is_nan f && PrimFloat.is_nan g
  | _, _ => false
  end.

(** [a == b] for two documents loaded separately: lists compare by length
    and position, dicts by size and by key, numbers by value, and values of
    different kinds are unequal.  The items of a list and the values of a
    dict are compared the way [list] and [dict] do it: the same object, or
    equal. *)
Fixpoint py_eq (a b : json) {struct a} : bool :=
  match a, b with
  | JNull, JNull => true
  | JString s, JString t => String.eqb s t
  | JList xs, JList ys =>
      (fix all2 (xs ys : list json) {struct xs} : bool :=
         match xs, ys with
         | [], [] => true
         | x :: xs', y :: ys' => (py_is x y || py_eq x y) && all2 xs' ys'
         | _, _ => false
         end) xs ys
  | JDict xs, JDict ys =>
      Nat.eqb (List.length xs) (List.length ys)
      && (fix each (xs : list (string * json)) {struct xs} : bool :=
            match xs with
            | [] => true
            | (k, v) :: xs' =>
                match dict_get k ys with
                | Some w => py_is v w || py_eq v w
                | None => false
                end && each xs'
            end) xs
  | _, _ =>
      match num_of a, num_of b with
      | Some x, Some y => num_eq x y
      | _, _ => false
      end
  end.

(** ** The world of the harness *)

(** The two library data types the harness only passes around. *)
Class Data := {
  frame : Type;     (* pandas.DataFrame *)
  ndarray : Type    (* numpy.ndarray *)
}.

(** Everything the harness and the model can read or change: the files below
    the project root, the process's working directory and environment, the
    database tables by [(schema, table name)], and the clock in milliseconds. *)
Record world `{Data} := World {
  w_fs : node;
  w_cwd : path;
  w_env : gmap string string;
  w_db : gmap (string * string) frame;
  w_clock : Z
}.

(** The collaborators.  Readers take the bytes of the file ([np_load] answers
    with the archive and all its members read); [format_value] is
    Python's [format] of a loaded value that is not a [str]; the two
    comparators take [atol] and [rtol] and answer with the [AssertionError]
    they raise, if any; [add_table_error] is the database client's reason to
    refuse a table (a table it does not refuse is created; [remove_table]
    and the constructor of the client always succeed); [main_model] is the
    model entry point, which may do anything to the world and return
    ([None]) or raise; [decode_text] is the text layer of [open(..., "r")],
    the decoding of the bytes with the encoding of the locale and the
    translation of line ends, which raises on bytes it cannot decode. *)
Class External `{Data} := {
  format_value : json -> string;
  read_csv : string -> exception + frame;
  read_parquet : string -> exception + frame;
  json_load : string -> exception + json;
  np_load : string -> exception + list (string * ndarray);
  assert_frame_equal : frame -> frame -> float -> Z -> option exception;
  assert_allclose : ndarray -> ndarray -> float -> Z -> option exception;
  add_table_error : gmap (string * string) frame -> frame -> string -> string -> option exception;
  main_model : world -> option raised * world;
  decode_text : string -> exception + string
}.

(** What an observer of a run sees the harness do, in order: the tables it
    creates and drops, the line it prints before asserting a file, and the
    comparisons it asks pandas and numpy for, with their tolerances. *)
Inductive event : Type :=
| EvAddTable (table_name : string)
| EvRemoveTable (table_name : string)
| EvAssertFile (rel : path)
| EvFrameEqual (atol : float) (rtol : Z)
| EvAllclose (member : string) (atol : float) (rtol : Z).

Inductive result (A : Type) : Type :=
| Ok (a : A)
| Raise (r : raised).
Arguments Ok {A} a.
Arguments Raise {A} r.

Section Monad.
Context {D : Data} {E : External}.

Record state := State { st_world : world; st_log : list event }.

(** A computation of the harness: it returns or raises, and either way
    leaves a state behind. *)
Definition M (A : Type) : Type := state -> result A * state.

Definition ret {A} (a : A) : M A := fun s => (Ok a, s).

Definition bind {A B} (m : M A) (k : A -> M B) : M B :=
  fun s =>
    match m s with
    | (Ok a, s') => k a s'
    | (Raise r, s') => (Raise r, s')
    end.

Definition raise {A} (e : exception) : M A := fun s => (Raise (Exc e), s).

Definition lift {A} (x : exception + A) : M A :=
  match x with
  | inl e => raise e
  | inr a => ret a
  end.

Definition get_world : M world := fun s => (Ok (st_world s), s).

Definition set_world (w : world) : M unit :=
  fun s => (Ok tt, State w (st_log s)).

Definition emit (ev : event) : M unit :=
  fun s => (Ok tt, State (st_world s) (st_log s ++ [ev])).

(** [try: body / except Exception as e: handler e]; a [SystemExit] passes
    through. *)
Definition try_except {A} (body : M A) (handler : exception -> M A) : M A :=
  fun s =>
    match body s with
    | (Raise (Exc e), s') => handler e s'
    | other => other
    end.

(** [try: body / except Exception as e: handler e / else: orelse]. *)
Definition try_except_else {A B} (body : M A) (handler : exception -> M B)
    (orelse : A -> M B) : M B :=
  fun s =>
    match body s with
    | (Ok a, s') => orelse a s'
    | (Raise (Exc e), s') => handler e s'
    | (Raise r, s') => (Raise r, s')
    end.

(** [for x in l: body x] *)
Fixpoint for_each {A} (l : list A) (body : A -> M unit) : M unit :=
  match l with
  | [] => ret tt
  | x :: l' => bind (body x) (fun _ => for_each l' body)
  end.
End Monad.

Notation "x <- m ;; k" := (bind m (fun x => k))
  (at level 100, m at next level, right associativity).
Notation "m ;;; k" := (bind m (fun _ => k))
  (at level 100, right associativity).

(** ** Constants of test_snapshots.py *)

Definition CASES_DIR : path := joinpath paths.TEST_SNAPSHOTS_DIR ["Cases"].
Definition EXPECTED_OUTPUTS_FOLDER : string := "ExpectedOutputs".
Definition OUTPUTS_FOLDER_NAME : string := "Outputs".
Definition INPUTS_FOLDER_NAME : string := "Inputs".
Definition DATABASE_FOLDER_NAME : string := "_Database".
Definition SETTINGS_FILENAME : string := "Settings.json".
Definition DET_DB_SCHEMA : string := "SNAP".
Definition ABSOLUTE_TOLERANCE : float := 1e-8%float.
Definition RELATIVE_TOLERANCE : Z := 0%Z.

(** ** Python built-ins the harness uses *)

(** [str(n)] for an [int]. *)
Definition str_of_int (z : Z) : string := NilZero.string_of_int (Z.to_int z).

(** [f"{n:02d}"]: at least two characters, padded with a zero on the left. *)
Definition format_02d (z : Z) : string :=
  let s := str_of_int z in
  if Nat.ltb (String.length s) 2 then "0" ++ s else s.

Definition is_space (c : ascii) : bool :=
  let n := nat_of_ascii c in
  Nat.eqb n 32 || (Nat.leb 9 n && Nat.leb n 13).

Definition is_digit (c : ascii) : bool :=
  let n := nat_of_ascii c in Nat.leb 48 n && Nat.leb n 57.

Definition digit_value (c : ascii) : Z := Z.of_nat (nat_of_ascii c - 48).

Fixpoint lstrip (s : string) : string :=
  match s with
  | String c s' => if is_space c then lstrip s' else s
  | EmptyString => EmptyString
  end.

Fixpoint rstrip (s : string) : string :=
  match s with
  | String c s' =>
      match rstrip s' with
      | EmptyString => if is_space c then EmptyString else String c EmptyString
      | t => String c t
      end
  | EmptyString => EmptyString
  end.

(** The digits of a decimal literal, with single underscores allowed between
    digits only. *)
Fixpoint parse_digits (s : string) (acc : Z) (after_digit : bool) : option Z :=
  match s with
  | EmptyString => if after_digit then Some acc else None
  | String c s' =>
      if is_digit c then parse_digits s' (10 * acc + digit_value c)%Z true
      else if Ascii.eqb c "_" && after_digit then parse_digits s' acc false
      else None
  end.

(** [int(s)] on ASCII text: surrounding white space, an optional sign, then
    decimal digits.  [None] stands for the [ValueError]. *)
Definition py_int (s : string) : option Z :=
  match lstrip (rstrip s) with
  | String c t =>
      if Ascii.eqb c "-" then option_map Z.opp (parse_digits t 0%Z false)
      else if Ascii.eqb c "+" then parse_digits t 0%Z false
      else parse_digits (String c t) 0%Z false
  | EmptyString => None
  end.

(** [range(lo, hi)] *)
Definition py_range (lo hi : Z) : list Z :=
  List.map (fun i => (lo + Z.of_nat i)%Z) (List.seq 0 (Z.to_nat (hi - lo))).

(** [max(l)] and [min(l)] of a non-empty list; [None] for the [ValueError]
    on an empty one. *)
Definition py_max (l : list Z) : option Z :=
  match l with
  | [] => None
  | x :: l' => Some (List.fold_left Z.max l' x)
  end.

Definition py_min (l : list Z) : option Z :=
  match l with
  | [] => None
  | x :: l' => Some (List.fold_left Z.min l' x)
  end.

(** [x in l] for a list of [int]. *)
Definition py_in (x : Z) (l : list Z) : bool := List.existsb (Z.eqb x) l.

(** [list.sort()] on strings: a stable insertion sort by code-point order. *)
Fixpoint insert_sorted (x : string) (l : list string) : list string :=
  match l with
  | [] => [x]
  | y :: l' => if String.leb x y then x :: l else y :: insert_sorted x l'
  end.

Definition sort_names (l : list string) : list string :=
  List.fold_right insert_sorted [] l.

(** The components of a relative file name written with slashes, for a name
    without [.] and [..] components: such a name stays below the folder it
    is joined to. *)
Fixpoint split_slash (cur : string) (s : string) : list string :=
  match s with
  | EmptyString => if String.eqb cur "" then [] else [cur]
  | String c s' =>
      if Ascii.eqb c "/"
      then (if String.eqb cur "" then [] else [cur]) ++ split_slash "" s'
      else split_slash (cur ++ String c "")%string s'
  end.

Definition LF : ascii := ascii_of_nat 10.

(** [content.rstrip("\n")] *)
Fixpoint rstrip_newlines (s : string) : string :=
  match s with
  | String c s' =>
      match rstrip_newlines s' with
      | EmptyString => if Ascii.eqb c LF then EmptyString else String c EmptyString
      | t => String c t
      end
  | EmptyString => EmptyString
  end.

(** [content.replace("\n", "\n> ")] *)
Fixpoint quote_newlines (s : string) : string :=
  match s with
  | String c s' =>
      if Ascii.eqb c LF then String LF ("> " ++ quote_newlines s')
      else String c (quote_newlines s')
  | EmptyString => EmptyString
  end.

(** ** The harness: tests/snapshots/test_snapshots.py *)

Section Harness.
Context {D : Data} {E : External}.

Definition set_fs (w : world) (fs : node) : world :=
  World _ fs (w_cwd w) (w_env w) (w_db w) (w_clock w).
Definition set_cwd (w : world) (d : path) : world :=
  World _ (w_fs w) d (w_env w) (w_db w) (w_clock w).
Definition set_env (w : world) (env : gmap string string) : world :=
  World _ (w_fs w) (w_cwd w) env (w_db w) (w_clock w).
Definition set_db (w : world) (db : gmap (string * string) frame) : world :=
  World _ (w_fs w) (w_cwd w) (w_env w) db (w_clock w).

(** *** File-system and database calls, in the monad *)

Definition fs_update (f : node -> exception + node) : M unit :=
  w <- get_world ;;
  match f (w_fs w) with
  | inl e => raise e
  | inr fs' => set_world (set_fs w fs')
  end.

Definition rmtree (p : path) : M unit := fs_update (rmtree_fs p).
Definition mkdir_parents_exist_ok (p : path) : M unit := fs_update (mkdirs [] p).
Definition copy2 (src dst : path) : M unit := fs_update (copy2_fs src dst).
Definition copytree (src dst : path) : M unit := fs_update (copytree_fs src dst).

Definition path_is_dir (p : path) : M bool :=
  w <- get_world ;; ret (is_dir p (w_fs w)).

Definition open_read (p : path) : M string :=
  w <- get_world ;; lift (read_bytes p (w_fs w)).

(** [os.chdir] *)
Definition chdir (p : path) : M unit :=
  w <- get_world ;;
  match lookup_node p (w_fs w) with
  | Some (Dir _) => set_world (set_cwd w p)
  | Some (File _) => raise (NotADirectoryError p)
  | None => raise (FileNotFoundError p)
  end.

(** [os.environ[k] = v] *)
Definition setenv (k v : string) : M unit :=
  w <- get_world ;; set_world (set_env w (<[k := v]> (w_env w))).

(** [DetDatabase().add_table(df=..., table_name=..., schema=...)]: the
    client refuses and raises, or the table is there. *)
Definition db_add_table (df : frame) (table_name schema : string) : M unit :=
  w <- get_world ;;
  match add_table_error (w_db w) df table_name schema with
  | Some e => raise e
  | None =>
      set_world (set_db w (<[(schema, table_name) := df]> (w_db w))) ;;;
      emit (EvAddTable table_name)
  end.

(** [DetDatabase().remove_table(table_name=..., schema=...)] *)
Definition db_remove_table (table_name schema : string) : M unit :=
  w <- get_world ;;
  set_world (set_db w (delete (schema, table_name) (w_db w))) ;;;
  emit (EvRemoveTable table_name).

(** The model entry point, run on the current world. *)
Definition run_main_model : M unit :=
  fun s =>
    match main_model (st_world s) with
    | (None, w') => (Ok tt, State w' (st_log s))
    | (Some r, w') => (Raise r, State w' (st_log s))
    end.

(** *** remove_mock_data_from_db *)

Definition remove_mock_data_from_db (table_names : list string) : M unit :=
  if Nat.ltb 0 (List.length table_names)
  then for_each table_names (fun t => db_remove_table t DET_DB_SCHEMA)
  else ret tt.

(** *** dump_mock_data_in_db *)

(** [for d in database_json]: a list yields its items, a dict its keys, a
    string its characters; nothing else can be iterated. *)
Definition py_iter (j : json) : exception + list json :=
  match j with
  | JList items => inr items
  | JDict items => inr (List.map (fun kv => JString (fst kv)) items)
  | JString s => inr (List.map (fun c => JString (String c "")) (list_ascii_of_string s))
  | _ => inl (LibraryError "TypeError")
  end.

(** [d[key]] with a string key. *)
Definition subscript (d : json) (key : string) : exception + json :=
  match d with
  | JDict items =>
      match dict_get key items with
      | Some v => inr v
      | None => inl (KeyError key)
      end
  | _ => inl (LibraryError "TypeError")
  end.

(** A value used where [str] is required (a path component, a key of
    [os.environ]). *)
Definition as_str (j : json) : exception + string :=
  match j with
  | JString s => inr s
  | _ => inl (LibraryError "TypeError")
  end.

(** The first loop: derive the temporary table name, load the data file
    (a file name with slashes names a file in a sub-folder), publish the
    table reference in the environment.  No table is created here. *)
Fixpoint prepare_mock_data (database_dir : path) (timestamp_unix : Z)
    (database_json : list json) : M (list (string * frame)) :=
  match database_json with
  | [] => ret []
  | d :: rest =>
      base <- lift (subscript d "table_name") ;;
      let table_name :=
        (match base with JString b => b | _ => format_value base end
         ++ "_" ++ str_of_int timestamp_unix)%string in
      filename <- lift (subscript d "filename") ;;
      filename <- lift (as_str filename) ;;
      bytes <- open_read (joinpath database_dir (split_slash "" filename)) ;;
      df <- lift (read_parquet bytes) ;;
      env_variable <- lift (subscript d "env_variable") ;;
      env_variable <- lift (as_str env_variable) ;;
      setenv env_variable ("[" ++ DET_DB_SCHEMA ++ "].[" ++ table_name ++ "]")%string ;;;
      mock_data <- prepare_mock_data database_dir timestamp_unix rest ;;
      ret ((table_name, df) :: mock_data)
  end.

(** The body of the [try]: [table_names] is the local list the loop appends
    to; it is handed back with whatever was raised, as the [except] clause
    sees it. *)
Fixpoint add_tables (mock_data : list (string * frame)) (table_names : list string)
    (s : state) : (option raised * list string) * state :=
  match mock_data with
  | [] => ((None, table_names), s)
  | (table_name, df) :: rest =>
      match db_add_table df table_name DET_DB_SCHEMA s with
      | (Ok _, s') => add_tables rest (table_names ++ [table_name]) s'
      | (Raise r, s') => ((Some r, table_names), s')
      end
  end.

Definition dump_mock_data_in_db (case_dir : path) : M (list string) :=
  let database_dir := joinpath case_dir [INPUTS_FOLDER_NAME; DATABASE_FOLDER_NAME] in
  exists_ <- path_is_dir database_dir ;;
  if negb exists_ then ret []
  else
    let database_json_dir := joinpath database_dir ["_Database.json"] in
    bytes <- open_read database_json_dir ;;
    database_json <- lift (json_load bytes) ;;
    w <- get_world ;;
    let timestamp_unix := w_clock w in
    items <- lift (py_iter database_json) ;;
    mock_data <- prepare_mock_data database_dir timestamp_unix items ;;
    fun s =>
      match add_tables mock_data [] s with
      | ((None, table_names), s') => (Ok table_names, s')
      | ((Some (Exc e), table_names), s') =>
          (remove_mock_data_from_db table_names ;;; raise e) s'
      | ((Some r, _), s') => (Raise r, s')
      end.

(** *** copy_outputs *)

(** The walk is taken when the loop starts: the harness copies between the
    sibling folders [Outputs] and [ExpectedOutputs], so what is written
    never shows up in the tree being walked. *)
Definition copy_outputs (src dst : path) : M unit :=
  let extensions_to_ignore := [".html"] in
  rmtree dst ;;;
  mkdir_parents_exist_ok dst ;;;
  w <- get_world ;;
  for_each (walk src (w_fs w))
    (fun '(root, _, filenames) =>
       match relative_to root src with
       | None => raise (ValueError "relative_to")
       | Some dir_suffix =>
           let dst_root := joinpath dst dir_suffix in
           for_each filenames
             (fun f =>
                let src_file_dir := joinpath root [f] in
                let dst_file_dir := joinpath dst_root [f] in
                if negb (List.existsb (String.eqb (suffix src_file_dir)) extensions_to_ignore)
                then mkdir_parents_exist_ok dst_root ;;; copy2 src_file_dir dst_file_dir
                else ret tt)
       end).

(** *** assert_csv, assert_json, assert_npz, assert_file *)

Definition assert_csv (output_file_dir expected_output_file_dir : path) : M unit :=
  bytes <- open_read output_file_dir ;;
  data <- lift (read_csv bytes) ;;
  bytes <- open_read expected_output_file_dir ;;
  expected_data <- lift (read_csv bytes) ;;
  emit (EvFrameEqual ABSOLUTE_TOLERANCE RELATIVE_TOLERANCE) ;;;
  match assert_frame_equal data expected_data ABSOLUTE_TOLERANCE RELATIVE_TOLERANCE with
  | Some e => raise e
  | None => ret tt
  end.

Definition assert_json (output_file_dir expected_output_file_dir : path) : M unit :=
  bytes <- open_read output_file_dir ;;
  data <- lift (json_load bytes) ;;
  bytes <- open_read expected_output_file_dir ;;
  expected_data <- lift (json_load bytes) ;;
  if py_eq data expected_data then ret tt else raise (AssertionError "").

(** [NpzFile.files] and [NpzFile[name]] *)
Definition npz_files (a : list (string * ndarray)) : list string := List.map fst a.

Fixpoint npz_get (name : string) (a : list (string * ndarray)) : option ndarray :=
  match a with
  | [] => None
  | (k, v) :: a' => if String.eqb k name then Some v else npz_get name a'
  end.

Definition npz_getitem (a : list (string * ndarray)) (name : string) : M ndarray :=
  match npz_get name a with
  | Some v => ret v
  | None => raise (KeyError (name ++ " is not a file in the archive"))
  end.

(** The body of the loop over the members of the expected archive. *)
Definition assert_member (data expected_data : list (string * ndarray)) (name : string)
  : M unit :=
  actual <- npz_getitem data name ;;
  desired <- npz_getitem expected_data name ;;
  emit (EvAllclose name ABSOLUTE_TOLERANCE RELATIVE_TOLERANCE) ;;;
  match assert_allclose actual desired ABSOLUTE_TOLERANCE RELATIVE_TOLERANCE with
  | Some e => raise e
  | None => ret tt
  end.

Definition assert_npz (output_file_dir expected_output_file_dir : path) : M unit :=
  bytes <- open_read output_file_dir ;;
  data <- lift (np_load bytes) ;;
  bytes <- open_read expected_output_file_dir ;;
  expected_data <- lift (np_load bytes) ;;
  if bool_decide (list_to_set (npz_files data) ≠@{gset string} list_to_set (npz_files expected_data))
  then raise (KeyError "The .npz archives have different keys.")
  else for_each (npz_files expected_data) (assert_member data expected_data).

Definition assert_file (output_file_dir expected_output_file_dir : path) : M unit :=
  let extension := suffix expected_output_file_dir in
  if String.eqb extension ".csv" then assert_csv output_file_dir expected_output_file_dir
  else if String.eqb extension ".json" then assert_json output_file_dir expected_output_file_dir
  else if String.eqb extension ".npz" then assert_npz output_file_dir expected_output_file_dir
  else if String.eqb extension ".html" then ret tt
  else raise (ValueError ("File extension '" ++ extension ++ "' is not supported.")).

(** *** compare_outputs *)

(** The body of the inner loop: one expected file against its counterpart.
    [EvAssertFile] is the line printed before the assertion. *)
Definition assert_output (expected_outputs_base_dir outputs_base_dir root : path)
    (f : string) : M unit :=
  let expected_output_file_dir := joinpath root [f] in
  match relative_to expected_output_file_dir expected_outputs_base_dir with
  | None => raise (ValueError "relative_to")
  | Some dir_suffix =>
      let output_file_dir := joinpath outputs_base_dir dir_suffix in
      emit (EvAssertFile dir_suffix) ;;;
      try_except (assert_file output_file_dir expected_output_file_dir)
        (fun e => rmtree outputs_base_dir ;;; raise e)
  end.

Definition compare_outputs (expected_outputs_base_dir outputs_base_dir : path) : M unit :=
  w <- get_world ;;
  for_each (walk expected_outputs_base_dir (w_fs w))
    (fun '(root, _, filenames) =>
       for_each filenames
         (assert_output expected_outputs_base_dir outputs_base_dir root)).

(** *** find_cases, create_new_case_folder *)

Definition find_cases : M (list path) :=
  w <- get_world ;;
  let cases :=
    match lookup_node CASES_DIR (w_fs w) with
    | Some (Dir es) =>
        List.filter (fun name => startswith name "Case") (dirnames es)
    | _ => []
    end in
  ret (List.map (fun name => joinpath CASES_DIR [name]) (sort_names cases)).

(** [int(c.name[4:])] for every case; the first name that is not a number
    raises. *)
Fixpoint case_numbers_of (cases : list path) : exception + list Z :=
  match cases with
  | [] => inr []
  | c :: rest =>
      let name := name_of c in
      match py_int (String.substring 4 (String.length name - 4) name) with
      | None => inl (ValueError "invalid literal for int() with base 10")
      | Some n =>
          match case_numbers_of rest with
          | inl e => inl e
          | inr ns => inr (n :: ns)
          end
      end
  end.

Definition new_case_number_of (case_numbers : list Z) : exception + Z :=
  let max_case_number :=
    if Nat.ltb 0 (List.length case_numbers)
    then match py_max case_numbers with Some m => m | None => 0%Z end
    else 0%Z in
  match py_min (List.filter (fun c => negb (py_in c case_numbers))
                  (py_range 1 (max_case_number + 2))) with
  | Some n => inr n
  | None => inl (ValueError "min() arg is an empty sequence")
  end.

Definition create_new_case_folder : M path :=
  cases <- find_cases ;;
  case_numbers <- lift (case_numbers_of cases) ;;
  new_case_number <- lift (new_case_number_of case_numbers) ;;
  let new_case := ("Case" ++ format_02d new_case_number)%string in
  let new_case_dir := joinpath CASES_DIR [new_case] in
  mkdir_parents_exist_ok new_case_dir ;;;
  ret new_case_dir.

(** *** print_case_description *)

(** The function only prints; what it returns here are the arguments of its
    calls of [print], in order.  [decode] is the text layer of [open(..., "r")]:
    the decoding of the bytes and the translation of line ends. *)
Definition print_case_description (decode : string -> exception + string)
    (case_dir : path) : M (list string) :=
  let case_description_dir := joinpath case_dir ["case_description.txt"] in
  w <- get_world ;;
  if is_file case_description_dir (w_fs w)
  then
    bytes <- open_read case_description_dir ;;
    content <- lift (decode bytes) ;;
    let content := rstrip_newlines content in
    let content := quote_newlines content in
    ret ["Case description:"; ("> " ++ content)%string]
  else ret [].

(** *** test_snapshots *)

(** The loop body from [os.chdir] on, in the three parts the source marks:
    process inputs, run model, process outputs.  (The calls of [print] only
    write to the terminal.) *)
Definition process_inputs (run_type : string) (case_dir : path) : M (list string) :=
  let project_inputs_base_dir := joinpath paths.ROOT_DIR [INPUTS_FOLDER_NAME] in
  let case_inputs_base_dir := joinpath case_dir [INPUTS_FOLDER_NAME] in
  table_names <- dump_mock_data_in_db case_dir ;;
  (if String.eqb run_type "create"
   then copytree project_inputs_base_dir case_inputs_base_dir
   else ret tt) ;;;
  ret table_names.

Definition run_model (table_names : list string) (outputs_base_dir : path) : M unit :=
  try_except_else run_main_model
    (fun e =>
       remove_mock_data_from_db table_names ;;;
       (exists_ <- path_is_dir outputs_base_dir ;;
        if exists_ then rmtree outputs_base_dir else ret tt) ;;;
       raise e)
    (fun _ => remove_mock_data_from_db table_names).

Definition process_outputs (run_type : string)
    (expected_outputs_base_dir outputs_base_dir : path) : M unit :=
  if String.eqb run_type "create"
  then copy_outputs outputs_base_dir expected_outputs_base_dir
  else if String.eqb run_type "update"
  then copy_outputs outputs_base_dir expected_outputs_base_dir
  else if String.eqb run_type "compare"
  then compare_outputs expected_outputs_base_dir outputs_base_dir
  else ret tt.

Definition run_case (run_type : string) (case_dir : path) : M unit :=
  chdir case_dir ;;;
  let expected_outputs_base_dir := joinpath case_dir [EXPECTED_OUTPUTS_FOLDER] in
  let outputs_base_dir := joinpath case_dir [OUTPUTS_FOLDER_NAME] in
  table_names <- process_inputs run_type case_dir ;;
  run_model table_names outputs_base_dir ;;;
  process_outputs run_type expected_outputs_base_dir outputs_base_dir ;;;
  rmtree outputs_base_dir.

(** One round of the [for case_dir in cases] loop: the case description is
    printed, which reads and decodes [case_description.txt] when the case has
    one, and then the case is run. *)
Definition test_case (run_type : string) (case_dir : path) : M unit :=
  print_case_description decode_text case_dir ;;;
  run_case run_type case_dir.

Definition test_snapshots (run_type : string) : M unit :=
  let accepted_run_types := ["compare"; "update"; "create"] in
  if negb (List.existsb (String.eqb run_type) accepted_run_types)
  then raise (ValueError ("Invalid input 'run_type'='" ++ run_type
                          ++ "'. Accepted values: 'compare', 'update', 'create'."))
  else
    cases <- (if String.eqb run_type "create"
              then (c <- create_new_case_folder ;; ret [c])
              else find_cases) ;;
    for_each cases (test_case run_type).
End Harness.

(** The files below the expected-outputs folder, by their path relative to
    it: what [compare_outputs] walks. *)
Definition expected_files (expected_outputs_base_dir : path) (fs : node) : list path :=
  List.flat_map
    (fun '(root, _, filenames) =>
       match relative_to root expected_outputs_base_dir with
       | Some dir_suffix => List.map (fun f => dir_suffix ++ [f]) filenames
       | None => []
       end)
    (walk expected_outputs_base_dir fs).

(** The database calls in a log. *)
Definition is_db_event (ev : event) : bool :=
  match ev with
  | EvAddTable _ | EvRemoveTable _ => true
  | _ => false
  end.

Definition db_events (log : list event) : list event := List.filter is_db_event log.

(** ** src/main.py *)

Module src_main.
Definition newline : string := String (ascii_of_nat 10) "".

(** [pd.DataFrame(data=[[2, 2], [3, 4]]).to_csv(...)] *)
Definition df_csv : string :=
  ",0,1" ++ newline ++ "0,2,2" ++ newline ++ "1,3,4" ++ newline.

(** [main()]: make [Outputs] below the working directory and write
    [df.csv] into it. *)
Definition main `{Data} (w : world) : option raised * world :=
  let outputs_dir := joinpath (w_cwd w) ["Outputs"] in
  match mkdirs [] outputs_dir (w_fs w) with
  | inl e => (Some (Exc e), w)
  | inr fs1 =>
      let w1 := World _ fs1 (w_cwd w) (w_env w) (w_db w) (w_clock w) in
      match write_bytes (joinpath outputs_dir ["df.csv"]) df_csv fs1 with
      | inl e => (Some (Exc e), w1)
      | inr fs2 => (None, World _ fs2 (w_cwd w) (w_env w) (w_db w) (w_clock w))
      end
  end.
End src_main.

(** ** A small instance of the collaborators

    Readers that understand a handful of documents, comparators that demand
    identical data, a database that refuses the tables named [bad...], and
    the model of src/main.py.  The examples below run the harness on it. *)

Module Demo.
Definition data : Data := {| frame := string; ndarray := nat |}.

Definition entry (table_name filename env_variable : string) : json :=
  JDict [("table_name", JString table_name);
         ("filename", JString filename);
         ("env_variable", JString env_variable)].

(** Three tables, the second of which the database refuses. *)
Definition manifest : json :=
  JList [entry "prices" "prices.parquet" "PRICES";
         entry "bad" "bad.parquet" "BAD";
         entry "volumes" "volumes.parquet" "VOLUMES"].

(** Two tables the database accepts. *)
Definition tables : json :=
  JList [entry "prices" "prices.parquet" "PRICES";
         entry "volumes" "volumes.parquet" "VOLUMES"].

Definition load_document (s : string) : exception + json :=
  if String.eqb s "manifest" then inr manifest
  else if String.eqb s "tables" then inr tables
  else if String.eqb s "[]" then inr (JList [])
  else if String.eqb s "null" then inr JNull
  else if String.eqb s "NaN" then inr (JFloat nan)
  else if String.eqb s "[NaN]" then inr (JList [JFloat nan])
  else match py_int s with
       | Some z => inr (JInt z)
       | None => inl (LibraryError "JSONDecodeError")
       end.

Definition exact {A} (eqb : A -> A -> bool) (a b : A) (atol : float) (rtol : Z)
  : option exception :=
  if eqb a b then None else Some (AssertionError "Not equal to tolerance").

Definition collaborators_with (model : @world data -> option raised * @world data)
    (decode : string -> exception + string) : @External data :=
  @Build_External data
    (* format_value *) (fun _ => "value")
    (* read_csv *) (fun s => inr (s : @frame data))
    (* read_parquet *) (fun s => inr (s : @frame data))
    (* json_load *) load_document
    (* np_load *) (fun s =>
       inr (List.map (fun c => (String c "", nat_of_ascii c : @ndarray data))
              (list_ascii_of_string s)))
    (* assert_frame_equal *) (exact String.eqb)
    (* assert_allclose *) (exact Nat.eqb)
    (* add_table_error *) (fun _ _ table_name _ =>
       if startswith table_name "bad" then Some (LibraryError "add_table") else None)
    (* main_model *) model
    (* decode_text *) decode.

(** The text layer decodes every file to the bytes it holds. *)
Definition collaborators (model : @world data -> option raised * @world data)
  : @External data :=
  collaborators_with model inr.

(** A comparator that refuses to be asked with other tolerances than 1e-8
    and 0. *)
Definition strict {A} (eqb : A -> A -> bool) (a b : A) (atol : float) (rtol : Z)
  : option exception :=
  if PrimFloat.eqb atol 1e-8%float && Z.eqb rtol 0
  then exact eqb a b atol rtol
  else Some (LibraryError "unexpected tolerance").

(** The harness as the repository wires it: the model is src/main.py. *)
Definition repo : @External data := collaborators src_main.main.

(** A model that ends with [sys.exit(1)]. *)
Definition exiting : @External data :=
  collaborators (fun w => (Some (SystemExit 1), w)).

(** A model that raises an ordinary error after writing its outputs. *)
Definition failing : @External data :=
  collaborators
    (fun w => (Some (Exc (LibraryError "model failed")), snd (src_main.main w))).

Definition initial (fs : node) : @state data :=
  State (World data fs [] ∅ ∅ 1700000000000) [].

(** One case with a baseline and a staged-table manifest. *)
Definition case01 (expected_csv : string) (manifest_bytes : string) : node :=
  Dir [("Inputs", Dir [("Settings.json", File "null")]);
       ("tests", Dir [("snapshots", Dir [("Cases", Dir [
          ("Case01", Dir [
             ("Inputs", Dir [("_Database", Dir [
                 ("_Database.json", File manifest_bytes);
                 ("prices.parquet", File "p");
                 ("bad.parquet", File "b");
                 ("volumes.parquet", File "v")])]);
             ("ExpectedOutputs", Dir [("df.csv", File expected_csv)])])])])])].
Definition case01_dir : path := joinpath CASES_DIR ["Case01"].

(** The state a failed staging of [manifest] leaves. *)
Definition after_failed_staging : @state data :=
  snd (dump_mock_data_in_db (E := repo) case01_dir
         (initial (case01 src_main.df_csv "manifest"))).
(** The case after a model run: [Outputs] holds df.csv and whatever [extra]
    the model also wrote. *)
Definition case01_run (expected_csv : string) (extra : list (string * node)) : node :=
  Dir [("tests", Dir [("snapshots", Dir [("Cases", Dir [
         ("Case01", Dir [
            ("ExpectedOutputs", Dir [("df.csv", File expected_csv)]);
            ("Outputs", Dir (("df.csv", File src_main.df_csv) :: extra))])])])])].

Definition case01_expected : path := joinpath case01_dir [EXPECTED_OUTPUTS_FOLDER].
Definition case01_outputs : path := joinpath case01_dir [OUTPUTS_FOLDER_NAME].

(** Files the model wrote that no baseline mentions. *)
Definition extra_files : list (string * node) :=
  [("extra.txt", File "junk"); ("plots", Dir [("figure.html", File "h")])].

(** The case with two tables to stage, and the state once its inputs are
    processed. *)
Definition with_tables : @state data := initial (case01 src_main.df_csv "tables").

Definition staged : @state data :=
  snd ((chdir case01_dir ;;; process_inputs (E := repo) "compare" case01_dir) with_tables).

(** The world the failing model leaves. *)
Definition after_failing_model : @world data :=
  snd (@main_model data failing (st_world staged)).

Definition staged_tables : list string :=
  ["prices_1700000000000"; "volumes_1700000000000"].

(** A project with inputs and no case yet. *)
Definition project : node := Dir [("Inputs", Dir [("Settings.json", File "null")])].

(** Two archives and two documents, side by side. *)
Definition pair_of_files (suffix_ : string) (actual expected : string) : node :=
  Dir [(("out" ++ suffix_)%string, File actual); (("exp" ++ suffix_)%string, File expected)].

(** The archives the toy [np_load] reads from [ab] and from [ba]. *)
Definition archive_ab : list (string * @ndarray data) := [("a", 97); ("b", 98)].
Definition archive_ba : list (string * @ndarray data) := [("b", 98); ("a", 97)].

(** The state a comparison against a different baseline leaves. *)
Definition after_failed_comparison : @state data :=
  snd (compare_outputs (E := repo) case01_expected case01_outputs
         (initial (case01_run "x" []))).

(** The [Cases] folder with the given entries. *)
Definition cases_folder (es : list (string * node)) : node :=
  Dir [("tests", Dir [("snapshots", Dir [("Cases", Dir es)])])].

(** Two cases, a text file and a file whose name starts like a case. *)
Definition two_cases : @state data :=
  initial (cases_folder [("Case03", Dir []); ("Case01", Dir []);
                         ("notes.txt", File "n"); ("Casebook", File "x")]).

(** A folder that is no case, among the cases. *)
Definition with_case_study : @state data :=
  initial (cases_folder [("Case01", Dir []); ("CaseStudy", Dir [])]).

(** The states after one and after two calls of [create_new_case_folder]. *)
Definition created_once : @state data :=
  snd (create_new_case_folder (initial project)).
Definition created_twice : @state data :=
  snd (create_new_case_folder created_once).

(** The state after the two tables of [with_tables] are staged. *)
Definition after_staging : @state data :=
  snd (dump_mock_data_in_db (E := repo) case01_dir with_tables).

(** A case with a text file in its baseline. *)
Definition baseline_with_notes : @state data :=
  initial (cases_folder [("Case01", Dir [
     ("ExpectedOutputs", Dir [("df.csv", File src_main.df_csv); ("notes.txt", File "n")]);
     ("Outputs", Dir [("df.csv", File src_main.df_csv); ("notes.txt", File "n")])])]).

(** A case without a baseline. *)
Definition no_baseline : @state data :=
  initial (cases_folder [("Case01", Dir [("Outputs", Dir [("df.csv", File "anything")])])]).

(** A case folder with nothing in it. *)
Definition empty_case : @state data := initial (cases_folder [("Case01", Dir [])]).

(** A case with a stale baseline and nothing else. *)
Definition baseline_only : @state data :=
  initial (cases_folder [("Case01", Dir [
     ("ExpectedOutputs", Dir [("old.csv", File "stale")])])]).

(** A model that returns without writing anything. *)
Definition silent : @External data := collaborators (fun w => (None, w)).

(** A case with a stale baseline and a description of two lines. *)
Definition described_baseline : @state data :=
  initial (cases_folder [("Case01", Dir [
     ("case_description.txt",
      File ("first line" ++ src_main.newline ++ "second line" ++ src_main.newline));
     ("ExpectedOutputs", Dir [("old.csv", File "stale")])])]).

(** The repository's model behind a text layer that cannot decode anything. *)
Definition picky : @External data :=
  collaborators_with src_main.main (fun _ => inl (ValueError "UnicodeDecodeError")).

(** The world of a model started in the folder of [Case01]. *)
Definition in_case01 : @world data :=
  World data (case01 src_main.df_csv "[]") case01_dir ∅ ∅ 1700000000000.

(** A case with a description of two lines. *)
Definition described : @state data :=
  initial (cases_folder [("Case01", Dir [
     ("case_description.txt",
      File ("first line" ++ src_main.newline ++ "second line" ++ src_main.newline
            ++ src_main.newline))])]).
End Demo.

(** * The vocabulary of the properties *)

Definition all_digits (s : string) : bool :=
  List.forallb is_digit (list_ascii_of_string s).

(** A case directory called [Case<digits>]. *)
Definition numeric_suffix (c : path) : Prop :=
  exists ds, name_of c = ("Case" ++ ds)%string /\ ds <> "" /\ all_digits ds = true.

(** The text [ds] writes the number [n] in decimal digits: at least one
    digit, nothing but digits, leading zeros allowed. *)
Definition numeral_of (ds : string) (n : Z) : Prop :=
  exists d, d <> Decimal.Nil /\ ds = NilEmpty.string_of_uint d /\ n = Z.of_uint d.

(** The number [n] is in use: some directory [Cases/Case<ds>] has a suffix
    that writes [n]. *)
Definition case_number_in_use (fs : node) (n : Z) : Prop :=
  exists ds, numeral_of ds n
             /\ is_dir (joinpath CASES_DIR [("Case" ++ ds)%string]) fs = true.

(** The number a decimal numeral denotes, read digit by digit from [acc]. *)
Fixpoint uint_value (d : Decimal.uint) (acc : Z) : Z :=
  match d with
  | Decimal.Nil => acc
  | Decimal.D0 l => uint_value l (10 * acc + 0)
  | Decimal.D1 l => uint_value l (10 * acc + 1)
  | Decimal.D2 l => uint_value l (10 * acc + 2)
  | Decimal.D3 l => uint_value l (10 * acc + 3)
  | Decimal.D4 l => uint_value l (10 * acc + 4)
  | Decimal.D5 l => uint_value l (10 * acc + 5)
  | Decimal.D6 l => uint_value l (10 * acc + 6)
  | Decimal.D7 l => uint_value l (10 * acc + 7)
  | Decimal.D8 l => uint_value l (10 * acc + 8)
  | Decimal.D9 l => uint_value l (10 * acc + 9)
  end%Z.

Section Vocabulary.
Context {D : Data} {E : External}.

(** [preserves R m]: whatever [m] does and however it ends, the state it
    leaves is related by [R] to the state it started in. *)
Definition preserves {A} (R : state -> state -> Prop) (m : M A) : Prop :=
  forall s, R s (snd (m s)).

(** [no_exit m]: [m] never ends in [SystemExit]; what it raises, if
    anything, is an [Exception]. *)
Definition no_exit {A} (m : M A) : Prop :=
  forall s c, fst (m s) <> Raise (SystemExit c).

(** Only the environment (and the working directory or the clock) may have
    changed: same log, same database, same files. *)
Definition only_env (s s' : state) : Prop :=
  st_log s' = st_log s
  /\ w_db (st_world s') = w_db (st_world s)
  /\ w_fs (st_world s') = w_fs (st_world s).

(** Same files and same database; the log may have grown. *)
Definition same_fs_db (s s' : state) : Prop :=
  w_fs (st_world s') = w_fs (st_world s) /\ w_db (st_world s') = w_db (st_world s).

(** The database and the database calls in the log are as they were. *)
Definition quiet_db (s s' : state) : Prop :=
  w_db (st_world s') = w_db (st_world s)
  /\ db_events (st_log s') = db_events (st_log s).

(** Dropping the tables [names], one after the other. *)
Definition drop_tables (names : list string) (db : gmap (string * string) frame)
  : gmap (string * string) frame :=
  List.fold_left (fun db t => delete (DET_DB_SCHEMA, t) db) names db.

(** The state of the database calls after some step of a case run that
    started in [s]: tables [created] were created and dropped again, and none
    of them is in the database. *)
Definition settled (s s' : state) : Prop :=
  exists created,
    db_events (st_log s')
    = db_events (st_log s) ++ List.map EvAddTable created
        ++ List.map EvRemoveTable created
    /\ forall t, In t created -> w_db (st_world s') !! (DET_DB_SCHEMA, t) = None.

(** Two states in which the files [ps] read the same. *)
Definition reads_agree (ps : list path) (s1 s2 : state) : Prop :=
  forall p, In p ps ->
    read_bytes p (w_fs (st_world s1)) = read_bytes p (w_fs (st_world s2)).

(** [observes ps m]: [m] looks at the state only through the bytes of the
    files [ps] and changes nothing but the log; in two states that agree on
    those files it ends the same way and logs the same events. *)
Definition observes {A} (ps : list path) (m : M A) : Prop :=
  forall s1 s2, reads_agree ps s1 s2 ->
    exists r L,
      m s1 = (r, State (st_world s1) (st_log s1 ++ L))
      /\ m s2 = (r, State (st_world s2) (st_log s2 ++ L)).

(** The two runs, side by side: same worlds as at the start, same events
    logged so far. *)
Definition in_step (s1 s2 a b : state) : Prop :=
  st_world a = st_world s1 /\ st_world b = st_world s2
  /\ exists L, st_log a = st_log s1 ++ L /\ st_log b = st_log s2 ++ L.

(** Two outcomes that an observer of the result and of the log cannot tell
    apart; when they are returns, the runs are still in step. *)
Definition same_outcome (s1 s2 : state) (x y : result unit * state) : Prop :=
  fst x = fst y
  /\ (exists L, st_log (snd x) = st_log s1 ++ L /\ st_log (snd y) = st_log s2 ++ L)
  /\ (fst x = Ok tt -> in_step s1 s2 (snd x) (snd y)).

(** The comparison of one member, as [assert_npz] asks numpy for it. *)
Definition member_close (data expected : list (string * ndarray)) (name : string) : Prop :=
  forall actual desired,
    npz_get name data = Some actual -> npz_get name expected = Some desired ->
    assert_allclose actual desired 1e-8%float 0%Z = None.

(** The log has grown by events that all satisfy [P]. *)
Definition logged (P : event -> Prop) (s s' : state) : Prop :=
  exists L, st_log s' = st_log s ++ L /\ List.Forall P L.

(** The working directory is the same. *)
Definition same_cwd (s s' : state) : Prop :=
  w_cwd (st_world s') = w_cwd (st_world s).

End Vocabulary.

(** The collaborators [E] with other comparators in the place of pandas'
    [assert_frame_equal] and numpy's [assert_allclose]. *)
Definition with_comparators {D : Data} (E : External)
    (frame_equal : frame -> frame -> float -> Z -> option exception)
    (allclose : ndarray -> ndarray -> float -> Z -> option exception) : External :=
  {| format_value := format_value;
     read_csv := read_csv;
     read_parquet := read_parquet;
     json_load := json_load;
     np_load := np_load;
     assert_frame_equal := frame_equal;
     assert_allclose := allclose;
     add_table_error := add_table_error;
     main_model := main_model;
     decode_text := decode_text |}.

(** Two paths neither of which lies below the other. *)
Fixpoint apart (p q : path) : bool :=
  match p, q with
  | a :: p', b :: q' => if String.eqb a b then apart p' q' else true
  | _, _ => false
  end.

(** [is_prefix p q]: [q] is [p] or lies below it. *)
Fixpoint is_prefix (p q : path) : bool :=
  match p, q with
  | [], _ => true
  | a :: p', b :: q' => String.eqb a b && is_prefix p' q'
  | _ :: _, [] => false
  end.

(** The bytes of the regular file at [p], if there is one. *)
Definition file_at (p : path) (fs : node) : option string :=
  match lookup_node p fs with
  | Some (File data) => Some data
  | _ => None
  end.

(** What [os.stat] tells: nothing there, a directory, or a file with its
    bytes. *)
Definition stat (p : path) (fs : node) : option (option string) :=
  match lookup_node p fs with
  | None => None
  | Some (Dir _) => Some None
  | Some (File data) => Some (Some data)
  end.

Fixpoint names_distinct (l : list string) : bool :=
  match l with
  | [] => true
  | x :: l' => negb (List.existsb (String.eqb x) l') && names_distinct l'
  end.

(** No directory of the tree lists a name twice. *)
Fixpoint unique_names (n : node) : bool :=
  match n with
  | File _ => true
  | Dir es =>
      names_distinct (List.map fst es)
      && List.forallb (fun kv => unique_names (snd kv)) es
  end.

(** *** Equality of documents *)

(** The value of a number of a document: a rational, an infinity or, for
    the float NaN, nothing. *)
Inductive number : Type :=
| Rational (q : Q)
| Infinite (negative : bool)
| NotANumber.

(** A finite float is its signed mantissa times a power of two. *)
Definition value_of_float (f : float) : number :=
  match Prim2SF f with
  | S754_zero _ => Rational 0
  | S754_finite negative m e =>
      Rational (inject_Z (if negative then Z.neg m else Z.pos m) * 2 ^ e)
  | S754_infinity negative => Infinite negative
  | S754_nan => NotANumber
  end.

(** [bool] is an [int]: [True] is 1 and [False] is 0. *)
Definition value_of (j : json) : option number :=
  match j with
  | JBool b => Some (Rational (inject_Z (if b then 1 else 0)))
  | JInt z => Some (Rational (inject_Z z))
  | JFloat f => Some (value_of_float f)
  | _ => None
  end.

(** Two numbers are equal when they are the same rational or the same
    infinity; NaN equals nothing. *)
Definition same_value (x y : number) : Prop :=
  match x, y with
  | Rational p, Rational q => Qeq p q
  | Infinite s, Infinite t => s = t
  | _, _ => False
  end.

(** Two values that are one object: the NaN of the [json] module. *)
Definition same_object (a b : json) : Prop :=
  value_of a = Some NotANumber /\ value_of b = Some NotANumber.

(** Equality of two documents: [None] equals [None]; strings are equal when
    they are the same text; numbers, [bool] included, when they have the same
    value; lists when they have the same length and, position by position,
    items that are one object or equal; dicts when they have the same keys
    and, key by key, values that are one object or equal.  Nothing else is
    equal. *)
Inductive native_equal : json -> json -> Prop :=
| equal_none : native_equal JNull JNull
| equal_str (s : string) : native_equal (JString s) (JString s)
| equal_number (a b : json) (x y : number) :
    value_of a = Some x -> value_of b = Some y -> same_value x y ->
    native_equal a b
| equal_list (xs ys : list json) :
    List.Forall2 (fun x y => same_object x y \/ native_equal x y) xs ys ->
    native_equal (JList xs) (JList ys)
| equal_dict (xs ys : list (string * json)) :
    (forall k, dict_get k xs = None <-> dict_get k ys = None) ->
    (forall k v w, dict_get k xs = Some v -> dict_get k ys = Some w ->
       same_object v w \/ native_equal v w) ->
    native_equal (JDict xs) (JDict ys).

(** A document as [json.load] builds it: no dict holds a key twice. *)
Fixpoint unique_keys (j : json) : bool :=
  match j with
  | JList items => List.forallb unique_keys items
  | JDict items =>
      names_distinct (List.map fst items)
      && List.forallb (fun kv => unique_keys (snd kv)) items
  | _ => true
  end.

(** What the loop of [copy_outputs] keeps true of the file system [fs_c]
    it is building from [fs]: the destination is a directory; no path that
    leaves the destination has changed; below the destination there are
    only directories that the source has too, and only files that are
    copies of files of the source whose suffix is not [.html]. *)
Definition copied (src dst : path) (fs fs_c : node) : Prop :=
  is_dir dst fs_c = true
  /\ (forall p, apart dst p = true -> lookup_node p fs_c = lookup_node p fs)
  /\ (forall q, is_dir (dst ++ q) fs_c = true -> is_dir (src ++ q) fs = true)
  /\ (forall q data, file_at (dst ++ q) fs_c = Some data ->
        suffix (src ++ q) <> ".html" /\ file_at (src ++ q) fs = Some data).

(** A comparison asked for with the tolerances of the harness; the other
    events say nothing about tolerances. *)
Definition fixed_tolerances (ev : event) : Prop :=
  match ev with
  | EvFrameEqual atol rtol | EvAllclose _ atol rtol =>
      atol = ABSOLUTE_TOLERANCE /\ rtol = RELATIVE_TOLERANCE
  | _ => True
  end.

(** An ASCII letter. *)
Definition is_letter (c : ascii) : bool :=
  let n := nat_of_ascii c in
  (Nat.leb 65 n && Nat.leb n 90) || (Nat.leb 97 n && Nat.leb n 122).

(** A text with a letter in it. *)
Definition has_letter (s : string) : bool :=
  List.existsb is_letter (list_ascii_of_string s).

(** [s.split("\n")] *)
Fixpoint lines (s : string) : list string :=
  match s with
  | EmptyString => [EmptyString]
  | String c s' =>
      if Ascii.eqb c LF then EmptyString :: lines s'
      else match lines s' with
           | l :: ls => String c l :: ls
           | [] => [String c EmptyString]
           end
  end.

(** A text that does not end with a line feed. *)
Fixpoint ends_with_newline (s : string) : bool :=
  match s with
  | EmptyString => false
  | String c EmptyString => Ascii.eqb c LF
  | String _ s' => ends_with_newline s'
  end.

(** * Properties *)

(** ** Case numbering *)

Lemma fold_left_max_spec (l : list Z) (x : Z) :
  (x <= List.fold_left Z.max l x)%Z
  /\ (forall y, In y l -> (y <= List.fold_left Z.max l x)%Z).
Proof.
  revert x. induction l as [|a l IH]; intros x; simpl.
  - split; [lia | intros y []].
  - destruct (IH (Z.max x a)) as [Hx Hl]. split; [lia |].
    intros y [<- | Hy]; [lia | auto].
Qed.

Lemma fold_left_min_spec (l : list Z) (x : Z) :
  (List.fold_left Z.min l x <= x)%Z
  /\ (forall y, In y l -> (List.fold_left Z.min l x <= y)%Z)
  /\ (List.fold_left Z.min l x = x \/ In (List.fold_left Z.min l x) l).
Proof.
  revert x. induction l as [|a l IH]; intros x; simpl.
  - repeat split; [lia | intros y [] | now left].
  - destruct (IH (Z.min x a)) as (Hx & Hl & Hin). repeat split.
    + lia.
    + intros y [<- | Hy]; [lia | auto].
    + destruct Hin as [Heq | Hin]; [| now right; right].
      rewrite Heq. destruct (Z.min_spec x a) as [[_ ->] | [_ ->]]; auto.
Qed.

Lemma py_max_spec (l : list Z) (m : Z) :
  py_max l = Some m -> forall y, In y l -> (y <= m)%Z.
Proof.
  destruct l as [|x l]; [discriminate |]. simpl. intros [= <-] y Hy.
  destruct (fold_left_max_spec l x) as [Hx Hl].
  destruct Hy as [<- | Hy]; auto.
Qed.

Lemma py_min_spec (l : list Z) (m : Z) :
  py_min l = Some m -> In m l /\ forall y, In y l -> (m <= y)%Z.
Proof.
  destruct l as [|x l]; [discriminate |]. simpl. intros [= <-].
  destruct (fold_left_min_spec l x) as (Hx & Hl & Hin). split.
  - destruct Hin as [-> | Hin]; auto.
  - intros y [<- | Hy]; auto.
Qed.

Lemma py_min_nonempty (l : list Z) (x : Z) : In x l -> exists m, py_min l = Some m.
Proof. destruct l; [intros [] | intros _; simpl; eauto]. Qed.

Lemma In_py_range (lo hi x : Z) : In x (py_range lo hi) <-> (lo <= x < hi)%Z.
Proof.
  unfold py_range. rewrite in_map_iff. split.
  - intros (i & <- & Hi). apply in_seq in Hi. lia.
  - intros Hx. exists (Z.to_nat (x - lo)). split; [lia |]. apply in_seq. lia.
Qed.

Lemma py_in_spec (x : Z) (l : list Z) : py_in x l = true <-> In x l.
Proof.
  unfold py_in. rewrite existsb_exists. split.
  - intros (y & Hy & Heq). apply Z.eqb_eq in Heq. now subst.
  - intros Hx. exists x. split; [assumption | apply Z.eqb_refl].
Qed.

(** The number the harness picks is the least positive integer that no
    existing case uses, provided no case number is negative. *)
Lemma new_case_number_least (case_numbers : list Z) :
  (forall c, In c case_numbers -> (0 <= c)%Z) ->
  exists n, new_case_number_of case_numbers = inr n
            /\ (1 <= n)%Z
            /\ ~ In n case_numbers
            /\ (forall m, (1 <= m < n)%Z -> In m case_numbers).
Proof.
  intros Hpos. unfold new_case_number_of.
  set (mx := if Nat.ltb 0 (List.length case_numbers)
             then match py_max case_numbers with Some m => m | None => 0%Z end
             else 0%Z).
  assert (Hmx : (0 <= mx)%Z /\ forall c, In c case_numbers -> (c <= mx)%Z).
  { subst mx. destruct case_numbers as [|c cs]; simpl.
    - split; [lia | intros c []].
    - pose proof (py_max_spec (c :: cs) _ eq_refl) as Hm. simpl in Hm.
      split; [| exact Hm].
      specialize (Hm c (or_introl eq_refl)).
      specialize (Hpos c (or_introl eq_refl)). lia. }
  destruct Hmx as [Hmx0 Hmx].
  set (free := List.filter (fun c => negb (py_in c case_numbers))
                 (py_range 1 (mx + 2))).
  assert (Hfree : forall c, In c free <-> (1 <= c < mx + 2)%Z /\ ~ In c case_numbers).
  { intros c. subst free. rewrite filter_In, In_py_range, negb_true_iff.
    rewrite <- not_true_iff_false, py_in_spec. tauto. }
  assert (Htop : In (mx + 1)%Z free).
  { apply Hfree. split; [lia |]. intros Hin. specialize (Hmx _ Hin). lia. }
  destruct (py_min_nonempty _ _ Htop) as [n Hn]. rewrite Hn.
  destruct (py_min_spec _ _ Hn) as [Hnin Hnmin].
  apply Hfree in Hnin. destruct Hnin as [Hrange Hnot].
  exists n. repeat split; [lia | assumption |].
  intros m Hm. destruct (py_in m case_numbers) eqn:E.
  - now apply py_in_spec.
  - exfalso. assert (Hmfree : In m free).
    { apply Hfree. split; [lia |]. rewrite <- py_in_spec, E. discriminate. }
    specialize (Hnmin _ Hmfree). lia.
Qed.

Lemma is_digit_not_space (c : ascii) : is_digit c = true -> is_space c = false.
Proof.
  unfold is_digit, is_space. intros Hd.
  apply andb_true_iff in Hd as [H1 H2]. apply Nat.leb_le in H1, H2.
  apply orb_false_iff. split.
  - apply Nat.eqb_neq. lia.
  - apply andb_false_iff. right. apply Nat.leb_gt. lia.
Qed.

Lemma all_digits_cons (c : ascii) (s : string) :
  all_digits (String c s) = true <-> is_digit c = true /\ all_digits s = true.
Proof. unfold all_digits. simpl. apply andb_true_iff. Qed.

Lemma lstrip_digits (s : string) : all_digits s = true -> lstrip s = s.
Proof.
  destruct s as [|c s]; [reflexivity |]. intros Hs.
  apply all_digits_cons in Hs as [Hc _]. simpl.
  now rewrite (is_digit_not_space _ Hc).
Qed.

Lemma rstrip_digits (s : string) : all_digits s = true -> rstrip s = s.
Proof.
  induction s as [|c s IH]; [reflexivity |]. intros Hs.
  apply all_digits_cons in Hs as [Hc Hs]. simpl. rewrite (IH Hs).
  destruct s; [now rewrite (is_digit_not_space _ Hc) | reflexivity].
Qed.

Lemma digit_value_nonneg (c : ascii) : (0 <= digit_value c)%Z.
Proof. unfold digit_value. lia. Qed.

Lemma parse_digits_total (s : string) (acc : Z) (after_digit : bool) :
  all_digits s = true -> (0 <= acc)%Z -> s <> "" \/ after_digit = true ->
  exists v, parse_digits s acc after_digit = Some v /\ (0 <= v)%Z.
Proof.
  revert acc after_digit. induction s as [|c s IH]; intros acc b Hs Hacc Hne.
  - destruct Hne as [Hne | ->]; [congruence |]. simpl. eauto.
  - apply all_digits_cons in Hs as [Hc Hs]. simpl. rewrite Hc.
    apply IH; [assumption | | now right].
    pose proof (digit_value_nonneg c). lia.
Qed.

(** A digit is neither of the two signs [int] looks for. *)
Lemma digit_is_no_sign (c : ascii) :
  is_digit c = true -> Ascii.eqb c "-" = false /\ Ascii.eqb c "+" = false.
Proof.
  intros Hd. split; apply Ascii.eqb_neq; intros ->; discriminate Hd.
Qed.

(** On a run of digits [int] has nothing to strip and no sign to read. *)
Lemma py_int_all_digits (ds : string) :
  ds <> "" -> all_digits ds = true -> py_int ds = parse_digits ds 0%Z false.
Proof.
  intros Hne Hds. unfold py_int.
  rewrite (rstrip_digits _ Hds), (lstrip_digits _ Hds).
  destruct ds as [|c t]; [congruence |].
  apply all_digits_cons in Hds as [Hc _].
  now destruct (digit_is_no_sign c Hc) as [-> ->].
Qed.

(** [int] reads a run of digits as a non-negative number. *)
Lemma py_int_digits (ds : string) :
  ds <> "" -> all_digits ds = true -> exists v, py_int ds = Some v /\ (0 <= v)%Z.
Proof.
  intros Hne Hds. rewrite (py_int_all_digits ds Hne Hds).
  apply parse_digits_total; [assumption | lia | now left].
Qed.

Lemma substring_all (s : string) : String.substring 0 (String.length s) s = s.
Proof. induction s as [|c s IH]; simpl; [reflexivity | now rewrite IH]. Qed.

Lemma case_name_suffix (ds : string) :
  let name := ("Case" ++ ds)%string in
  String.substring 4 (String.length name - 4) name = ds.
Proof.
  simpl. rewrite Nat.sub_0_r. apply substring_all.
Qed.

Lemma case_numbers_of_numeric (cases : list path) :
  Forall numeric_suffix cases ->
  exists ns, case_numbers_of cases = inr ns /\ (forall c, In c ns -> (0 <= c)%Z).
Proof.
  induction 1 as [|c cases (ds & Hname & Hne & Hds) _ (ns & Hns & Hpos)]; simpl.
  - exists []. split; [reflexivity | intros c []].
  - rewrite Hname, case_name_suffix.
    destruct (py_int_digits ds Hne Hds) as (v & -> & Hv). rewrite Hns.
    exists (v :: ns). split; [reflexivity |].
    intros c' [<- | Hc']; auto.
Qed.

Example new_case_after_1_and_3 : new_case_number_of [1; 3]%Z = inr 2%Z.
Proof. reflexivity. Qed.

(** ** Reasoning about computations *)

Section Steps.
Context {D : Data} {E : External}.

Lemma bind_inv {A B} (m : M A) (k : A -> M B) (s s' : state) (r : result B) :
  bind m k s = (r, s') ->
  (exists a s1, m s = (Ok a, s1) /\ k a s1 = (r, s'))
  \/ (exists e, m s = (Raise e, s') /\ r = Raise e).
Proof.
  unfold bind. destruct (m s) as [[a | e] s1]; intros Hk.
  - left. eauto.
  - right. inversion Hk; subst. eauto.
Qed.

Lemma bind_ok {A B} (m : M A) (k : A -> M B) (s s1 : state) (a : A) :
  m s = (Ok a, s1) -> bind m k s = k a s1.
Proof. unfold bind. now intros ->. Qed.

Lemma bind_raise {A B} (m : M A) (k : A -> M B) (s s1 : state) (e : raised) :
  m s = (Raise e, s1) -> bind m k s = (Raise e, s1).
Proof. unfold bind. now intros ->. Qed.

Lemma preserves_ret {A} (R : state -> state -> Prop) `{!Reflexive R} (a : A) :
  preserves R (ret a).
Proof. intros s. simpl. reflexivity. Qed.

Lemma preserves_raise {A} (R : state -> state -> Prop) `{!Reflexive R} (e : exception) :
  preserves R (raise (A := A) e).
Proof. intros s. simpl. reflexivity. Qed.

Lemma preserves_lift {A} (R : state -> state -> Prop) `{!Reflexive R} (x : exception + A) :
  preserves R (lift x).
Proof. destruct x; [apply preserves_raise | apply preserves_ret]; assumption. Qed.

Lemma preserves_get_world (R : state -> state -> Prop) `{!Reflexive R} :
  preserves R get_world.
Proof. intros s. simpl. reflexivity. Qed.

Lemma preserves_bind {A B} (R : state -> state -> Prop) `{!Transitive R}
    (m : M A) (k : A -> M B) :
  preserves R m -> (forall a, preserves R (k a)) -> preserves R (bind m k).
Proof.
  intros Hm Hk s. unfold bind. specialize (Hm s).
  destruct (m s) as [[a | e] s1]; simpl in *; [| assumption].
  transitivity s1; [assumption | apply Hk].
Qed.

Lemma preserves_try_except {A} (R : state -> state -> Prop) `{!Transitive R}
    (body : M A) (handler : exception -> M A) :
  preserves R body -> (forall e, preserves R (handler e)) ->
  preserves R (try_except body handler).
Proof.
  intros Hb Hh s. unfold try_except. specialize (Hb s).
  destruct (body s) as [[a | [e | c]] s1]; simpl in *; try assumption.
  transitivity s1; [assumption | apply Hh].
Qed.

Lemma preserves_for_each {A} (R : state -> state -> Prop)
    `{!Reflexive R} `{!Transitive R} (l : list A) (body : A -> M unit) :
  (forall x, In x l -> preserves R (body x)) -> preserves R (for_each l body).
Proof.
  induction l as [|x l IH]; intros Hbody; simpl.
  - now apply preserves_ret.
  - apply preserves_bind; [assumption | apply Hbody; now left |].
    intros _. apply IH. intros y Hy. apply Hbody. now right.
Qed.

Lemma preserves_path_is_dir (R : state -> state -> Prop) `{!Reflexive R} (p : path) :
  preserves R (path_is_dir p).
Proof. intros s. simpl. reflexivity. Qed.

Lemma preserves_open_read (R : state -> state -> Prop) `{!Reflexive R} (p : path) :
  preserves R (open_read p).
Proof.
  intros s. unfold open_read, bind, get_world.
  destruct (read_bytes p (w_fs (st_world s))); simpl; reflexivity.
Qed.

(** The relations the proofs below carry through the harness. *)

Global Instance only_env_refl : Reflexive only_env.
Proof. intros s. repeat split; reflexivity. Qed.
Global Instance only_env_trans : Transitive only_env.
Proof. intros a b c (H1 & H2 & H3) (H4 & H5 & H6). repeat split; congruence. Qed.
Global Instance same_fs_db_refl : Reflexive same_fs_db.
Proof. intros s. split; reflexivity. Qed.
Global Instance same_fs_db_trans : Transitive same_fs_db.
Proof. intros a b c [H1 H2] [H3 H4]. split; congruence. Qed.

Lemma lift_inv {A} (x : exception + A) (s s' : state) (r : result A) :
  lift x s = (r, s') ->
  s' = s /\ r = match x with inl e => Raise (Exc e) | inr a => Ok a end.
Proof. destruct x; intros [= <- <-]; auto. Qed.

Lemma preserves_run {A} (R : state -> state -> Prop) (m : M A) (s s' : state)
    (r : result A) :
  preserves R m -> m s = (r, s') -> R s s'.
Proof. intros Hm Hrun. specialize (Hm s). now rewrite Hrun in Hm. Qed.

Lemma preserves_setenv (k v : string) : preserves only_env (setenv k v).
Proof. intros s. repeat split; reflexivity. Qed.

Lemma preserves_emit_fs_db (ev : event) : preserves same_fs_db (emit ev).
Proof. intros s. split; reflexivity. Qed.

Lemma no_exit_ret {A} (a : A) : no_exit (ret a).
Proof. intros s c. discriminate. Qed.

Lemma no_exit_raise {A} (e : exception) : no_exit (raise (A := A) e).
Proof. intros s c. discriminate. Qed.

Lemma no_exit_lift {A} (x : exception + A) : no_exit (lift x).
Proof. destruct x; [apply no_exit_raise | apply no_exit_ret]. Qed.

Lemma no_exit_get_world : no_exit get_world.
Proof. intros s c. discriminate. Qed.

Lemma no_exit_set_world (w : world) : no_exit (set_world w).
Proof. intros s c. discriminate. Qed.

Lemma no_exit_emit (ev : event) : no_exit (emit ev).
Proof. intros s c. discriminate. Qed.

Lemma no_exit_bind {A B} (m : M A) (k : A -> M B) :
  no_exit m -> (forall a, no_exit (k a)) -> no_exit (bind m k).
Proof.
  intros Hm Hk s c. unfold bind. specialize (Hm s c).
  destruct (m s) as [[a | e] s1]; simpl in *; [apply Hk |].
  intros [= ->]. now apply Hm.
Qed.

Lemma no_exit_try_except {A} (body : M A) (handler : exception -> M A) :
  no_exit body -> (forall e, no_exit (handler e)) -> no_exit (try_except body handler).
Proof.
  intros Hb Hh s c. unfold try_except. specialize (Hb s c).
  destruct (body s) as [[a | [e | c']] s1]; simpl in *; try assumption. apply Hh.
Qed.

Lemma no_exit_for_each {A} (l : list A) (body : A -> M unit) :
  (forall x, no_exit (body x)) -> no_exit (for_each l body).
Proof.
  intros Hbody. induction l as [|x l IH]; simpl.
  - apply no_exit_ret.
  - apply no_exit_bind; auto.
Qed.

Lemma no_exit_fs_update (f : node -> exception + node) : no_exit (fs_update f).
Proof.
  unfold fs_update. apply no_exit_bind; [apply no_exit_get_world |].
  intros w. destruct (f (w_fs w)); [apply no_exit_raise | apply no_exit_set_world].
Qed.

Lemma no_exit_run {A} (m : M A) (s s' : state) (r : raised) :
  no_exit m -> m s = (Raise r, s') -> exists e, r = Exc e.
Proof.
  intros Hm Hrun. destruct r as [e | c]; [eauto |].
  exfalso. apply (Hm s c). now rewrite Hrun.
Qed.

End Steps.

Create HintDb steps.
#[export] Hint Resolve preserves_ret preserves_raise preserves_lift preserves_get_world
  preserves_path_is_dir preserves_open_read preserves_setenv preserves_emit_fs_db : steps.
#[export] Hint Extern 2 (preserves _ (bind _ _)) =>
  apply preserves_bind; [typeclasses eauto | | intro] : steps.
#[export] Hint Resolve no_exit_ret no_exit_raise no_exit_lift no_exit_get_world
  no_exit_set_world no_exit_emit no_exit_fs_update : steps.
#[export] Hint Extern 2 (no_exit (bind _ _)) =>
  apply no_exit_bind; [| intro] : steps.
#[export] Hint Extern 2 (no_exit (for_each _ _)) =>
  apply no_exit_for_each; intro : steps.
#[export] Hint Extern 2 (no_exit (try_except _ _)) =>
  apply no_exit_try_except; [| intro] : steps.
#[export] Hint Extern 1 (Reflexive _) => typeclasses eauto : steps.
#[export] Hint Extern 1 (Transitive _) => typeclasses eauto : steps.

(** ** Printing the case description *)

Section DescriptionSteps.
Context {D : Data} {E : External}.

(** [print_case_description] leaves the state as it was.  It returns, unless
    the case has a description file whose bytes cannot be decoded. *)
Lemma print_case_description_run (decode : string -> exception + string)
    (case_dir : path) (s : state) :
  print_case_description decode case_dir s
  = (match read_bytes (joinpath case_dir ["case_description.txt"]) (w_fs (st_world s)) with
     | inr bytes =>
         match decode bytes with
         | inr content =>
             Ok ["Case description:";
                 ("> " ++ quote_newlines (rstrip_newlines content))%string]
         | inl e => Raise (Exc e)
         end
     | inl _ => Ok []
     end, s).
Proof.
  unfold print_case_description. unfold bind at 1, get_world at 1.
  unfold is_file, read_bytes.
  destruct (lookup_node _ _) as [[bytes | es] |] eqn:Hfile; [| reflexivity ..].
  unfold open_read, bind, get_world, read_bytes. cbn. rewrite Hfile. cbn.
  now destruct (decode bytes).
Qed.

(** One round of the loop is a run of the case, unless the description
    cannot be decoded: then the round ends there, with nothing changed. *)
Lemma test_case_run (run_type : string) (case_dir : path) (s : state) :
  test_case run_type case_dir s
  = match read_bytes (joinpath case_dir ["case_description.txt"]) (w_fs (st_world s)) with
    | inr bytes =>
        match decode_text bytes with
        | inr _ => run_case run_type case_dir s
        | inl e => (Raise (Exc e), s)
        end
    | inl _ => run_case run_type case_dir s
    end.
Proof.
  unfold test_case, bind at 1. rewrite print_case_description_run.
  destruct (read_bytes _ _) as [e | bytes]; [reflexivity |].
  now destruct (decode_text bytes).
Qed.

(** A case folder without a description file. *)
Lemma test_case_without_description (run_type : string) (case_dir : path) (s : state) :
  is_file (joinpath case_dir ["case_description.txt"]) (w_fs (st_world s)) = false ->
  test_case run_type case_dir s = run_case run_type case_dir s.
Proof.
  intros Hfile. rewrite test_case_run. unfold is_file, read_bytes in *.
  now destruct (lookup_node _ _) as [[bytes | es] |].
Qed.

End DescriptionSteps.

(** ** Mock-data staging *)

Section Staging.
Context {D : Data} {E : External}.

Lemma drop_tables_none (names : list string) (db : gmap (string * string) frame)
    (k : string * string) :
  db !! k = None -> drop_tables names db !! k = None.
Proof.
  revert db. induction names as [|t names IH]; intros db Hk; simpl; [assumption |].
  apply IH. destruct (decide ((DET_DB_SCHEMA, t) = k)) as [<- | Hne].
  - apply lookup_delete_eq.
  - rewrite lookup_delete_ne; assumption.
Qed.

Lemma drop_tables_dropped (names : list string) (db : gmap (string * string) frame)
    (t : string) :
  In t names -> drop_tables names db !! (DET_DB_SCHEMA, t) = None.
Proof.
  revert db. induction names as [|t' names IH]; intros db; [intros [] |].
  intros [-> | Hin]; simpl.
  - apply drop_tables_none, lookup_delete_eq.
  - now apply IH.
Qed.

Lemma set_db_set_db (w : world) (db db' : gmap (string * string) frame) :
  set_db (set_db w db) db' = set_db w db'.
Proof. reflexivity. Qed.

Lemma set_db_same (w : world) : set_db w (w_db w) = w.
Proof. now destruct w. Qed.

Lemma for_each_remove (names : list string) (s : state) :
  for_each names (fun t => db_remove_table t DET_DB_SCHEMA) s
  = (Ok tt, State (set_db (st_world s) (drop_tables names (w_db (st_world s))))
              (st_log s ++ List.map EvRemoveTable names)).
Proof.
  revert s. induction names as [|t names IH]; intros [w log]; simpl.
  - now rewrite set_db_same, app_nil_r.
  - unfold bind at 1. simpl. rewrite IH. simpl.
    now rewrite <- app_assoc.
Qed.

(** [remove_mock_data_from_db] always returns; it drops exactly the tables it
    is given, once each and in order, and touches nothing else. *)
Lemma remove_mock_data_from_db_spec (table_names : list string) (s : state) :
  remove_mock_data_from_db table_names s
  = (Ok tt, State (set_db (st_world s) (drop_tables table_names (w_db (st_world s))))
              (st_log s ++ List.map EvRemoveTable table_names)).
Proof.
  unfold remove_mock_data_from_db. destruct table_names as [|t names].
  - destruct s as [w log]. simpl. now rewrite set_db_same, app_nil_r.
  - change (Nat.ltb 0 (List.length (t :: names))) with true. cbv iota.
    apply for_each_remove.
Qed.

(** The [try] body: the tables it created are the names it appended, it
    stops at the first table the database refuses, and whatever it raises is
    an [Exception]. *)
Lemma add_tables_spec (mock_data : list (string * frame)) (acc : list string) (s : state)
    (r : option raised) (table_names : list string) (s' : state) :
  add_tables mock_data acc s = ((r, table_names), s') ->
  exists added rest,
    table_names = acc ++ added
    /\ List.map fst mock_data = added ++ rest
    /\ st_log s' = st_log s ++ List.map EvAddTable added
    /\ w_fs (st_world s') = w_fs (st_world s)
    /\ match r with
       | None => rest = []
       | Some (Exc e) => rest <> []
       | Some (SystemExit _) => False
       end.
Proof.
  revert acc s. induction mock_data as [|[t df] md IH]; intros acc s; simpl.
  - intros [= <- <- <-]. exists [], []. rewrite !app_nil_r. auto.
  - unfold db_add_table at 1, bind at 1, get_world at 1.
    destruct (add_table_error _ df t DET_DB_SCHEMA) as [e |] eqn:Herr.
    + simpl. intros [= <- <- <-]. exists [], (t :: List.map fst md).
      rewrite !app_nil_r. repeat split; trivial. discriminate.
    + simpl. intros Hrest.
      apply IH in Hrest as (added & rest & -> & Hmd & Hlog & Hfs & Hr).
      exists (t :: added), rest. rewrite <- app_assoc. simpl in *.
      rewrite Hlog, Hmd, <- app_assoc. repeat split; trivial.
Qed.

Lemma preserves_prepare_mock_data (database_dir : path) (timestamp_unix : Z)
    (database_json : list json) :
  preserves only_env (prepare_mock_data database_dir timestamp_unix database_json).
Proof.
  induction database_json as [|d rest IH]; simpl; auto 20 with steps.
Qed.

Lemma no_exit_prepare_mock_data (database_dir : path) (timestamp_unix : Z)
    (database_json : list json) :
  no_exit (prepare_mock_data database_dir timestamp_unix database_json).
Proof.
  induction database_json as [|d rest IH]; simpl;
    unfold open_read, setenv; auto 30 with steps.
Qed.

(** What [dump_mock_data_in_db] leaves behind.  When it returns, the tables
    it names are the ones it created.  When it raises, an [Exception] comes
    out, every table it had created has been dropped again, and none of them
    is in the database.  Either way the files are untouched. *)
Lemma dump_mock_data_in_db_spec (case_dir : path) (s s' : state)
    (r : result (list string)) :
  dump_mock_data_in_db case_dir s = (r, s') ->
  w_fs (st_world s') = w_fs (st_world s)
  /\ match r with
     | Ok table_names =>
         st_log s' = st_log s ++ List.map EvAddTable table_names
     | Raise r =>
         (exists e, r = Exc e)
         /\ exists added,
             st_log s' = st_log s ++ List.map EvAddTable added
                           ++ List.map EvRemoveTable added
             /\ forall t, In t added ->
                  w_db (st_world s') !! (DET_DB_SCHEMA, t) = None
     end.
Proof.
  assert (Hquiet : forall (s0 s1 : state) (e : raised),
             only_env s s0 -> only_env s0 s1 ->
             (exists e', e = Exc e') ->
             w_fs (st_world s1) = w_fs (st_world s)
             /\ (exists e', e = Exc e')
             /\ exists added,
                 st_log s1 = st_log s ++ List.map EvAddTable added
                               ++ List.map EvRemoveTable added
                 /\ forall t, In t added ->
                      w_db (st_world s1) !! (DET_DB_SCHEMA, t) = None).
  { intros s0 s1 e H0 H1 He.
    destruct (transitivity H0 H1) as (Hlog & _ & Hfs).
    repeat split; trivial. exists []. simpl. rewrite app_nil_r.
    split; [assumption | intros t []]. }
  unfold dump_mock_data_in_db. intros Hrun.
  apply bind_inv in Hrun as [(b & s1 & H1 & Hrun) | (e & H1 & ->)];
    [| discriminate H1].
  injection H1 as <- <-.
  destruct (is_dir _ _); simpl in Hrun;
    [| injection Hrun as <- <-; split; [reflexivity | now rewrite app_nil_r]].
  apply bind_inv in Hrun as [(bytes & s1 & H1 & Hrun) | (e & H1 & ->)].
  2: { pose proof (preserves_run only_env _ _ _ _ (preserves_open_read _ _) H1) as Hs.
       unfold open_read, bind, get_world, lift in H1.
       destruct (read_bytes _ _); [| discriminate H1].
       injection H1 as <- <-. apply (Hquiet s s); eauto; reflexivity. }
  assert (Hs1 : only_env s s1)
    by exact (preserves_run only_env _ _ _ _ (preserves_open_read _ _) H1).
  clear H1.
  apply bind_inv in Hrun as [(doc & s2 & H2 & Hrun) | (e & H2 & ->)].
  2: { apply lift_inv in H2 as [-> H2].
       destruct (json_load bytes); [| discriminate H2].
       injection H2 as ->. apply (Hquiet s1 s1); eauto; reflexivity. }
  apply lift_inv in H2 as [-> _].
  apply bind_inv in Hrun as [(w & s2 & H2 & Hrun) | (e & H2 & ->)];
    [| discriminate H2].
  injection H2 as <- <-.
  apply bind_inv in Hrun as [(items & s2 & H2 & Hrun) | (e & H2 & ->)].
  2: { apply lift_inv in H2 as [-> H2].
       destruct (py_iter doc); [| discriminate H2].
       injection H2 as ->. apply (Hquiet s1 s1); eauto; reflexivity. }
  apply lift_inv in H2 as [-> _].
  apply bind_inv in Hrun as [(mock_data & s2 & H2 & Hrun) | (e & H2 & ->)].
  2: { pose proof (preserves_run only_env _ _ _ _
                     (preserves_prepare_mock_data _ _ _) H2) as Hs2.
       apply (Hquiet s1 s'); trivial.
       exact (no_exit_run _ _ _ _ (no_exit_prepare_mock_data _ _ _) H2). }
  pose proof (preserves_run only_env _ _ _ _
                (preserves_prepare_mock_data _ _ _) H2) as Hs2.
  clear H2. destruct (transitivity Hs1 Hs2) as (Hlog & Hdb & Hfs).
  destruct (add_tables mock_data [] s2) as [[r0 table_names] s3] eqn:Hadd.
  apply add_tables_spec in Hadd as (added & rest & -> & Hmd & Hlog3 & Hfs3 & Hr0).
  simpl in *. destruct r0 as [[e | c] |]; [| contradiction |].
  - rewrite (bind_ok _ _ _ _ _ (remove_mock_data_from_db_spec added s3)) in Hrun.
    injection Hrun as <- <-. simpl. split; [congruence |].
    split; [eauto |]. exists added. split.
    + rewrite Hlog3, Hlog, <- app_assoc. reflexivity.
    + intros t Ht. now apply drop_tables_dropped.
  - injection Hrun as <- <-. split; [congruence |]. congruence.
Qed.

(** C1.  Staging is all or nothing: whenever [dump_mock_data_in_db] raises,
    for whatever manifest and whichever table the database refuses, every
    table created earlier in the batch has been dropped again (the drops
    follow the creations in the log) and none of them is left in the
    database when the error comes out. *)
Theorem staging_is_atomic (case_dir : path) (s s' : state) (r : raised) :
  dump_mock_data_in_db case_dir s = (Raise r, s') ->
  exists added,
    st_log s' = st_log s ++ List.map EvAddTable added ++ List.map EvRemoveTable added
    /\ forall t, In t added -> w_db (st_world s') !! (DET_DB_SCHEMA, t) = None.
Proof.
  intros Hrun. apply dump_mock_data_in_db_spec in Hrun as (_ & _ & Hadded).
  exact Hadded.
Qed.

End Staging.

(** The second of three insertions fails: the first table is created, then
    dropped, and the database is empty again. *)
Lemma staging_is_atomic_witness :
  dump_mock_data_in_db (E := Demo.repo) Demo.case01_dir
    (Demo.initial (Demo.case01 src_main.df_csv "manifest"))
  = (Raise (Exc (LibraryError "add_table")), Demo.after_failed_staging)
  /\ exists added,
      st_log Demo.after_failed_staging
      = [] ++ List.map EvAddTable added ++ List.map EvRemoveTable added
      /\ forall t, In t added ->
           w_db (st_world Demo.after_failed_staging) !! (DET_DB_SCHEMA, t) = None.
Proof.
  assert (Hrun : dump_mock_data_in_db (E := Demo.repo) Demo.case01_dir
                   (Demo.initial (Demo.case01 src_main.df_csv "manifest"))
                 = (Raise (Exc (LibraryError "add_table")), Demo.after_failed_staging))
    by (vm_compute; reflexivity).
  split; [exact Hrun |].
  exact (staging_is_atomic (E := Demo.repo) _ _ _ _ Hrun).
Defined.

Example failed_staging_leaves_no_table :
  st_log Demo.after_failed_staging
  = [EvAddTable "prices_1700000000000"; EvRemoveTable "prices_1700000000000"]
  /\ w_db (st_world Demo.after_failed_staging) = ∅.
Proof. split; vm_compute; reflexivity. Qed.

(** ** File-system facts *)

(** Induction on a tree, with the hypothesis for every entry of a directory. *)
Fixpoint node_ind' (P : node -> Prop)
    (HFile : forall data, P (File data))
    (HDir : forall es, Forall (fun kv => P (snd kv)) es -> P (Dir es))
    (n : node) : P n :=
  match n with
  | File data => HFile data
  | Dir es =>
      HDir es
        ((fix entries (es : list (string * node)) : Forall (fun kv => P (snd kv)) es :=
            match es with
            | [] => List.Forall_nil _
            | kv :: es' =>
                @List.Forall_cons _ _ kv es' (node_ind' P HFile HDir (snd kv)) (entries es')
            end) es)
  end.

Lemma entry_get_del (name : string) (es : list (string * node)) :
  entry_get name (entry_del name es) = None.
Proof.
  induction es as [|[k v] es IH]; simpl; [reflexivity |].
  destruct (String.eqb k name) eqn:Hk; simpl; [assumption |].
  now rewrite Hk.
Qed.

Lemma entry_get_set (name : string) (v : node) (es : list (string * node)) :
  entry_get name (entry_set name v es) = Some v.
Proof.
  induction es as [|[k v0] es IH]; simpl.
  - now rewrite String.eqb_refl.
  - destruct (String.eqb k name) eqn:Hk; simpl; now rewrite Hk.
Qed.

Lemma lookup_node_app (p q : path) (fs : node) :
  lookup_node (p ++ q) fs
  = match lookup_node p fs with
    | Some n => lookup_node q n
    | None => None
    end.
Proof.
  revert fs. induction p as [|name p IH]; intros fs; simpl; [reflexivity |].
  destruct fs as [data | es]; [reflexivity |].
  destruct (entry_get name es); [apply IH | reflexivity].
Qed.

(** Unlinking [p] leaves nothing at [p]. *)
Lemma lookup_put_none (p : path) (fs : node) :
  p <> [] -> lookup_node p (put_node p None fs) = None.
Proof.
  revert fs. induction p as [|name rest IH]; intros fs Hp; [congruence |].
  destruct fs as [data | es]; [reflexivity |]. simpl.
  destruct rest as [|r rest].
  - simpl. now rewrite entry_get_del.
  - destruct (entry_get name es) as [c |] eqn:Hc.
    + cbn [lookup_node]. rewrite entry_get_set. now apply IH.
    + cbn [lookup_node]. now rewrite Hc.
Qed.

Lemma rmtree_fs_gone (p : path) (fs fs' : node) :
  p <> [] -> rmtree_fs p fs = inr fs' ->
  fs' = put_node p None fs /\ lookup_node p fs' = None.
Proof.
  unfold rmtree_fs. intros Hp.
  destruct (lookup_node p fs) as [[data | es] |]; try discriminate.
  intros [= <-]. split; [reflexivity | now apply lookup_put_none].
Qed.

Lemma relative_to_app (base q : path) : relative_to (base ++ q) base = Some q.
Proof.
  induction base as [|b base IH]; simpl; [reflexivity |].
  now rewrite String.eqb_refl.
Qed.

(** Every directory [os.walk] reports lies below the top. *)
Lemma walk_node_root (n : node) (top root : path) (ds fs : list string) :
  In (root, ds, fs) (walk_node top n) -> exists rel, root = top ++ rel.
Proof.
  revert top. induction n as [data | es IH] using node_ind'; intros top; simpl.
  - intros [].
  - intros [[= <- _ _] | Hin].
    + exists []. now rewrite app_nil_r.
    + apply in_flat_map in Hin as ([k c] & Hkv & Hin). simpl in Hin.
      rewrite List.Forall_forall in IH. specialize (IH _ Hkv). simpl in IH.
      destruct c as [data | es']; [destruct Hin |].
      destruct (IH _ Hin) as [rel ->]. exists (k :: rel).
      now rewrite <- app_assoc.
Qed.

Lemma walk_root (fs : node) (top root : path) (ds fls : list string) :
  In (root, ds, fls) (walk top fs) -> exists rel, root = top ++ rel.
Proof.
  unfold walk. destruct (lookup_node top fs); [apply walk_node_root | intros []].
Qed.

(** ** Comparing outputs *)

Section Comparison.
Context {D : Data} {E : External}.

Lemma state_log_nil (s : state) : State (st_world s) (st_log s ++ []) = s.
Proof. destruct s. simpl. now rewrite app_nil_r. Qed.

Lemma observes_ret {A} (ps : list path) (a : A) : observes ps (ret a).
Proof. intros s1 s2 _. exists (Ok a), []. now rewrite !state_log_nil. Qed.

Lemma observes_raise {A} (ps : list path) (e : exception) :
  observes ps (raise (A := A) e).
Proof. intros s1 s2 _. exists (Raise (Exc e)), []. now rewrite !state_log_nil. Qed.

Lemma observes_lift {A} (ps : list path) (x : exception + A) : observes ps (lift x).
Proof. destruct x; [apply observes_raise | apply observes_ret]. Qed.

Lemma observes_emit (ps : list path) (ev : event) : observes ps (emit ev).
Proof. intros s1 s2 _. exists (Ok tt), [ev]. split; reflexivity. Qed.

Lemma observes_open_read (ps : list path) (p : path) :
  In p ps -> observes ps (open_read p).
Proof.
  intros Hp s1 s2 Hagree. specialize (Hagree p Hp).
  unfold open_read, bind, get_world. simpl. rewrite <- Hagree.
  destruct (read_bytes p (w_fs (st_world s1))) as [e | data]; simpl.
  - exists (Raise (Exc e)), []. now rewrite !state_log_nil.
  - exists (Ok data), []. now rewrite !state_log_nil.
Qed.

Lemma observes_bind {A B} (ps : list path) (m : M A) (k : A -> M B) :
  observes ps m -> (forall a, observes ps (k a)) -> observes ps (bind m k).
Proof.
  intros Hm Hk s1 s2 Hagree.
  destruct (Hm s1 s2 Hagree) as (r & L & H1 & H2).
  unfold bind. rewrite H1, H2. destruct r as [a | e].
  - destruct (Hk a (State (st_world s1) (st_log s1 ++ L))
                (State (st_world s2) (st_log s2 ++ L)) Hagree)
      as (r' & L' & H1' & H2').
    rewrite H1', H2'. simpl. exists r', (L ++ L'). now rewrite !app_assoc.
  - exists (Raise e), L. auto.
Qed.

Lemma observes_for_each {A} (ps : list path) (l : list A) (body : A -> M unit) :
  (forall x, observes ps (body x)) -> observes ps (for_each l body).
Proof.
  intros Hbody. induction l as [|x l IH]; simpl.
  - apply observes_ret.
  - apply observes_bind; auto.
Qed.

(** What [observes] says about a single state. *)
Lemma observes_run {A} (ps : list path) (m : M A) (s : state) :
  observes ps m -> exists r L, m s = (r, State (st_world s) (st_log s ++ L)).
Proof.
  intros Hm. destruct (Hm s s) as (r & L & H1 & _); [intros p _; reflexivity |].
  eauto.
Qed.

End Comparison.

(** Walk through the binds of a computation that only observes. *)
Ltac observe :=
  repeat first
    [ apply observes_ret | apply observes_raise | apply observes_lift
    | apply observes_emit
    | (apply observes_open_read; simpl; tauto)
    | (apply observes_bind; [| intro])
    | (apply observes_for_each; intro) ].

(** Walk through the binds of a computation that cannot exit. *)
Ltac cannot_exit :=
  repeat first
    [ apply no_exit_ret | apply no_exit_raise | apply no_exit_lift
    | apply no_exit_get_world | apply no_exit_set_world | apply no_exit_emit
    | apply no_exit_fs_update
    | (apply no_exit_bind; [| intro])
    | (apply no_exit_for_each; intro)
    | (apply no_exit_try_except; [| intro]) ].

Section Assertions.
Context {D : Data} {E : External}.

Lemma observes_assert_csv (out exp : path) : observes [out; exp] (assert_csv out exp).
Proof.
  unfold assert_csv. observe.
  destruct (assert_frame_equal _ _ _ _); observe.
Qed.

Lemma observes_assert_json (out exp : path) : observes [out; exp] (assert_json out exp).
Proof.
  unfold assert_json. observe. destruct (py_eq _ _); observe.
Qed.

Lemma observes_assert_npz (out exp : path) : observes [out; exp] (assert_npz out exp).
Proof.
  unfold assert_npz, assert_member, npz_getitem. observe.
  destruct (bool_decide _); observe.
  - destruct (npz_get _ _); observe.
  - destruct (npz_get _ _); observe.
  - destruct (assert_allclose _ _ _ _); observe.
Qed.

(** [assert_file] sees of the world only the bytes of the two files it is
    given, and changes nothing but the log. *)
Lemma observes_assert_file (out exp : path) : observes [out; exp] (assert_file out exp).
Proof.
  unfold assert_file.
  destruct (String.eqb _ ".csv"); [apply observes_assert_csv |].
  destruct (String.eqb _ ".json"); [apply observes_assert_json |].
  destruct (String.eqb _ ".npz"); [apply observes_assert_npz |].
  destruct (String.eqb _ ".html"); observe.
Qed.

Lemma no_exit_assert_file (out exp : path) : no_exit (assert_file out exp).
Proof.
  unfold assert_file, assert_csv, assert_json, assert_npz, assert_member, npz_getitem,
    open_read.
  repeat first
    [ progress cannot_exit
    | match goal with
      | |- no_exit (if ?b then _ else _) => destruct b
      | |- no_exit (match ?x with _ => _ end) => destruct x
      end ].
Qed.

End Assertions.

Section CompareOutputs.
Context {D : Data} {E : External}.

Lemma for_each_ok_inv {A} (P : state -> Prop) (l : list A) (body : A -> M unit)
    (s s' : state) :
  P s ->
  (forall x s0 s1, In x l -> P s0 -> body x s0 = (Ok tt, s1) -> P s1) ->
  for_each l body s = (Ok tt, s') -> P s'.
Proof.
  revert s. induction l as [|x l IH]; intros s Hs Hstep; simpl.
  - now intros [= <-].
  - intros Hrun. apply bind_inv in Hrun as [([] & s1 & H1 & Hrun) | (e & _ & [=])].
    apply (IH s1); [eapply Hstep; eauto; now left | | assumption].
    intros y s0 s2 Hy. apply Hstep. now right.
Qed.

Lemma for_each_raise_inv {A} (P : state -> Prop) (l : list A) (body : A -> M unit)
    (s s' : state) (r : raised) :
  P s ->
  (forall x s0 s1, In x l -> P s0 -> body x s0 = (Ok tt, s1) -> P s1) ->
  for_each l body s = (Raise r, s') ->
  exists x s0, In x l /\ P s0 /\ body x s0 = (Raise r, s').
Proof.
  revert s. induction l as [|x l IH]; intros s Hs Hstep; simpl.
  - discriminate.
  - intros Hrun. apply bind_inv in Hrun as [([] & s1 & H1 & Hrun) | (e & H1 & [= ->])].
    + destruct (IH s1) as (y & s0 & Hy & Hs0 & Hbody); trivial.
      * eapply Hstep; eauto. now left.
      * intros y s0 s2 Hy. apply Hstep. now right.
      * exists y, s0. split; [now right | auto].
    + exists x, s. split; [now left | auto].
Qed.

(** The [except] clause of [compare_outputs]. *)
Lemma rmtree_then_raise (out : path) (e : exception) (s : state) :
  (rmtree out ;;; raise e) s
  = (match rmtree_fs out (w_fs (st_world s)) with
     | inl e' => (Raise (Exc e'), s)
     | inr fs' => (Raise (Exc e), State (set_fs (st_world s) fs') (st_log s))
     end : result unit * state).
Proof.
  unfold rmtree, fs_update, bind, get_world. simpl.
  destruct (rmtree_fs out (w_fs (st_world s))); reflexivity.
Qed.

(** One expected file, in two states that agree on the file and on its
    counterpart: the line is printed, [assert_file] ends the same way in
    both, and an [Exception] it raises goes through the [except] clause. *)
Lemma assert_output_sim (exp out rel0 : path) (f : string) (a b : state) :
  reads_agree [out ++ rel0 ++ [f]; exp ++ rel0 ++ [f]] a b ->
  exists r L,
    let rel := rel0 ++ [f] in
    let after (s : state) := State (st_world s) (st_log s ++ EvAssertFile rel :: L) in
    let outcome (s : state) :=
      match r with
      | Ok _ => (Ok tt, after s)
      | Raise (Exc e) => (rmtree out ;;; raise e) (after s)
      | Raise (SystemExit c) => (Raise (SystemExit c), after s)
      end in
    assert_file (out ++ rel) (exp ++ rel)
      (State (st_world a) (st_log a ++ [EvAssertFile rel])) = (r, after a)
    /\ assert_output exp out (exp ++ rel0) f a = outcome a
    /\ assert_output exp out (exp ++ rel0) f b = outcome b.
Proof.
  intros Hagree. unfold assert_output, joinpath.
  rewrite <- app_assoc, relative_to_app.
  destruct (observes_assert_file (out ++ rel0 ++ [f]) (exp ++ rel0 ++ [f])
              (State (st_world a) (st_log a ++ [EvAssertFile (rel0 ++ [f])]))
              (State (st_world b) (st_log b ++ [EvAssertFile (rel0 ++ [f])])) Hagree)
    as (r & L & Ha & Hb).
  simpl in Ha, Hb. rewrite <- app_assoc in Ha, Hb. simpl in Ha, Hb.
  exists r, L. simpl. split; [exact Ha |].
  split.
  - unfold bind at 1, emit at 1, try_except. rewrite Ha.
    destruct r as [[] | [e | c]]; reflexivity.
  - unfold bind at 1, emit at 1, try_except. rewrite Hb.
    destruct r as [[] | [e | c]]; reflexivity.
Qed.

Lemma assert_output_run (exp out rel0 : path) (f : string) (s : state) :
  exists r L,
    let rel := rel0 ++ [f] in
    let s1 := State (st_world s) (st_log s ++ [EvAssertFile rel]) in
    let s2 := State (st_world s) (st_log s ++ EvAssertFile rel :: L) in
    assert_file (out ++ rel) (exp ++ rel) s1 = (r, s2)
    /\ assert_output exp out (exp ++ rel0) f s
       = match r with
         | Ok _ => (Ok tt, s2)
         | Raise (Exc e) => (rmtree out ;;; raise e) s2
         | Raise (SystemExit c) => (Raise (SystemExit c), s2)
         end.
Proof.
  destruct (assert_output_sim exp out rel0 f s s) as (r & L & Hfile & Hout & _);
    [intros p _; reflexivity |].
  exists r, L. split; assumption.
Qed.

Lemma assert_output_ok (exp out rel0 : path) (f : string) (s s' : state) :
  assert_output exp out (exp ++ rel0) f s = (Ok tt, s') -> st_world s' = st_world s.
Proof.
  destruct (assert_output_run exp out rel0 f s) as (r & L & _ & ->).
  destruct r as [[] | [e | c]].
  - now intros [= <-].
  - rewrite rmtree_then_raise. destruct (rmtree_fs _ _); discriminate.
  - discriminate.
Qed.

(** A failed comparison, taken apart: some expected file [rel] was being
    asserted, in the world the comparison started in; [assert_file] raised an
    [Exception] [e]; and what came out is what [rmtree] of the outputs folder
    followed by [raise e] gives. *)
Lemma compare_outputs_raise_inv (exp out : path) (s s' : state) (r : raised) :
  compare_outputs exp out s = (Raise r, s') ->
  exists rel e s1 s2,
    st_world s1 = st_world s /\ st_world s2 = st_world s
    /\ assert_file (out ++ rel) (exp ++ rel) s1 = (Raise (Exc e), s2)
    /\ (rmtree out ;;; raise (A := unit) e) s2 = (Raise r, s').
Proof.
  unfold compare_outputs. unfold bind at 1, get_world at 1. intros Hrun.
  apply (for_each_raise_inv (fun s0 => st_world s0 = st_world s)) in Hrun
    as ([[root ds] fls] & s0 & Hin & Hs0 & Hrun); [| reflexivity |].
  - apply walk_root in Hin as [rel0 ->].
    apply (for_each_raise_inv (fun s1 => st_world s1 = st_world s)) in Hrun
      as (f & s1 & _ & Hs1 & Hrun); [| assumption |].
    + destruct (assert_output_run exp out rel0 f s1) as (r0 & L & Hfile & Hout).
      rewrite Hout in Hrun. clear Hout.
      destruct r0 as [[] | [e | c]]; [discriminate | |].
      * exists (rel0 ++ [f]), e. eexists. eexists.
        split; [| split; [| split; [exact Hfile | exact Hrun]]]; simpl; assumption.
      * exfalso. eapply no_exit_assert_file. rewrite Hfile. reflexivity.
    + intros f s1 s2 _ Hs1 Hok. apply assert_output_ok in Hok. congruence.
  - intros [[root ds] fls] s0 s1 Hin Hs0 Hok.
    apply walk_root in Hin as [rel0 ->].
    apply (for_each_ok_inv (fun s1 => st_world s1 = st_world s)) in Hok; trivial.
    intros f s2 s3 _ Hs2 Hok'. apply assert_output_ok in Hok'. congruence.
Qed.

(** After a failed comparison there is no outputs directory, whatever was
    there before. *)
Lemma failed_comparison_leaves_no_outputs_dir (case_dir exp : path) (s s' : state)
    (r : raised) :
  compare_outputs exp (joinpath case_dir [OUTPUTS_FOLDER_NAME]) s = (Raise r, s') ->
  is_dir (joinpath case_dir [OUTPUTS_FOLDER_NAME]) (w_fs (st_world s')) = false.
Proof.
  intros Hrun.
  apply compare_outputs_raise_inv in Hrun as (rel & e & s1 & s2 & _ & Hs2 & _ & Hrun).
  rewrite rmtree_then_raise, Hs2 in Hrun. unfold is_dir.
  destruct (rmtree_fs _ _) as [e' | fs'] eqn:Hrm.
  - injection Hrun as _ <-. rewrite Hs2. unfold rmtree_fs in Hrm.
    destruct (lookup_node _ _) as [[data | es] |]; trivial. discriminate.
  - injection Hrun as _ <-. simpl.
    apply rmtree_fs_gone in Hrm as [_ ->]; [reflexivity |].
    unfold joinpath. now destruct case_dir.
Qed.

(** Where the case has an outputs directory, the [except] clause works as its
    comment says: when the check of an expected file against its counterpart
    raises, the harness deletes that directory and then raises the very error
    the check raised; afterwards nothing is left at the outputs path, and
    nothing else in the file system has changed. *)
Lemma failed_comparison_deletes_outputs (case_dir exp : path) (s s' : state)
    (r : raised) :
  is_dir (joinpath case_dir [OUTPUTS_FOLDER_NAME]) (w_fs (st_world s)) = true ->
  compare_outputs exp (joinpath case_dir [OUTPUTS_FOLDER_NAME]) s = (Raise r, s') ->
  (exists rel s1 s2,
      st_world s1 = st_world s
      /\ assert_file (joinpath case_dir [OUTPUTS_FOLDER_NAME] ++ rel) (exp ++ rel) s1
         = (Raise r, s2))
  /\ w_fs (st_world s')
     = put_node (joinpath case_dir [OUTPUTS_FOLDER_NAME]) None (w_fs (st_world s))
  /\ lookup_node (joinpath case_dir [OUTPUTS_FOLDER_NAME]) (w_fs (st_world s')) = None.
Proof.
  intros Hdir Hrun.
  apply compare_outputs_raise_inv in Hrun as (rel & e & s1 & s2 & Hs1 & Hs2 & Hfile & Hrun).
  rewrite rmtree_then_raise, Hs2 in Hrun.
  destruct (rmtree_fs _ _) as [e' | fs'] eqn:Hrm.
  - exfalso. unfold rmtree_fs, is_dir in *.
    destruct (lookup_node _ _) as [[data | es] |]; discriminate.
  - injection Hrun as <- <-. simpl.
    apply rmtree_fs_gone in Hrm as [-> Hgone];
      [| unfold joinpath; now destruct case_dir].
    split; [| split; trivial]. exists rel, s1, s2. auto.
Qed.

(** Where there is nothing at the outputs path, the error of the check is
    lost: [shutil.rmtree] is called without asking [is_dir] first, and its
    [FileNotFoundError] is what comes out of the comparison. *)
Lemma failed_comparison_without_outputs (exp out : path) (s s' : state) (r : raised) :
  lookup_node out (w_fs (st_world s)) = None ->
  compare_outputs exp out s = (Raise r, s') ->
  r = Exc (FileNotFoundError out) /\ st_world s' = st_world s.
Proof.
  intros Hnone Hrun.
  apply compare_outputs_raise_inv in Hrun as (rel & e & s1 & s2 & Hs1 & Hs2 & Hfile & Hrun).
  rewrite rmtree_then_raise, Hs2 in Hrun. unfold rmtree_fs in Hrun.
  rewrite Hnone in Hrun. injection Hrun as <- <-. auto.
Qed.

Lemma compare_outputs_unfold (exp out : path) (s : state) :
  compare_outputs exp out s
  = for_each (walk exp (w_fs (st_world s)))
      (fun '(root, _, filenames) => for_each filenames (assert_output exp out root)) s.
Proof. reflexivity. Qed.

Lemma read_bytes_lookup (p : path) (fs fs' : node) :
  lookup_node p fs = lookup_node p fs' -> read_bytes p fs = read_bytes p fs'.
Proof. unfold read_bytes. now intros ->. Qed.

Lemma in_expected_files (exp rel0 : path) (ds fls : list string) (f : string) (fs : node) :
  In (exp ++ rel0, ds, fls) (walk exp fs) -> In f fls ->
  In (rel0 ++ [f]) (expected_files exp fs).
Proof.
  intros Hwalk Hf. unfold expected_files. apply in_flat_map.
  exists (exp ++ rel0, ds, fls). split; [assumption |].
  rewrite relative_to_app. apply in_map_iff. eauto.
Qed.

Section TwoRuns.
Variables (exp out : path) (s1 s2 : state).
Hypothesis Hexp :
  lookup_node exp (w_fs (st_world s1)) = lookup_node exp (w_fs (st_world s2)).
Hypothesis Hcounterparts :
  forall rel, In rel (expected_files exp (w_fs (st_world s1))) ->
    lookup_node (out ++ rel) (w_fs (st_world s1))
    = lookup_node (out ++ rel) (w_fs (st_world s2)).
Hypothesis Hout1 : is_dir out (w_fs (st_world s1)) = true.
Hypothesis Hout2 : is_dir out (w_fs (st_world s2)) = true.

Local Abbreviation in_step := (in_step s1 s2).
Local Abbreviation same_outcome := (same_outcome s1 s2).

Lemma same_outcome_for_each {A} (l : list A) (body : A -> M unit) :
  (forall x a b, In x l -> in_step a b -> same_outcome (body x a) (body x b)) ->
  forall a b, in_step a b -> same_outcome (for_each l body a) (for_each l body b).
Proof.
  induction l as [|x l IH]; intros Hbody a b Hab; simpl.
  - split; [reflexivity |]. split; [| intros _; exact Hab].
    destruct Hab as (_ & _ & HL). exact HL.
  - destruct (Hbody x a b (or_introl eq_refl) Hab) as (Hfst & Hlog & Hok).
    unfold bind. destruct (body x a) as [[[] | ra] a'], (body x b) as [[[] | rb] b'];
      simpl in *; try discriminate.
    + apply IH; [| now apply Hok]. intros y a0 b0 Hy. apply Hbody. now right.
    + injection Hfst as ->. split; [reflexivity |]. split; [exact Hlog | discriminate].
Qed.

Lemma same_outcome_assert_output (rel0 : path) (ds fls : list string) (f : string)
    (a b : state) :
  In (exp ++ rel0, ds, fls) (walk exp (w_fs (st_world s1))) -> In f fls ->
  in_step a b ->
  same_outcome (assert_output exp out (exp ++ rel0) f a)
               (assert_output exp out (exp ++ rel0) f b).
Proof.
  intros Hwalk Hf (Ha & Hb & L0 & HLa & HLb).
  destruct (assert_output_sim exp out rel0 f a b) as (r & L & _ & -> & ->).
  { intros p [<- | [<- | []]]; rewrite Ha, Hb; apply read_bytes_lookup.
    - apply Hcounterparts. eapply in_expected_files; eassumption.
    - rewrite !lookup_node_app, Hexp. reflexivity. }
  assert (Hlogs : exists L',
             st_log a ++ EvAssertFile (rel0 ++ [f]) :: L = st_log s1 ++ L'
             /\ st_log b ++ EvAssertFile (rel0 ++ [f]) :: L = st_log s2 ++ L').
  { exists (L0 ++ EvAssertFile (rel0 ++ [f]) :: L).
    rewrite HLa, HLb, <- !app_assoc. auto. }
  destruct r as [[] | [e | c]].
  - split; [reflexivity |]. split; [exact Hlogs |]. intros _.
    split; [exact Ha |]. split; [exact Hb | exact Hlogs].
  - rewrite !rmtree_then_raise. simpl. rewrite Ha, Hb.
    unfold rmtree_fs, is_dir in *.
    destruct (lookup_node out (w_fs (st_world s1))) as [[d1 | es1] |]; try discriminate.
    destruct (lookup_node out (w_fs (st_world s2))) as [[d2 | es2] |]; try discriminate.
    split; [reflexivity |]. split; [exact Hlogs | discriminate].
  - split; [reflexivity |]. split; [exact Hlogs | discriminate].
Qed.

Lemma same_outcome_compare_outputs :
  same_outcome (compare_outputs exp out s1) (compare_outputs exp out s2).
Proof.
  rewrite !compare_outputs_unfold.
  assert (Hwalk : walk exp (w_fs (st_world s2)) = walk exp (w_fs (st_world s1)))
    by (unfold walk; now rewrite Hexp).
  rewrite Hwalk. apply same_outcome_for_each.
  - intros [[root ds] fls] a b Hin Hab.
    destruct (walk_root _ _ _ _ _ Hin) as [rel0 ->].
    apply same_outcome_for_each; [| assumption].
    intros f a0 b0 Hf. now apply (same_outcome_assert_output rel0 ds fls).
  - split; [reflexivity |]. split; [reflexivity |].
    exists []. now rewrite !app_nil_r.
Qed.

End TwoRuns.

(** C10.  Compare mode looks at the expected tree only.  Take two runs whose
    expected trees are the same and whose outputs folders hold the same thing
    at the counterpart of every expected file; whatever else the outputs
    folders contain, the comparison ends the same way in both (it passes, or
    it raises the same error) and prints the same lines.  So files the model
    wrote beside the expected ones are never examined, and a run with extra
    files still passes. *)
Theorem extra_outputs_are_not_examined (exp out : path) (s1 s2 : state) :
  lookup_node exp (w_fs (st_world s1)) = lookup_node exp (w_fs (st_world s2)) ->
  (forall rel, In rel (expected_files exp (w_fs (st_world s1))) ->
     lookup_node (out ++ rel) (w_fs (st_world s1))
     = lookup_node (out ++ rel) (w_fs (st_world s2))) ->
  is_dir out (w_fs (st_world s1)) = true ->
  is_dir out (w_fs (st_world s2)) = true ->
  fst (compare_outputs exp out s1) = fst (compare_outputs exp out s2)
  /\ exists L,
      st_log (snd (compare_outputs exp out s1)) = st_log s1 ++ L
      /\ st_log (snd (compare_outputs exp out s2)) = st_log s2 ++ L.
Proof.
  intros Hexp Hcounterparts Hout1 Hout2.
  destruct (same_outcome_compare_outputs exp out s1 s2 Hexp Hcounterparts Hout1 Hout2)
    as (Hfst & Hlog & _).
  split; assumption.
Qed.

End CompareOutputs.

(** The baseline says [x], the model wrote the data frame: the comparison
    raises pandas' error and the outputs folder is gone. *)
Example failed_comparison_deletes_outputs_run :
  (exists rel s1 s2,
      st_world s1 = st_world (Demo.initial (Demo.case01_run "x" []))
      /\ assert_file (E := Demo.repo)
           (joinpath Demo.case01_dir [OUTPUTS_FOLDER_NAME] ++ rel)
           (Demo.case01_expected ++ rel) s1
         = (Raise (Exc (AssertionError "Not equal to tolerance")), s2))
  /\ w_fs (st_world Demo.after_failed_comparison)
     = put_node (joinpath Demo.case01_dir [OUTPUTS_FOLDER_NAME]) None
         (w_fs (st_world (Demo.initial (Demo.case01_run "x" []))))
  /\ lookup_node (joinpath Demo.case01_dir [OUTPUTS_FOLDER_NAME])
       (w_fs (st_world Demo.after_failed_comparison)) = None.
Proof.
  apply (failed_comparison_deletes_outputs (E := Demo.repo)
           Demo.case01_dir Demo.case01_expected
           (Demo.initial (Demo.case01_run "x" []))
           Demo.after_failed_comparison
           (Exc (AssertionError "Not equal to tolerance")));
    vm_compute; reflexivity.
Qed.

(** A run that also wrote [extra.txt] and [plots/figure.html] compares like
    the run that did not. *)
Lemma extra_outputs_are_not_examined_witness :
  fst (compare_outputs (E := Demo.repo) Demo.case01_expected Demo.case01_outputs
         (Demo.initial (Demo.case01_run src_main.df_csv [])))
  = fst (compare_outputs (E := Demo.repo) Demo.case01_expected Demo.case01_outputs
           (Demo.initial (Demo.case01_run src_main.df_csv Demo.extra_files)))
  /\ exists L,
      st_log (snd (compare_outputs (E := Demo.repo) Demo.case01_expected
                     Demo.case01_outputs
                     (Demo.initial (Demo.case01_run src_main.df_csv []))))
      = st_log (Demo.initial (Demo.case01_run src_main.df_csv [])) ++ L
      /\ st_log (snd (compare_outputs (E := Demo.repo) Demo.case01_expected
                        Demo.case01_outputs
                        (Demo.initial (Demo.case01_run src_main.df_csv Demo.extra_files))))
         = st_log (Demo.initial (Demo.case01_run src_main.df_csv Demo.extra_files)) ++ L.
Proof.
  apply (extra_outputs_are_not_examined (E := Demo.repo)
           Demo.case01_expected Demo.case01_outputs
           (Demo.initial (Demo.case01_run src_main.df_csv []))
           (Demo.initial (Demo.case01_run src_main.df_csv Demo.extra_files))).
  - vm_compute. reflexivity.
  - intros rel Hin. vm_compute in Hin. destruct Hin as [<- | []].
    vm_compute. reflexivity.
  - vm_compute. reflexivity.
  - vm_compute. reflexivity.
Defined.

Example run_with_extra_files_passes :
  compare_outputs (E := Demo.repo) Demo.case01_expected Demo.case01_outputs
    (Demo.initial (Demo.case01_run src_main.df_csv Demo.extra_files))
  = (Ok tt, State (st_world (Demo.initial (Demo.case01_run src_main.df_csv Demo.extra_files)))
              [EvAssertFile ["df.csv"]; EvFrameEqual ABSOLUTE_TOLERANCE RELATIVE_TOLERANCE]).
Proof. vm_compute. reflexivity. Qed.


(** An unsupported extension shows the same with a [ValueError]. *)
Example unsupported_extension_error_is_lost_without_outputs :
  fst (assert_file (E := Demo.repo) ["Outputs"; "notes.txt"]
         ["ExpectedOutputs"; "notes.txt"]
         (Demo.initial (Dir [("ExpectedOutputs", Dir [("notes.txt", File "n")])])))
  = Raise (Exc (ValueError "File extension '.txt' is not supported."))
  /\ fst (compare_outputs (E := Demo.repo) ["ExpectedOutputs"] ["Outputs"]
            (Demo.initial (Dir [("ExpectedOutputs", Dir [("notes.txt", File "n")])])))
     = Raise (Exc (FileNotFoundError ["Outputs"])).
Proof. repeat split; vm_compute; reflexivity. Qed.

(** ** Equality of documents *)

Lemma names_distinct_NoDup (l : list string) :
  names_distinct l = true <-> List.NoDup l.
Proof.
  induction l as [|x l IH]; simpl.
  - split; [constructor | reflexivity].
  - rewrite andb_true_iff, negb_true_iff, IH. split.
    + intros [Hx Hl]. constructor; [| assumption].
      intros Hin. apply not_true_iff_false in Hx. apply Hx.
      apply existsb_exists. exists x. split; [assumption | apply String.eqb_refl].
    + intros H. inversion H as [|? ? Hx Hl]; subst. split; [| assumption].
      apply not_true_iff_false. intros Hex. apply existsb_exists in Hex as (y & Hy & Heq).
      apply String.eqb_eq in Heq as ->. contradiction.
Qed.

Lemma two_power_nonzero (e : Z) : ~ Qeq (2 ^ e) 0.
Proof.
  intros H. pose proof (Qpower_0_lt 2 e eq_refl) as Hpos.
  rewrite H in Hpos. discriminate Hpos.
Qed.

(** Equality of two dyadic rationals, brought to a common exponent. *)
Lemma dyadic_eq (a b e1 e2 k : Z) :
  (k <= e1)%Z -> (k <= e2)%Z ->
  Qeq (inject_Z a * 2 ^ e1) (inject_Z b * 2 ^ e2)
  <-> (a * 2 ^ (e1 - k) = b * 2 ^ (e2 - k))%Z.
Proof.
  intros H1 H2.
  assert (Hsplit : forall c e, (k <= e)%Z ->
            Qeq (inject_Z c * 2 ^ e) (inject_Z (c * 2 ^ (e - k)) * 2 ^ k)).
  { intros c e He. replace e with ((e - k) + k)%Z at 1 by lia.
    rewrite Qpower_plus by discriminate.
    rewrite inject_Z_mult, Zpower_Qpower by lia. apply Qmult_assoc. }
  rewrite (Hsplit a e1 H1), (Hsplit b e2 H2).
  rewrite Qmult_inj_r by apply two_power_nonzero.
  apply inject_Z_injective.
Qed.

Lemma digits2_log2 (m : positive) : Z.pos (digits2_pos m) = (Z.log2 (Z.pos m) + 1)%Z.
Proof.
  assert (H : forall p, digits2_pos p = Pos.size p) by (induction p; simpl; congruence).
  rewrite H. destruct m; simpl; lia.
Qed.

(** A value has one representation with a canonical mantissa. *)
Lemma canonical_unique (m1 m2 : positive) (e1 e2 : Z) :
  bounded prec emax m1 e1 = true -> bounded prec emax m2 e2 = true ->
  (Z.pos m1 * 2 ^ (e1 - Z.min e1 e2) = Z.pos m2 * 2 ^ (e2 - Z.min e1 e2))%Z ->
  e1 = e2 /\ m1 = m2.
Proof.
  unfold bounded, canonical_mantissa. intros B1 B2 Heq.
  apply andb_true_iff in B1 as [B1 _]. apply andb_true_iff in B2 as [B2 _].
  apply Z.eqb_eq in B1, B2. rewrite digits2_log2 in B1, B2.
  assert (Hlog : (Z.log2 (Z.pos m1) + e1 = Z.log2 (Z.pos m2) + e2)%Z).
  { apply (f_equal Z.log2) in Heq.
    rewrite !Z.log2_mul_pow2 in Heq by lia. lia. }
  assert (He : e1 = e2).
  { rewrite <- B1, <- B2. f_equal. lia. }
  subst e2. split; [reflexivity |].
  rewrite Z.min_id, Z.sub_diag in Heq. simpl in Heq. lia.
Qed.

Lemma SFeqb_spec (x y : spec_float) :
  SpecFloat.valid_binary prec emax x = true -> SpecFloat.valid_binary prec emax y = true ->
  SFeqb x y = true
  <-> match x, y with
      | S754_zero _, S754_zero _ => True
      | S754_infinity s, S754_infinity t => s = t
      | S754_finite s1 m1 e1, S754_finite s2 m2 e2 =>
          Qeq (inject_Z (if s1 then Z.neg m1 else Z.pos m1) * 2 ^ e1)
              (inject_Z (if s2 then Z.neg m2 else Z.pos m2) * 2 ^ e2)
      | _, _ => False
      end.
Proof.
  intros Vx Vy. unfold SFeqb.
  destruct x as [sx | sx | | s1 m1 e1], y as [sy | sy | | s2 m2 e2];
    cbn [SFcompare]; try (split; [discriminate | contradiction]);
    try (split; [trivial | reflexivity]).
  all: try (destruct sx; split; (discriminate || contradiction)).
  all: try (destruct sy; split; (discriminate || contradiction)).
  all: try (destruct s1; split; (discriminate || contradiction)).
  all: try (destruct s2; split; (discriminate || contradiction)).
  - destruct sx, sy; split; congruence.
  - cbn [SpecFloat.valid_binary] in Vx, Vy.
    rewrite (dyadic_eq _ _ e1 e2 (Z.min e1 e2)) by lia.
    assert (Hp1 : (0 < 2 ^ (e1 - Z.min e1 e2))%Z) by (apply Z.pow_pos_nonneg; lia).
    assert (Hp2 : (0 < 2 ^ (e2 - Z.min e1 e2))%Z) by (apply Z.pow_pos_nonneg; lia).
    assert (Hsame : match (e1 ?= e2)%Z with
                    | Eq => PosDef.Pos.compare_cont Eq m1 m2
                    | Lt => Lt
                    | Gt => Gt
                    end = Eq
                    <-> (Z.pos m1 * 2 ^ (e1 - Z.min e1 e2)
                         = Z.pos m2 * 2 ^ (e2 - Z.min e1 e2))%Z).
    { split.
      - destruct (Z.compare_spec e1 e2) as [-> | _ | _]; try discriminate.
        intros Hm. apply (Pos.compare_eq m1 m2) in Hm. now subst.
      - intros Heq. destruct (canonical_unique _ _ _ _ Vx Vy Heq) as [-> ->].
        rewrite Z.compare_refl. apply Pos.compare_refl. }
    destruct s1, s2.
    + rewrite <- !Pos2Z.opp_pos, !Z.mul_opp_l, Z.opp_inj_wd, <- Hsame.
      destruct (e1 ?= e2)%Z; [| split; discriminate ..].
      destruct (PosDef.Pos.compare_cont Eq m1 m2); simpl; split; congruence.
    + split; [discriminate | lia].
    + split; [discriminate | lia].
    + rewrite <- Hsame.
      destruct (match (e1 ?= e2)%Z with Eq => _ | Lt => Lt | Gt => Gt end);
        split; congruence.
Qed.

Lemma dyadic_zero (a e : Z) : Qeq (inject_Z a * 2 ^ e) 0 <-> a = 0%Z.
Proof.
  split; intros H.
  - apply (inject_Z_injective a 0).
    apply (Qmult_inj_r _ _ (2 ^ e)); [apply two_power_nonzero |].
    rewrite H. symmetry. apply Qmult_0_l.
  - subst a. apply Qmult_0_l.
Qed.

Lemma float_eqb_spec (f g : float) :
  PrimFloat.eqb f g = true <-> same_value (value_of_float f) (value_of_float g).
Proof.
  rewrite FloatAxioms.eqb_spec.
  rewrite (SFeqb_spec _ _ (Prim2SF_valid f) (Prim2SF_valid g)).
  unfold value_of_float.
  destruct (Prim2SF f) as [sx | sx | | s1 m1 e1], (Prim2SF g) as [sy | sy | | s2 m2 e2];
    simpl; try tauto.
  - split; [reflexivity | trivial].
  - split; [contradiction |]. intros H. symmetry in H. apply dyadic_zero in H.
    now destruct s2.
  - split; [contradiction |]. intros H. apply dyadic_zero in H. now destruct s1.
Qed.

Lemma is_nan_spec (f : float) :
  PrimFloat.is_nan f = true <-> value_of_float f = NotANumber.
Proof.
  unfold PrimFloat.is_nan. rewrite negb_true_iff, <- not_true_iff_false, float_eqb_spec.
  destruct (value_of_float f) as [q | s |]; simpl; split; try congruence; try tauto.
  all: intros H; exfalso; apply H; reflexivity.
Qed.

(** [int == float]: the float is finite and its value is the integer. *)
Lemma int_eq_float_spec (z : Z) (f : float) :
  int_eq_float z f = true <-> same_value (Rational (inject_Z z)) (value_of_float f).
Proof.
  unfold int_eq_float, value_of_float.
  destruct (Prim2SF f) as [sx | sx | | s m e]; simpl; try (split; [discriminate | contradiction]).
  - rewrite Z.eqb_eq. symmetry. apply (inject_Z_injective z 0).
  - rewrite <- (Qmult_1_r (inject_Z z)).
    change 1%Q with (2 ^ 0)%Q.
    rewrite (dyadic_eq _ _ 0 e (Z.min 0 e)) by lia.
    set (sm := if s then Z.neg m else Z.pos m).
    assert (Hsm : sm = (if s then - Z.pos m else Z.pos m)%Z) by (now destruct s).
    destruct (Z.leb_spec 0 e) as [He | He].
    + replace (0 - Z.min 0 e)%Z with 0%Z by lia.
      replace (e - Z.min 0 e)%Z with e by lia.
      rewrite Z.pow_0_r, Z.mul_1_r, Z.shiftl_mul_pow2, Z.eqb_eq, Hsm by lia.
      destruct s; [rewrite Z.mul_opp_l |]; reflexivity.
    + replace (0 - Z.min 0 e)%Z with (- e)%Z by lia.
      replace (e - Z.min 0 e)%Z with 0%Z by lia.
      rewrite Z.pow_0_r, Z.mul_1_r, Z.land_ones, Z.shiftr_div_pow2 by lia.
      assert (Hpow : (0 < 2 ^ (- e))%Z) by (apply Z.pow_pos_nonneg; lia).
      destruct (Z.eqb_spec (Z.pos m mod 2 ^ (- e)) 0) as [Hdiv | Hdiv].
      * rewrite Z.eqb_eq. apply Z.div_exact in Hdiv; [| lia].
        rewrite Hsm. destruct s; split; nia.
      * split; [discriminate |]. intros Heq. exfalso. apply Hdiv.
        assert (Hm : Z.pos m = ((if s then - z else z) * 2 ^ (- e))%Z)
          by (rewrite Hsm in Heq; destruct s; lia).
        rewrite Hm. apply Z.mod_mul. lia.
Qed.

Fixpoint json_ind' (P : json -> Prop)
    (Hnull : P JNull) (Hbool : forall b, P (JBool b)) (Hint : forall z, P (JInt z))
    (Hfloat : forall f, P (JFloat f)) (Hstr : forall s, P (JString s))
    (Hlist : forall items, List.Forall P items -> P (JList items))
    (Hdict : forall items, List.Forall (fun kv => P (snd kv)) items -> P (JDict items))
    (j : json) {struct j} : P j :=
  match j with
  | JNull => Hnull
  | JBool b => Hbool b
  | JInt z => Hint z
  | JFloat f => Hfloat f
  | JString s => Hstr s
  | JList items =>
      Hlist items
        ((fix all (l : list json) : List.Forall P l :=
            match l with
            | [] => List.Forall_nil P
            | x :: l' =>
                @List.Forall_cons _ _ x l'
                  (json_ind' P Hnull Hbool Hint Hfloat Hstr Hlist Hdict x) (all l')
            end) items)
  | JDict items =>
      Hdict items
        ((fix all (l : list (string * json)) : List.Forall (fun kv => P (snd kv)) l :=
            match l with
            | [] => List.Forall_nil _
            | kv :: l' =>
                @List.Forall_cons _ _ kv l'
                  (json_ind' P Hnull Hbool Hint Hfloat Hstr Hlist Hdict (snd kv)) (all l')
            end) items)
  end.

Lemma py_is_spec (a b : json) : py_is a b = true <-> same_object a b.
Proof.
  unfold same_object.
  destruct a as [| | | f | | |], b as [| | | g | | |]; simpl;
    try (split; [discriminate | intros [H1 H2]; (discriminate H1 || discriminate H2)]).
  rewrite andb_true_iff, !is_nan_spec. split; intros [H1 H2]; split; congruence.
Qed.

(** Numbers of any two kinds compare by value. *)
Lemma num_eq_spec (a b : json) (x y : Z + float) :
  num_of a = Some x -> num_of b = Some y ->
  num_eq x y = true
  <-> exists vx vy, value_of a = Some vx /\ value_of b = Some vy /\ same_value vx vy.
Proof.
  intros Ha Hb.
  assert (Hv : forall j n, num_of j = Some n ->
            value_of j = Some match n with
                              | inl z => Rational (inject_Z z)
                              | inr f => value_of_float f
                              end).
  { intros j n Hj. destruct j; try discriminate; injection Hj as <-; reflexivity. }
  rewrite (Hv _ _ Ha), (Hv _ _ Hb). clear Ha Hb Hv.
  assert (Hiff : num_eq x y = true
                 <-> same_value
                       match x with inl z => Rational (inject_Z z) | inr f => value_of_float f end
                       match y with inl z => Rational (inject_Z z) | inr f => value_of_float f end).
  { destruct x as [z | f], y as [z' | g]; simpl.
    - rewrite Z.eqb_eq. symmetry. apply inject_Z_injective.
    - apply int_eq_float_spec.
    - rewrite int_eq_float_spec.
      destruct (value_of_float f) as [q | s |]; simpl; [| tauto ..].
      split; intros H; now symmetry.
    - apply float_eqb_spec. }
  rewrite Hiff. split.
  - intros H. eauto.
  - intros (vx & vy & [= <-] & [= <-] & H). exact H.
Qed.

Lemma py_eq_list_cons (x y : json) (xs ys : list json) :
  py_eq (JList (x :: xs)) (JList (y :: ys))
  = (py_is x y || py_eq x y) && py_eq (JList xs) (JList ys).
Proof. reflexivity. Qed.

Lemma py_eq_dict (xs ys : list (string * json)) :
  py_eq (JDict xs) (JDict ys)
  = Nat.eqb (List.length xs) (List.length ys)
    && List.forallb
         (fun kv =>
            match dict_get (fst kv) ys with
            | Some w => py_is (snd kv) w || py_eq (snd kv) w
            | None => false
            end) xs.
Proof.
  cbn [py_eq]. f_equal.
  induction xs as [|[k v] xs IH]; [reflexivity |]. cbn [List.forallb fst snd].
  now rewrite IH.
Qed.

Lemma dict_get_None (k : string) (d : list (string * json)) :
  dict_get k d = None <-> ~ In k (List.map fst d).
Proof.
  induction d as [|[k' v] d IH]; simpl; [tauto |].
  destruct (String.eqb_spec k' k) as [-> | Hne].
  - split; [discriminate | intros H; exfalso; apply H; now left].
  - rewrite IH. split; [intros H [Heq | Hin]; [contradiction | auto] | tauto].
Qed.

Lemma dict_get_In (k : string) (v : json) (d : list (string * json)) :
  dict_get k d = Some v -> In (k, v) d.
Proof.
  induction d as [|[k' v'] d IH]; simpl; [discriminate |].
  destruct (String.eqb_spec k' k) as [-> | Hne].
  - intros [= ->]. now left.
  - intros H. right. auto.
Qed.

Lemma In_dict_get (k : string) (v : json) (d : list (string * json)) :
  List.NoDup (List.map fst d) -> In (k, v) d -> dict_get k d = Some v.
Proof.
  induction d as [|[k' v'] d IH]; simpl; [intros _ [] |].
  intros Hnd. inversion Hnd as [|? ? Hk Hd]; subst.
  intros [[= -> ->] | Hin].
  - now rewrite String.eqb_refl.
  - destruct (String.eqb_spec k' k) as [-> | Hne]; [| auto].
    exfalso. apply Hk. apply in_map_iff. now exists (k, v).
Qed.

Lemma value_of_num_of (j : json) : value_of j = None <-> num_of j = None.
Proof. destruct j; simpl; split; congruence. Qed.

(** The number cases of [==]. *)
Lemma py_eq_number (a b : json) (x : Z + float) :
  num_of a = Some x -> py_eq a b = true <-> native_equal a b.
Proof.
  intros Ha. destruct (num_of b) as [y |] eqn:Hb.
  - assert (Heq : py_eq a b = num_eq x y).
    { destruct a, b; try discriminate; injection Ha as <-; injection Hb as <-; reflexivity. }
    rewrite Heq, (num_eq_spec a b x y Ha Hb). split.
    + intros (vx & vy & H1 & H2 & H3). exact (equal_number _ _ _ _ H1 H2 H3).
    + intros H. inversion H; subst; try discriminate. eauto.
  - assert (Heq : py_eq a b = false).
    { destruct a, b; try discriminate; reflexivity. }
    rewrite Heq. split; [discriminate |].
    intros H. inversion H as [| | ? ? ? ? _ Hvb | |]; subst; try discriminate.
    apply value_of_num_of in Hb. congruence.
Qed.

(** [==] on documents is the equality of documents. *)
Lemma py_eq_spec (a : json) :
  forall b, unique_keys a = true -> unique_keys b = true ->
    py_eq a b = true <-> native_equal a b.
Proof.
  induction a as [| c | z | f | s | xs IH | xs IH] using json_ind'; intros b Ha Hb.
  - (* None *)
    destruct b; simpl; split; try discriminate; try constructor;
      intros H; inversion H; subst; discriminate.
  - now apply (py_eq_number _ _ (inl (if c then 1 else 0)%Z)).
  - now apply (py_eq_number _ _ (inl z)).
  - now apply (py_eq_number _ _ (inr f)).
  - (* str *)
    destruct b; try (split; [discriminate | intros H; inversion H; subst; discriminate]).
    cbn [py_eq]. rewrite String.eqb_eq. split.
    + intros ->. constructor.
    + intros H. inversion H; subst; [reflexivity | discriminate].
  - (* list *)
    destruct b as [| | | | | ys |];
      try (split; [discriminate | intros H; inversion H; subst; discriminate]).
    cbn [unique_keys] in Ha, Hb.
    assert (Hitems : py_eq (JList xs) (JList ys) = true
                     <-> List.Forall2 (fun x y => same_object x y \/ native_equal x y) xs ys).
    { revert ys Hb. induction IH as [|x xs Hx _ IHxs]; intros ys Hb.
      - destruct ys; split; [constructor | reflexivity | discriminate | intros H; inversion H].
      - destruct ys as [|y ys]; [split; [discriminate | intros H; inversion H] |].
        cbn [List.forallb] in Ha, Hb.
        apply andb_true_iff in Ha as [Hax Haxs]. apply andb_true_iff in Hb as [Hby Hbys].
        rewrite py_eq_list_cons, andb_true_iff, orb_true_iff, py_is_spec,
          (Hx y Hax Hby), (IHxs Haxs ys Hbys).
        split; [intros [H1 H2]; now constructor | intros H; inversion H; subst; auto]. }
    rewrite Hitems. split; [apply equal_list |].
    intros H. inversion H; subst; [discriminate | assumption].
  - (* dict *)
    destruct b as [| | | | | | ys];
      try (split; [discriminate | intros H; inversion H; subst; discriminate]).
    cbn [unique_keys] in Ha, Hb.
    apply andb_true_iff in Ha as [Hkx Hvx]. apply andb_true_iff in Hb as [Hky Hvy].
    apply names_distinct_NoDup in Hkx, Hky.
    rewrite List.forallb_forall in Hvx, Hvy. rewrite List.Forall_forall in IH.
    assert (Hitem : forall k v w, In (k, v) xs -> In (k, w) ys ->
              py_is v w || py_eq v w = true <-> same_object v w \/ native_equal v w).
    { intros k v w Hv Hw. rewrite orb_true_iff, py_is_spec.
      rewrite (IH (k, v) Hv w (Hvx _ Hv) (Hvy _ Hw)). reflexivity. }
    rewrite py_eq_dict, andb_true_iff, Nat.eqb_eq, List.forallb_forall. split.
    + intros [Hlen Hall].
      assert (Hincl : incl (List.map fst xs) (List.map fst ys)).
      { intros k Hk. apply in_map_iff in Hk as ([k' v] & <- & Hin).
        specialize (Hall _ Hin). cbn [fst snd] in Hall.
        destruct (dict_get k' ys) as [w |] eqn:Hw; [| discriminate].
        apply dict_get_In in Hw. apply in_map_iff. now exists (k', w). }
      assert (Hincl' : incl (List.map fst ys) (List.map fst xs)).
      { apply NoDup_length_incl; [assumption | | assumption].
        rewrite !length_map. lia. }
      apply equal_dict.
      * intros k. rewrite !dict_get_None. split; intros H Hin; apply H; auto.
      * intros k v w Hv Hw. apply dict_get_In in Hv as Hvin. apply dict_get_In in Hw as Hwin.
        apply (Hitem k v w Hvin Hwin).
        specialize (Hall _ Hvin). cbn [fst snd] in Hall. now rewrite Hw in Hall.
    + intros H. inversion H as [| | ? ? ? ? Hva | | ? ? Hkeys Hvals]; subst; [discriminate |].
      assert (Hincl : incl (List.map fst xs) (List.map fst ys)).
      { intros k Hk. destruct (in_dec String.string_dec k (List.map fst ys)) as [|Hn]; trivial.
        apply dict_get_None, Hkeys, dict_get_None in Hn. contradiction. }
      assert (Hincl' : incl (List.map fst ys) (List.map fst xs)).
      { intros k Hk. destruct (in_dec String.string_dec k (List.map fst xs)) as [|Hn]; trivial.
        apply dict_get_None, Hkeys, dict_get_None in Hn. contradiction. }
      split.
      * pose proof (NoDup_incl_length Hkx Hincl) as H1.
        pose proof (NoDup_incl_length Hky Hincl') as H2.
        rewrite !length_map in H1, H2. lia.
      * intros [k v] Hin. cbn [fst snd].
        pose proof (In_dict_get _ _ _ Hkx Hin) as Hv.
        destruct (dict_get k ys) as [w |] eqn:Hw.
        -- apply (Hitem k v w Hin (dict_get_In _ _ _ Hw)). eauto.
        -- apply Hkeys in Hw. congruence.
Qed.

(** ** Archives and documents *)

Section Archives.
Context {D : Data} {E : External}.

Lemma open_read_run (p : path) (s : state) (bytes : string) :
  read_bytes p (w_fs (st_world s)) = inr bytes -> open_read p s = (Ok bytes, s).
Proof. unfold open_read, bind, get_world. simpl. now intros ->. Qed.

Lemma npz_get_files (name : string) (a : list (string * ndarray)) :
  In name (npz_files a) -> exists v, npz_get name a = Some v.
Proof.
  induction a as [|[k v] a IH]; simpl; [intros [] |].
  destruct (String.eqb k name) eqn:Hk; [eauto |].
  intros [-> | Hin]; [| auto]. now rewrite String.eqb_refl in Hk.
Qed.

Lemma assert_member_run (data expected : list (string * ndarray)) (name : string)
    (actual desired : ndarray) (s : state) :
  npz_get name data = Some actual -> npz_get name expected = Some desired ->
  assert_member data expected name s
  = (match assert_allclose actual desired 1e-8%float 0%Z with
     | Some e => Raise (Exc e)
     | None => Ok tt
     end,
     State (st_world s) (st_log s ++ [EvAllclose name 1e-8%float 0%Z])).
Proof.
  intros Ha Hd. unfold assert_member, npz_getitem. rewrite Ha, Hd.
  unfold bind, ret, emit. simpl.
  change ABSOLUTE_TOLERANCE with 1e-8%float. change RELATIVE_TOLERANCE with 0%Z.
  destruct (assert_allclose actual desired 1e-8%float 0%Z); reflexivity.
Qed.

(** The loop over the members: it compares them in order with the two
    tolerances, and stops at the first one numpy rejects. *)
Lemma members_loop (data expected : list (string * ndarray)) (names : list string)
    (s : state) :
  (forall name, In name names ->
     (exists v, npz_get name data = Some v) /\ (exists v, npz_get name expected = Some v)) ->
  exists r compared rest,
    names = compared ++ rest
    /\ for_each names (assert_member data expected) s
       = (r, State (st_world s)
               (st_log s ++ List.map (fun n => EvAllclose n 1e-8%float 0%Z) compared))
    /\ match r with
       | Ok _ => rest = [] /\ forall name, In name names -> member_close data expected name
       | Raise r =>
           exists name actual desired e,
             In name names
             /\ npz_get name data = Some actual
             /\ npz_get name expected = Some desired
             /\ assert_allclose actual desired 1e-8%float 0%Z = Some e
             /\ r = Exc e
       end.
Proof.
  revert s. induction names as [|name names IH]; intros s Hmembers.
  - exists (Ok tt), [], []. simpl. rewrite state_log_nil.
    repeat split; trivial. intros name [].
  - destruct (Hmembers name (or_introl eq_refl)) as [[actual Ha] [desired Hd]].
    cbn [for_each]. unfold bind at 1.
    rewrite (assert_member_run _ _ _ _ _ s Ha Hd).
    destruct (assert_allclose actual desired 1e-8%float 0%Z) as [e |] eqn:Hclose.
    + exists (Raise (Exc e)), [name], names. simpl.
      repeat split; trivial. exists name, actual, desired, e. auto.
    + destruct (IH (State (st_world s)
                      (st_log s ++ [EvAllclose name 1e-8%float 0%Z])))
        as (r & compared & rest & Hnames & Hrun & Hr).
      { intros n Hn. apply Hmembers. now right. }
      exists r, (name :: compared), rest. simpl in *.
      rewrite Hrun, <- app_assoc. simpl.
      split; [now rewrite Hnames |]. split; [reflexivity |].
      destruct r as [[] | r].
      * destruct Hr as [-> Hall]. split; [reflexivity |].
        intros n [<- | Hn]; [| auto].
        intros a' d' Ha' Hd'. congruence.
      * destruct Hr as (n & a' & d' & e & Hn & Hr). exists n, a', d', e. auto.
Qed.

(** C7.  Two archives that load: when their member-name sets differ,
    [assert_npz] raises the key-mismatch [KeyError] and has asked numpy for
    no comparison (the state, log included, is untouched).  When the sets are
    the same it compares the members of the expected archive in order, each
    with absolute tolerance 1e-8 and relative tolerance 0, stopping at the
    first member numpy rejects with numpy's error; it returns exactly when
    every member is accepted, and then every member has been compared. *)
Theorem npz_keys_then_members (out exp : path) (s : state) (b1 b2 : string)
    (data expected : list (string * ndarray)) :
  read_bytes out (w_fs (st_world s)) = inr b1 -> np_load b1 = inr data ->
  read_bytes exp (w_fs (st_world s)) = inr b2 -> np_load b2 = inr expected ->
  (list_to_set (npz_files data) <> (list_to_set (npz_files expected) : gset string) ->
     assert_npz out exp s
     = (Raise (Exc (KeyError "The .npz archives have different keys.")), s))
  /\ (list_to_set (npz_files data) = (list_to_set (npz_files expected) : gset string) ->
      exists r compared rest,
        npz_files expected = compared ++ rest
        /\ assert_npz out exp s
           = (r, State (st_world s)
                   (st_log s ++ List.map (fun n => EvAllclose n 1e-8%float 0%Z) compared))
        /\ match r with
           | Ok _ =>
               rest = []
               /\ forall name, In name (npz_files expected) ->
                    member_close data expected name
           | Raise r =>
               exists name actual desired e,
                 In name (npz_files expected)
                 /\ npz_get name data = Some actual
                 /\ npz_get name expected = Some desired
                 /\ assert_allclose actual desired 1e-8%float 0%Z = Some e
                 /\ r = Exc e
           end).
Proof.
  intros Hout Hdata Hexp Hexpected.
  assert (Hrun : assert_npz out exp s
                 = (if bool_decide (list_to_set (npz_files data)
                                    <> (list_to_set (npz_files expected) : gset string))
                    then raise (KeyError "The .npz archives have different keys.")
                    else for_each (npz_files expected) (assert_member data expected)) s).
  { unfold assert_npz.
    rewrite (bind_ok _ _ _ _ _ (open_read_run _ _ _ Hout)), Hdata.
    unfold lift at 1. unfold bind at 1, ret at 1.
    rewrite (bind_ok _ _ _ _ _ (open_read_run _ _ _ Hexp)), Hexpected.
    reflexivity. }
  rewrite Hrun. split; intros Hkeys.
  - now rewrite bool_decide_eq_true_2.
  - rewrite bool_decide_eq_false_2 by (intros Hne; now apply Hne).
    apply members_loop. intros name Hin. split; [| now apply npz_get_files].
    apply npz_get_files, list_elem_of_In.
    apply (elem_of_list_to_set (C := gset string)). rewrite Hkeys.
    apply elem_of_list_to_set. now apply list_elem_of_In.
Qed.

(** C8.  Two documents that load, as [json.load] builds them: [assert_json]
    returns exactly when the two are equal, structure by structure and value
    by value, and raises [AssertionError] when they are not.  Numbers are
    equal only when they have the same value, so no tolerance is involved;
    the integer 1 and the float 1.0 have the same value, so [{"a": 1}] equals
    [{"a": 1.0}]. *)
Theorem json_comparison_is_native_equality (out exp : path) (s : state) (b1 b2 : string)
    (data expected_data : json) :
  read_bytes out (w_fs (st_world s)) = inr b1 -> json_load b1 = inr data ->
  read_bytes exp (w_fs (st_world s)) = inr b2 -> json_load b2 = inr expected_data ->
  unique_keys data = true -> unique_keys expected_data = true ->
  (assert_json out exp s = (Ok tt, s) <-> native_equal data expected_data)
  /\ (~ native_equal data expected_data ->
      assert_json out exp s = (Raise (Exc (AssertionError "")), s))
  /\ native_equal (JDict [("a", JInt 1)]) (JDict [("a", JFloat 1.0)]).
Proof.
  intros Hout Hdata Hexp Hexpected Hkeys Hkeys'.
  assert (Hrun : assert_json out exp s
                 = (if py_eq data expected_data then Ok tt
                    else Raise (Exc (AssertionError "")), s)).
  { unfold assert_json.
    rewrite (bind_ok _ _ _ _ _ (open_read_run _ _ _ Hout)), Hdata.
    unfold lift at 1. unfold bind at 1, ret at 1.
    rewrite (bind_ok _ _ _ _ _ (open_read_run _ _ _ Hexp)), Hexpected.
    unfold lift, bind, ret. destruct (py_eq data expected_data); reflexivity. }
  pose proof (py_eq_spec data expected_data Hkeys Hkeys') as Hspec.
  rewrite Hrun. split; [| split].
  - rewrite <- Hspec. destruct (py_eq data expected_data); split; congruence.
  - rewrite <- Hspec. now destruct (py_eq data expected_data).
  - now apply py_eq_spec.
Qed.

End Archives.

(** Archives [ab] and [ba]: the same two members in another order. *)
Lemma npz_keys_then_members_witness :
  (list_to_set (npz_files Demo.archive_ab)
   <> (list_to_set (npz_files Demo.archive_ba) : gset string) ->
   assert_npz (E := Demo.repo) ["out.npz"] ["exp.npz"]
     (Demo.initial (Demo.pair_of_files ".npz" "ab" "ba"))
   = (Raise (Exc (KeyError "The .npz archives have different keys.")),
      Demo.initial (Demo.pair_of_files ".npz" "ab" "ba")))
  /\ (list_to_set (npz_files Demo.archive_ab)
      = (list_to_set (npz_files Demo.archive_ba) : gset string) ->
      exists r compared rest,
        npz_files Demo.archive_ba = compared ++ rest
        /\ assert_npz (E := Demo.repo) ["out.npz"] ["exp.npz"]
             (Demo.initial (Demo.pair_of_files ".npz" "ab" "ba"))
           = (r, State (st_world (Demo.initial (Demo.pair_of_files ".npz" "ab" "ba")))
                   (st_log (Demo.initial (Demo.pair_of_files ".npz" "ab" "ba"))
                    ++ List.map (fun n => EvAllclose n 1e-8%float 0%Z) compared))
        /\ match r with
           | Ok _ =>
               rest = []
               /\ forall name, In name (npz_files Demo.archive_ba) ->
                    member_close (E := Demo.repo) Demo.archive_ab Demo.archive_ba name
           | Raise r =>
               exists name actual desired e,
                 In name (npz_files Demo.archive_ba)
                 /\ npz_get name Demo.archive_ab = Some actual
                 /\ npz_get name Demo.archive_ba = Some desired
                 /\ assert_allclose (External := Demo.repo) actual desired 1e-8%float 0%Z
                    = Some e
                 /\ r = Exc e
           end).
Proof.
  apply (npz_keys_then_members (E := Demo.repo) ["out.npz"] ["exp.npz"]
           (Demo.initial (Demo.pair_of_files ".npz" "ab" "ba")) "ab" "ba"
           Demo.archive_ab Demo.archive_ba);
    vm_compute; reflexivity.
Defined.

Example npz_same_keys_compares_every_member :
  assert_npz (E := Demo.repo) ["out.npz"] ["exp.npz"]
    (Demo.initial (Demo.pair_of_files ".npz" "ab" "ba"))
  = (Ok tt, State (st_world (Demo.initial (Demo.pair_of_files ".npz" "ab" "ba")))
              [EvAllclose "b" 1e-8%float 0%Z; EvAllclose "a" 1e-8%float 0%Z]).
Proof. vm_compute. reflexivity. Qed.

Example npz_different_keys_compares_nothing :
  assert_npz (E := Demo.repo) ["out.npz"] ["exp.npz"]
    (Demo.initial (Demo.pair_of_files ".npz" "abc" "ab"))
  = (Raise (Exc (KeyError "The .npz archives have different keys.")),
     Demo.initial (Demo.pair_of_files ".npz" "abc" "ab")).
Proof. vm_compute. reflexivity. Qed.

(** In [assert_file] the key check comes first as well. *)
Example npz_suffix_dispatches_to_assert_npz :
  assert_file (E := Demo.repo) ["out.npz"] ["exp.npz"]
    (Demo.initial (Demo.pair_of_files ".npz" "xy" "yz"))
  = (Raise (Exc (KeyError "The .npz archives have different keys.")),
     Demo.initial (Demo.pair_of_files ".npz" "xy" "yz")).
Proof. vm_compute. reflexivity. Qed.

(** The manifest of two tables, against itself. *)
Lemma json_comparison_is_native_equality_witness :
  (assert_json (E := Demo.repo) ["out.json"] ["exp.json"]
     (Demo.initial (Demo.pair_of_files ".json" "tables" "tables"))
   = (Ok tt, Demo.initial (Demo.pair_of_files ".json" "tables" "tables"))
   <-> native_equal Demo.tables Demo.tables)
  /\ (~ native_equal Demo.tables Demo.tables ->
      assert_json (E := Demo.repo) ["out.json"] ["exp.json"]
        (Demo.initial (Demo.pair_of_files ".json" "tables" "tables"))
      = (Raise (Exc (AssertionError "")),
         Demo.initial (Demo.pair_of_files ".json" "tables" "tables")))
  /\ native_equal (JDict [("a", JInt 1)]) (JDict [("a", JFloat 1.0)]).
Proof.
  apply (json_comparison_is_native_equality (E := Demo.repo) ["out.json"] ["exp.json"]
           (Demo.initial (Demo.pair_of_files ".json" "tables" "tables"))
           "tables" "tables" Demo.tables Demo.tables);
    vm_compute; reflexivity.
Defined.

(** The document [NaN] differs from itself, the document [[NaN]] does not:
    the two lists hold the one NaN object of the [json] module. *)
Example assert_json_on_nan :
  fst (assert_json (E := Demo.repo) ["out.json"] ["exp.json"]
         (Demo.initial (Demo.pair_of_files ".json" "NaN" "NaN")))
  = Raise (Exc (AssertionError ""))
  /\ fst (assert_json (E := Demo.repo) ["out.json"] ["exp.json"]
            (Demo.initial (Demo.pair_of_files ".json" "[NaN]" "[NaN]")))
     = Ok tt.
Proof. split; vm_compute; reflexivity. Qed.

(** Two floats are equal documents only when they have the same value. *)
Lemma equal_floats_have_the_same_value (f g : float) :
  native_equal (JFloat f) (JFloat g)
  <-> same_value (value_of_float f) (value_of_float g).
Proof.
  split.
  - intros H. inversion H as [| | ? ? x y Hx Hy Hv | |]; subst.
    cbn [value_of] in Hx, Hy. now inversion Hx; inversion Hy; subst.
  - intros H. exact (equal_number (JFloat f) (JFloat g) _ _ eq_refl eq_refl H).
Qed.

(** Python's [==] on documents, on examples: numbers compare by value across
    [int], [float] and [bool]; there is no tolerance; dicts ignore the order
    of their keys and lists do not. *)
Example py_eq_int_float : py_eq (JInt 1) (JFloat 1.0) = true.
Proof. reflexivity. Qed.

Example py_eq_bool_int : py_eq (JBool true) (JInt 1) = true.
Proof. reflexivity. Qed.

Example py_eq_no_tolerance :
  py_eq (JFloat (0.1 + 0.2)) (JFloat 0.3) = false
  /\ py_eq (JFloat 1.0) (JFloat 1.000000001) = false
  /\ py_eq (JInt 1) (JFloat 1.000000001) = false.
Proof. repeat split; vm_compute; reflexivity. Qed.

(** [NaN == NaN] is false, but a list or a dict that holds the NaN of the
    [json] module equals another one that holds it. *)
Example py_eq_nan :
  py_eq (JFloat nan) (JFloat nan) = false
  /\ py_eq (JList [JFloat nan]) (JList [JFloat nan]) = true
  /\ py_eq (JDict [("a", JList [JFloat nan])]) (JDict [("a", JList [JFloat nan])]) = true
  /\ py_eq (JList [JFloat nan]) (JList [JFloat 1.0]) = false.
Proof. repeat split; vm_compute; reflexivity. Qed.

Example py_eq_dict_order :
  py_eq (JDict [("a", JInt 1); ("b", JList [JNull; JString "x"])])
        (JDict [("b", JList [JNull; JString "x"]); ("a", JInt 1)]) = true.
Proof. reflexivity. Qed.

Example py_eq_list_order : py_eq (JList [JInt 1; JInt 2]) (JList [JInt 2; JInt 1]) = false.
Proof. reflexivity. Qed.

Example py_eq_kinds : py_eq (JString "1") (JInt 1) = false /\ py_eq JNull (JInt 0) = false.
Proof. split; reflexivity. Qed.

(** ** Running the model *)

Section RunModel.
Context {D : Data} {E : External}.

(** The three ways the model run can end, and what [run_model] makes of
    each: a return and an [Exception] both drop the staged tables, once each;
    an [Exception] also removes the outputs directory if there is one and
    comes out unchanged; a [SystemExit] passes through with nothing done. *)
Lemma run_model_spec (table_names : list string) (out : path) (s : state) :
  match main_model (st_world s) with
  | (None, w') =>
      run_model table_names out s
      = (Ok tt, State (set_db w' (drop_tables table_names (w_db w')))
                  (st_log s ++ List.map EvRemoveTable table_names))
  | (Some (Exc e), w') =>
      run_model table_names out s
      = (Raise (Exc e),
         State (set_fs (set_db w' (drop_tables table_names (w_db w')))
                  (if is_dir out (w_fs w') then put_node out None (w_fs w') else w_fs w'))
           (st_log s ++ List.map EvRemoveTable table_names))
  | (Some (SystemExit c), w') =>
      run_model table_names out s = (Raise (SystemExit c), State w' (st_log s))
  end.
Proof.
  unfold run_model, try_except_else, run_main_model.
  destruct (main_model (st_world s)) as [[[e | c] |] w']; trivial.
  - rewrite (bind_ok _ _ _ _ _ (remove_mock_data_from_db_spec _ _)). simpl.
    unfold bind at 1. unfold path_is_dir at 1, bind at 1, get_world at 1, ret at 1.
    unfold is_dir, rmtree, fs_update, rmtree_fs, bind, get_world, raise, set_world.
    unfold set_db, set_fs. cbn.
    destruct (lookup_node out (w_fs w')) as [[data | es] |] eqn:Hout;
      cbn; rewrite ?Hout; reflexivity.
  - exact (remove_mock_data_from_db_spec table_names (State w' (st_log s))).
Qed.

(** C4 (amended).  When the model raises an [Exception] during a case run
    whose inputs were processed, the harness drops the staged tables (once
    each, nothing else is logged), removes the case's outputs directory if
    the model left one, and the run ends in that same exception; afterwards
    none of the staged tables is in the database and the case has no outputs
    directory. *)
Theorem model_exception_is_cleaned_up (run_type : string) (case_dir : path)
    (s s1 : state) (table_names : list string) (e : exception) (w2 : world) :
  (chdir case_dir ;;; process_inputs run_type case_dir) s = (Ok table_names, s1) ->
  main_model (st_world s1) = (Some (Exc e), w2) ->
  exists s',
    run_case run_type case_dir s = (Raise (Exc e), s')
    /\ st_log s' = st_log s1 ++ List.map EvRemoveTable table_names
    /\ (forall t, In t table_names ->
          w_db (st_world s') !! (DET_DB_SCHEMA, t) = None)
    /\ w_fs (st_world s')
       = (if is_dir (joinpath case_dir [OUTPUTS_FOLDER_NAME]) (w_fs w2)
          then put_node (joinpath case_dir [OUTPUTS_FOLDER_NAME]) None (w_fs w2)
          else w_fs w2)
    /\ is_dir (joinpath case_dir [OUTPUTS_FOLDER_NAME]) (w_fs (st_world s')) = false.
Proof.
  intros Hinputs Hmodel.
  apply bind_inv in Hinputs as [([] & s0 & Hchdir & Hinputs) | (r & _ & [=])].
  pose proof (run_model_spec table_names (joinpath case_dir [OUTPUTS_FOLDER_NAME]) s1)
    as Hrun.
  rewrite Hmodel in Hrun.
  eexists. split.
  - unfold run_case. rewrite (bind_ok _ _ _ _ _ Hchdir).
    rewrite (bind_ok _ _ _ _ _ Hinputs). apply bind_raise. exact Hrun.
  - simpl. split; [reflexivity |]. split; [intros t Ht; now apply drop_tables_dropped |].
    split; [reflexivity |].
    destruct (is_dir _ (w_fs w2)) eqn:Hdir; [| exact Hdir].
    unfold is_dir. rewrite lookup_put_none; [reflexivity |].
    unfold joinpath. now destruct case_dir.
Qed.

End RunModel.

(** The model writes df.csv and then fails: the two staged tables are
    dropped, [Outputs] is removed, and the model's error comes out. *)
Lemma model_exception_is_cleaned_up_witness :
  exists s',
    run_case (E := Demo.failing) "compare" Demo.case01_dir Demo.with_tables
    = (Raise (Exc (LibraryError "model failed")), s')
    /\ st_log s' = st_log Demo.staged ++ List.map EvRemoveTable Demo.staged_tables
    /\ (forall t, In t Demo.staged_tables ->
          w_db (st_world s') !! (DET_DB_SCHEMA, t) = None)
    /\ w_fs (st_world s')
       = (if is_dir (joinpath Demo.case01_dir [OUTPUTS_FOLDER_NAME])
               (w_fs Demo.after_failing_model)
          then put_node (joinpath Demo.case01_dir [OUTPUTS_FOLDER_NAME]) None
                 (w_fs Demo.after_failing_model)
          else w_fs Demo.after_failing_model)
    /\ is_dir (joinpath Demo.case01_dir [OUTPUTS_FOLDER_NAME]) (w_fs (st_world s')) = false.
Proof.
  apply (model_exception_is_cleaned_up (E := Demo.failing) "compare" Demo.case01_dir
           Demo.with_tables Demo.staged Demo.staged_tables
           (LibraryError "model failed")
           Demo.after_failing_model);
    vm_compute; reflexivity.
Defined.

(** C4 as stated fails for a model that ends with [sys.exit(1)]: [SystemExit]
    is not an [Exception], the [except] clause does not run, the exit comes
    out of the case run and both staged tables are still in the database. *)
Lemma exit_from_model_skips_the_cleanup :
  @main_model Demo.data Demo.exiting (st_world Demo.staged)
  = (Some (SystemExit 1), st_world Demo.staged)
  /\ fst (run_case (E := Demo.exiting) "compare" Demo.case01_dir Demo.with_tables)
     = Raise (SystemExit 1)
  /\ st_log (snd (run_case (E := Demo.exiting) "compare" Demo.case01_dir Demo.with_tables))
     = List.map EvAddTable Demo.staged_tables
  /\ w_db (st_world (snd (run_case (E := Demo.exiting) "compare" Demo.case01_dir
                            Demo.with_tables)))
       !! (DET_DB_SCHEMA, "prices_1700000000000") = Some "p"
  /\ w_db (st_world (snd (run_case (E := Demo.exiting) "compare" Demo.case01_dir
                            Demo.with_tables)))
       !! (DET_DB_SCHEMA, "volumes_1700000000000") = Some "v".
Proof. repeat split; vm_compute; reflexivity. Qed.

(** ** A new case folder is empty *)

Lemma parse_digits_numeral (d : Decimal.uint) (acc : Z) (after_digit : bool) :
  parse_digits (NilEmpty.string_of_uint d) acc after_digit
  = match d with
    | Decimal.Nil => if after_digit then Some acc else None
    | _ => Some (uint_value d acc)
    end.
Proof.
  revert acc after_digit.
  induction d as [|d IH|d IH|d IH|d IH|d IH|d IH|d IH|d IH|d IH|d IH];
    intros acc b; [reflexivity | ..];
    cbn [NilEmpty.string_of_uint parse_digits uint_value];
    (match goal with
     | |- (if is_digit ?c then _ else _) = _ =>
         change (is_digit c) with true; cbv iota
     end);
    rewrite IH; destruct d; reflexivity.
Qed.

Lemma all_digits_numeral (d : Decimal.uint) :
  all_digits (NilEmpty.string_of_uint d) = true.
Proof.
  induction d; [reflexivity | ..];
    cbn [NilEmpty.string_of_uint]; apply all_digits_cons; split;
    solve [reflexivity | assumption].
Qed.

Lemma uint_value_acc (d : Decimal.uint) (acc : positive) :
  uint_value d (Z.pos acc) = Z.pos (Pos.of_uint_acc d acc).
Proof.
  revert acc. induction d; intros acc; [reflexivity | ..];
    cbn [uint_value Pos.of_uint_acc];
    (etransitivity; [| apply IHd]); f_equal; lia.
Qed.

Lemma uint_value_of_uint (d : Decimal.uint) :
  uint_value d 0 = Z.of_N (Pos.of_uint d).
Proof.
  induction d; [reflexivity | exact IHd | ..];
    cbn [uint_value Pos.of_uint Z.of_N]; rewrite <- uint_value_acc; reflexivity.
Qed.

(** [int] reads back what [f"{n:02d}"] wrote, for a positive [n]. *)
Lemma py_int_format_02d (n : Z) : (1 <= n)%Z -> py_int (format_02d n) = Some n.
Proof.
  intros Hn. destruct n as [|p|p]; try lia. clear Hn.
  unfold format_02d, str_of_int. cbn [Z.to_int NilZero.string_of_int].
  pose proof (DecimalPos.Unsigned.of_to p) as Hp.
  set (d := Pos.to_uint p) in *.
  assert (Hd : d <> Decimal.Nil) by (intros Heq; rewrite Heq in Hp; discriminate Hp).
  assert (Hs : NilZero.string_of_uint d = NilEmpty.string_of_uint d)
    by (destruct d; [congruence | reflexivity ..]).
  rewrite Hs.
  assert (Hval : uint_value d 0 = Z.pos p) by (now rewrite uint_value_of_uint, Hp).
  assert (Hne : NilEmpty.string_of_uint d <> "") by (destruct d; [congruence | discriminate ..]).
  destruct (Nat.ltb _ 2).
  - rewrite py_int_all_digits; [| discriminate |].
    + change (parse_digits ("0" ++ NilEmpty.string_of_uint d) 0 false)
        with (parse_digits (NilEmpty.string_of_uint d) 0 true).
      rewrite parse_digits_numeral, <- Hval. destruct d; [congruence | reflexivity ..].
    + apply all_digits_cons. split; [reflexivity | apply all_digits_numeral].
  - rewrite py_int_all_digits; [| assumption | apply all_digits_numeral].
    rewrite parse_digits_numeral, <- Hval. destruct d; [congruence | reflexivity ..].
Qed.

Lemma In_insert_sorted (x y : string) (l : list string) :
  In y (insert_sorted x l) <-> y = x \/ In y l.
Proof.
  induction l as [|z l IH]; simpl.
  - intuition.
  - destruct (String.leb x z); simpl; [intuition | rewrite IH; intuition].
Qed.

Lemma In_sort_names (y : string) (l : list string) : In y (sort_names l) <-> In y l.
Proof.
  induction l as [|x l IH]; simpl; [reflexivity |].
  rewrite In_insert_sorted, IH. intuition.
Qed.

Lemma entry_get_dir_listed (name : string) (es es' : list (string * node)) :
  entry_get name es = Some (Dir es') -> In name (dirnames es).
Proof.
  unfold dirnames. induction es as [|[k v] es IH]; simpl; [discriminate |].
  destruct (String.eqb k name) eqn:Hk.
  - apply String.eqb_eq in Hk as ->. intros [= ->]. simpl. now left.
  - intros Hget. destruct v; simpl; auto.
Qed.

Lemma name_of_app (p : path) (name : string) : name_of (p ++ [name]) = name.
Proof. unfold name_of. apply last_last. Qed.

Lemma case_numbers_of_In (cases : list path) (ns : list Z) (c : path) :
  case_numbers_of cases = inr ns -> In c cases ->
  exists n,
    py_int (String.substring 4 (String.length (name_of c) - 4) (name_of c)) = Some n
    /\ In n ns.
Proof.
  revert ns. induction cases as [|c' cases IH]; intros ns Hns; [intros [] |].
  cbn [case_numbers_of] in Hns.
  destruct (py_int (String.substring 4 (String.length (name_of c') - 4) (name_of c')))
    as [n |] eqn:Hn; [| discriminate].
  destruct (case_numbers_of cases) as [e | ns']; [discriminate |].
  injection Hns as <-. intros [<- | Hin].
  - exists n. split; [assumption | now left].
  - destruct (IH ns' eq_refl Hin) as (m & Hm & Hin'). exists m. split; [assumption | now right].
Qed.

Lemma new_case_number_free (case_numbers : list Z) (n : Z) :
  new_case_number_of case_numbers = inr n -> (1 <= n)%Z /\ ~ In n case_numbers.
Proof.
  unfold new_case_number_of. destruct (py_min _) as [m |] eqn:Hmin; [| discriminate].
  intros [= <-]. apply py_min_spec in Hmin as [Hin _].
  apply filter_In in Hin as [Hrange Hfree]. apply In_py_range in Hrange.
  split; [lia |]. rewrite <- py_in_spec. now destruct (py_in m case_numbers).
Qed.

Lemma mkdirs_fresh (at_ p : path) (fs fs' : node) :
  mkdirs at_ p fs = inr fs' -> lookup_node p fs = None ->
  lookup_node p fs' = Some (Dir []).
Proof.
  revert at_ fs fs'. induction p as [|name rest IH]; intros at_ fs fs'; [discriminate 2 |].
  destruct fs as [data | es]; [discriminate |]. cbn [mkdirs lookup_node].
  destruct (entry_get name es) as [c |] eqn:Hc.
  - destruct (mkdirs _ rest c) as [e | c'] eqn:Hmk; [discriminate |].
    intros [= <-] Hnone. cbn [lookup_node]. rewrite entry_get_set. eauto.
  - destruct (mkdirs _ rest (Dir [])) as [e | c'] eqn:Hmk; [discriminate |].
    intros [= <-] _. cbn [lookup_node]. rewrite entry_get_set.
    destruct rest as [|r rest]; [now injection Hmk as <- |].
    now apply (IH _ _ _ Hmk).
Qed.

Lemma mkdirs_on_file (at_ p : path) (fs : node) (data : string) :
  lookup_node p fs = Some (File data) -> exists e, mkdirs at_ p fs = inl e.
Proof.
  revert at_ fs. induction p as [|name rest IH]; intros at_ fs; simpl.
  - intros [= ->]. eauto.
  - destruct fs as [d | es]; [discriminate |].
    destruct (entry_get name es) as [c |]; [| discriminate].
    intros Hc. destruct (IH (at_ ++ [name]) c Hc) as [e ->]. eauto.
Qed.

Section NewCase.
Context {D : Data} {E : External}.

Lemma fs_update_run (f : node -> exception + node) (s : state) :
  fs_update f s
  = (match f (w_fs (st_world s)) with
     | inl e => (Raise (Exc e), s)
     | inr fs' => (Ok tt, State (set_fs (st_world s) fs') (st_log s))
     end : result unit * state).
Proof.
  unfold fs_update, bind, get_world. cbn.
  destruct (f (w_fs (st_world s))); reflexivity.
Qed.

Lemma find_cases_run (s : state) :
  find_cases s
  = (Ok (List.map (fun name => joinpath CASES_DIR [name])
           (sort_names
              match lookup_node CASES_DIR (w_fs (st_world s)) with
              | Some (Dir es) =>
                  List.filter (fun name => startswith name "Case") (dirnames es)
              | _ => []
              end)), s).
Proof. reflexivity. Qed.

(** The folder [create_new_case_folder] returns is a directory with nothing
    in it: the name it picks is not the name of an existing case directory,
    because that directory's number would have been taken.  Only the file
    system has changed. *)
Lemma create_new_case_folder_fresh (s s' : state) (new_case_dir : path) :
  create_new_case_folder s = (Ok new_case_dir, s') ->
  lookup_node new_case_dir (w_fs (st_world s')) = Some (Dir [])
  /\ st_log s' = st_log s
  /\ w_db (st_world s') = w_db (st_world s).
Proof.
  unfold create_new_case_folder. intros Hrun.
  apply bind_inv in Hrun as [(cases & s0 & Hfind & Hrun) | (e & _ & [=])].
  assert (Hcases : s0 = s /\ forall name es es',
             lookup_node CASES_DIR (w_fs (st_world s)) = Some (Dir es) ->
             entry_get name es = Some (Dir es') ->
             startswith name "Case" = true ->
             In (joinpath CASES_DIR [name]) cases).
  { rewrite find_cases_run in Hfind.
    remember (lookup_node CASES_DIR (w_fs (st_world s))) as dir eqn:Hdir0.
    injection Hfind as <- <-.
    split; [reflexivity |]. intros name es es' Hdir Hget Hcase. rewrite Hdir.
    apply (in_map (fun name => joinpath CASES_DIR [name])).
    apply In_sort_names. apply filter_In.
    split; [eapply entry_get_dir_listed; eassumption | assumption]. }
  destruct Hcases as [-> Hcases]. clear Hfind.
  apply bind_inv in Hrun as [(ns & s0 & Hns & Hrun) | (e & _ & [=])].
  apply lift_inv in Hns as [-> Hns].
  destruct (case_numbers_of cases) as [e | ns'] eqn:Hnumbers; [discriminate |].
  injection Hns as ->.
  apply bind_inv in Hrun as [(n & s0 & Hn & Hrun) | (e & _ & [=])].
  apply lift_inv in Hn as [-> Hn].
  destruct (new_case_number_of ns') as [e | n'] eqn:Hnew; [discriminate |].
  injection Hn as ->.
  apply new_case_number_free in Hnew as [Hpos Hfree].
  apply bind_inv in Hrun as [([] & s1 & Hmk & Hrun) | (e & _ & [=])].
  injection Hrun as <- <-.
  unfold mkdir_parents_exist_ok in Hmk. rewrite fs_update_run in Hmk.
  destruct (mkdirs _ _ _) as [e | fs'] eqn:Hmkdirs; [discriminate |].
  injection Hmk as <-. cbn [st_world st_log set_fs w_fs w_db]. split; [| auto].
  apply (mkdirs_fresh _ _ _ _ Hmkdirs).
  destruct (lookup_node (joinpath CASES_DIR [("Case" ++ format_02d n')%string])
              (w_fs (st_world s))) as [[data | es'] |] eqn:Hexists; [| | reflexivity].
  - destruct (mkdirs_on_file [] _ _ _ Hexists) as [e He]. congruence.
  - exfalso. apply Hfree.
    unfold joinpath in Hexists. rewrite lookup_node_app in Hexists.
    destruct (lookup_node CASES_DIR _) as [[d | es] |] eqn:Hdir; try discriminate.
    simpl in Hexists.
    destruct (entry_get _ es) as [c |] eqn:Hget; [| discriminate].
    injection Hexists as ->.
    specialize (Hcases _ es es' eq_refl Hget eq_refl).
    destruct (case_numbers_of_In _ _ _ Hnumbers Hcases) as (m & Hm & Hin).
    unfold joinpath in Hm. rewrite name_of_app, case_name_suffix in Hm.
    rewrite py_int_format_02d in Hm by assumption. now injection Hm as <-.
Qed.

End NewCase.

(** ** Mock tables and the case run *)

Section CaseRun.
Context {D : Data} {E : External}.

Global Instance quiet_db_refl : Reflexive quiet_db.
Proof. intros s. split; reflexivity. Qed.
Global Instance quiet_db_trans : Transitive quiet_db.
Proof. intros a b c [H1 H2] [H3 H4]. split; congruence. Qed.

Lemma db_events_app (l l' : list event) :
  db_events (l ++ l') = db_events l ++ db_events l'.
Proof. apply List.filter_app. Qed.

Lemma db_events_added (names : list string) :
  db_events (List.map EvAddTable names) = List.map EvAddTable names.
Proof. induction names; simpl; congruence. Qed.

Lemma db_events_removed (names : list string) :
  db_events (List.map EvRemoveTable names) = List.map EvRemoveTable names.
Proof. induction names; simpl; congruence. Qed.

Lemma quiet_fs_update (f : node -> exception + node) : preserves quiet_db (fs_update f).
Proof.
  intros s. rewrite fs_update_run. destruct (f _); split; reflexivity.
Qed.

Lemma quiet_emit (ev : event) : is_db_event ev = false -> preserves quiet_db (emit ev).
Proof.
  intros Hev s. split; [reflexivity |]. simpl.
  rewrite db_events_app. simpl. rewrite Hev. apply app_nil_r.
Qed.

Lemma quiet_chdir (p : path) : preserves quiet_db (chdir p).
Proof.
  intros s. unfold chdir, bind, get_world. cbn.
  destruct (lookup_node p _) as [[data | es] |]; split; reflexivity.
Qed.

(** Walk through the binds of a computation that leaves the database alone. *)
Ltac keeps_quiet :=
  repeat first
    [ apply preserves_ret | apply preserves_raise | apply preserves_lift
    | apply preserves_get_world | apply preserves_path_is_dir
    | apply preserves_open_read | apply quiet_fs_update | apply quiet_chdir
    | (apply quiet_emit; reflexivity)
    | (apply preserves_bind; [typeclasses eauto | | intro])
    | (apply preserves_for_each; [typeclasses eauto | typeclasses eauto | intros ? _])
    | (apply preserves_try_except; [typeclasses eauto | | intro])
    | match goal with
      | |- preserves _ (if ?b then _ else _) => destruct b
      | |- preserves _ (match ?x with _ => _ end) => destruct x
      end ];
  try typeclasses eauto.

Lemma quiet_assert_file (out exp : path) : preserves quiet_db (assert_file out exp).
Proof.
  unfold assert_file, assert_csv, assert_json, assert_npz, assert_member, npz_getitem.
  keeps_quiet.
Qed.

Lemma quiet_compare_outputs (exp out : path) : preserves quiet_db (compare_outputs exp out).
Proof.
  unfold compare_outputs. keeps_quiet. unfold assert_output, rmtree. keeps_quiet.
  apply quiet_assert_file.
Qed.

Lemma quiet_copy_outputs (src dst : path) : preserves quiet_db (copy_outputs src dst).
Proof.
  unfold copy_outputs, rmtree, mkdir_parents_exist_ok, copy2. keeps_quiet.
Qed.

Lemma quiet_process_outputs (run_type : string) (exp out : path) :
  preserves quiet_db (process_outputs run_type exp out ;;; rmtree out).
Proof.
  apply preserves_bind; [typeclasses eauto | | intros _; apply quiet_fs_update].
  unfold process_outputs.
  destruct (String.eqb run_type "create"); [apply quiet_copy_outputs |].
  destruct (String.eqb run_type "update"); [apply quiet_copy_outputs |].
  destruct (String.eqb run_type "compare"); [apply quiet_compare_outputs |].
  apply preserves_ret. typeclasses eauto.
Qed.

Lemma only_env_chdir (p : path) : preserves only_env (chdir p).
Proof.
  intros s. unfold chdir, bind, get_world. cbn.
  destruct (lookup_node p _) as [[data | es] |]; repeat split; reflexivity.
Qed.

Lemma path_is_dir_run (p : path) (s : state) :
  path_is_dir p s = (Ok (is_dir p (w_fs (st_world s))), s).
Proof. reflexivity. Qed.

(** A case without a [_Database] folder stages nothing. *)
Lemma dump_without_database (case_dir : path) (s : state) :
  is_dir (joinpath case_dir [INPUTS_FOLDER_NAME; DATABASE_FOLDER_NAME])
    (w_fs (st_world s)) = false ->
  dump_mock_data_in_db case_dir s = (Ok [], s).
Proof.
  intros Hdir. unfold dump_mock_data_in_db.
  rewrite (bind_ok _ _ _ _ _ (path_is_dir_run _ s)), Hdir. reflexivity.
Qed.

Lemma settled_start (s : state) : settled s s.
Proof. exists []. simpl. rewrite app_nil_r. split; [reflexivity | intros t []]. Qed.

Lemma settled_quiet (s s1 s2 : state) : settled s s1 -> quiet_db s1 s2 -> settled s s2.
Proof.
  intros (created & Hlog & Hdb) [Hdb' Hlog']. exists created.
  rewrite Hlog', Hdb'. auto.
Qed.

Lemma quiet_settled (s s1 s2 : state) : quiet_db s s1 -> settled s1 s2 -> settled s s2.
Proof.
  intros [_ Hlog] (created & Hlog' & Hdb). exists created.
  rewrite Hlog', Hlog. auto.
Qed.

(** Processing the inputs of a case that, in create mode, has no
    [_Database] folder: when it returns, the tables it names were created and
    that is all the database saw; when it raises, the database calls are
    settled. *)
Lemma process_inputs_spec (run_type : string) (case_dir : path) (s s' : state)
    (r : result (list string)) :
  (run_type = "create" ->
   is_dir (joinpath case_dir [INPUTS_FOLDER_NAME; DATABASE_FOLDER_NAME])
     (w_fs (st_world s)) = false) ->
  process_inputs run_type case_dir s = (r, s') ->
  match r with
  | Ok table_names =>
      db_events (st_log s') = db_events (st_log s) ++ List.map EvAddTable table_names
  | Raise r => (exists e, r = Exc e) /\ settled s s'
  end.
Proof.
  intros Hfresh Hrun. unfold process_inputs in Hrun.
  apply bind_inv in Hrun as [(table_names & s1 & Hdump & Hrun) | (e & Hdump & ->)].
  2: { apply dump_mock_data_in_db_spec in Hdump as (_ & He & added & Hlog & Hdb).
       split; [exact He |]. exists added. split; [| exact Hdb].
       rewrite Hlog, !db_events_app, db_events_added, db_events_removed. reflexivity. }
  destruct (String.eqb_spec run_type "create") as [Hcreate | Hother].
  - rewrite (dump_without_database _ _ (Hfresh Hcreate)) in Hdump.
    injection Hdump as <- <-.
    apply bind_inv in Hrun as [([] & s2 & Hcopy & Hrun) | (e & Hcopy & ->)].
    + injection Hrun as <- <-.
      destruct (preserves_run quiet_db _ _ _ _ (quiet_fs_update _) Hcopy) as [_ ->].
      simpl. now rewrite app_nil_r.
    + split; [exact (no_exit_run _ _ _ _ (no_exit_fs_update _) Hcopy) |].
      apply (settled_quiet s s); [apply settled_start |].
      exact (preserves_run quiet_db _ _ _ _ (quiet_fs_update _) Hcopy).
  - apply dump_mock_data_in_db_spec in Hdump as (_ & Hlog).
    apply bind_inv in Hrun as [([] & s2 & Hret & Hrun) | (e & [=] & _)].
    injection Hret as <-. injection Hrun as <- <-.
    now rewrite Hlog, db_events_app, db_events_added.
Qed.

(** C2 (amended).  Take any case run: in compare or update mode any case, in
    create mode the folder [create_new_case_folder] has just made.  Unless the
    run ends in [SystemExit], every mock table the run created has been
    dropped exactly once when its outcome surfaces: the database calls the
    run added to the log are the creations followed by one drop for each
    created table, and none of those tables is in the database. *)
Theorem mock_tables_do_not_outlive_the_run (run_type : string) (case_dir : path)
    (s : state) :
  (run_type = "create" -> exists s0, create_new_case_folder s0 = (Ok case_dir, s)) ->
  (forall code, fst (run_case run_type case_dir s) <> Raise (SystemExit code)) ->
  exists created,
    db_events (st_log (snd (run_case run_type case_dir s)))
    = db_events (st_log s) ++ List.map EvAddTable created
        ++ List.map EvRemoveTable created
    /\ forall t, In t created ->
         w_db (st_world (snd (run_case run_type case_dir s))) !! (DET_DB_SCHEMA, t) = None.
Proof.
  intros Hcreate Hno_exit.
  destruct (run_case run_type case_dir s) as [r s'] eqn:Hrun.
  cbn [fst snd] in *. change (settled s s').
  unfold run_case in Hrun.
  apply bind_inv in Hrun as [([] & s0 & Hchdir & Hrun) | (e & Hchdir & ->)].
  2: { apply (settled_quiet s s); [apply settled_start |].
       exact (preserves_run quiet_db _ _ _ _ (quiet_chdir _) Hchdir). }
  pose proof (preserves_run quiet_db _ _ _ _ (quiet_chdir _) Hchdir) as Hq0.
  destruct (preserves_run only_env _ _ _ _ (only_env_chdir _) Hchdir) as (_ & _ & Hfs0).
  clear Hchdir.
  assert (Hfresh : run_type = "create" ->
                   is_dir (joinpath case_dir [INPUTS_FOLDER_NAME; DATABASE_FOLDER_NAME])
                     (w_fs (st_world s0)) = false).
  { intros Hmode. destruct (Hcreate Hmode) as [s00 Hnew].
    apply create_new_case_folder_fresh in Hnew as (Hempty & _).
    unfold is_dir, joinpath. rewrite Hfs0, lookup_node_app, Hempty. reflexivity. }
  apply bind_inv in Hrun as [(table_names & s1 & Hinputs & Hrun) | (e & Hinputs & ->)];
    apply (process_inputs_spec _ _ _ _ _ Hfresh) in Hinputs.
  - (* the inputs are processed; the model runs *)
    pose proof (run_model_spec table_names (joinpath case_dir [OUTPUTS_FOLDER_NAME]) s1)
      as Hmodel.
    destruct (main_model (st_world s1)) as [[[e | code] |] w2].
    + rewrite (bind_raise _ _ _ _ _ Hmodel) in Hrun. injection Hrun as <- <-.
      apply (quiet_settled s s0); [exact Hq0 |]. exists table_names. simpl.
      rewrite db_events_app, db_events_removed, Hinputs, <- app_assoc.
      split; [reflexivity | intros t Ht; now apply drop_tables_dropped].
    + rewrite (bind_raise _ _ _ _ _ Hmodel) in Hrun. injection Hrun as <- <-.
      now destruct (Hno_exit code).
    + rewrite (bind_ok _ _ _ _ _ Hmodel) in Hrun.
      eapply settled_quiet;
        [| exact (preserves_run quiet_db _ _ _ _ (quiet_process_outputs _ _ _) Hrun)].
      apply (quiet_settled s s0); [exact Hq0 |]. exists table_names. simpl.
      rewrite db_events_app, db_events_removed, Hinputs, <- app_assoc.
      split; [reflexivity | intros t Ht; now apply drop_tables_dropped].
  - (* processing the inputs raised *)
    destruct Hinputs as [_ Hsettled]. now apply (quiet_settled s s0).
Qed.

End CaseRun.

(** A compare run of the case with two tables: both are created, both are
    dropped, the database is empty. *)
Lemma mock_tables_do_not_outlive_the_run_witness :
  exists created,
    db_events (st_log (snd (run_case (E := Demo.repo) "compare" Demo.case01_dir
                              Demo.with_tables)))
    = db_events (st_log Demo.with_tables) ++ List.map EvAddTable created
        ++ List.map EvRemoveTable created
    /\ forall t, In t created ->
         w_db (st_world (snd (run_case (E := Demo.repo) "compare" Demo.case01_dir
                                Demo.with_tables)))
           !! (DET_DB_SCHEMA, t) = None.
Proof.
  apply (mock_tables_do_not_outlive_the_run (E := Demo.repo) "compare"
           Demo.case01_dir Demo.with_tables).
  - discriminate.
  - intros code. vm_compute. discriminate.
Defined.

Example compare_run_drops_both_tables :
  db_events (st_log (snd (run_case (E := Demo.repo) "compare" Demo.case01_dir
                            Demo.with_tables)))
  = List.map EvAddTable Demo.staged_tables ++ List.map EvRemoveTable Demo.staged_tables
  /\ w_db (st_world (snd (run_case (E := Demo.repo) "compare" Demo.case01_dir
                            Demo.with_tables))) = ∅.
Proof. split; vm_compute; reflexivity. Qed.

(** C2 as stated fails when the model run ends with [sys.exit(1)]: the run's
    outcome is the exit, the table [prices] was created, it was never
    dropped, and it is still in the database. *)
Lemma exiting_model_leaves_mock_tables :
  fst (run_case (E := Demo.exiting) "compare" Demo.case01_dir Demo.with_tables)
  = Raise (SystemExit 1)
  /\ In (EvAddTable "prices_1700000000000")
       (st_log (snd (run_case (E := Demo.exiting) "compare" Demo.case01_dir
                       Demo.with_tables)))
  /\ ~ In (EvRemoveTable "prices_1700000000000")
         (st_log (snd (run_case (E := Demo.exiting) "compare" Demo.case01_dir
                         Demo.with_tables)))
  /\ w_db (st_world (snd (run_case (E := Demo.exiting) "compare" Demo.case01_dir
                            Demo.with_tables)))
       !! (DET_DB_SCHEMA, "prices_1700000000000") <> None.
Proof.
  split; [vm_compute; reflexivity |].
  split; [vm_compute; auto |].
  split; [vm_compute; intros [H | [H | []]]; discriminate H |].
  vm_compute. discriminate.
Qed.

(** ** Storing expected outputs *)

Section CopyOutputs.
Context {D : Data} {E : External}.

(** [copy_outputs] starts with [shutil.rmtree(dst)]: without a destination
    folder it raises [FileNotFoundError] and nothing is copied. *)
Lemma copy_outputs_without_destination (src dst : path) (s : state) :
  lookup_node dst (w_fs (st_world s)) = None ->
  copy_outputs src dst s = (Raise (Exc (FileNotFoundError dst)), s).
Proof.
  intros Hdst. unfold copy_outputs. apply bind_raise.
  unfold rmtree. rewrite fs_update_run. unfold rmtree_fs. now rewrite Hdst.
Qed.

End CopyOutputs.

(** C6 fails on the code.  Create mode on a project that has inputs and no
    case yet: the new case folder [Case01] is made, the inputs are copied,
    the model runs and writes [Outputs/df.csv]; then [copy_outputs] asks
    [shutil.rmtree] to delete [Case01/ExpectedOutputs], which does not exist,
    and the run ends in [FileNotFoundError].  No expected outputs are stored,
    and [Outputs] is left behind. *)
Theorem create_mode_fails_on_a_new_case :
  fst (test_snapshots (E := Demo.repo) "create" (Demo.initial Demo.project))
  = Raise (Exc (FileNotFoundError
                  (joinpath CASES_DIR ["Case01"; EXPECTED_OUTPUTS_FOLDER])))
  /\ w_fs (st_world (snd (test_snapshots (E := Demo.repo) "create"
                            (Demo.initial Demo.project))))
     = Dir [("Inputs", Dir [("Settings.json", File "null")]);
            ("tests", Dir [("snapshots", Dir [("Cases", Dir [
               ("Case01", Dir [
                  ("Inputs", Dir [("Settings.json", File "null")]);
                  ("Outputs", Dir [("df.csv", File src_main.df_csv)])])])])])].
Proof. split; vm_compute; reflexivity. Qed.

(** Update mode has the same start: a case without [ExpectedOutputs] cannot
    be updated. *)
Example update_mode_needs_expected_outputs :
  fst (run_case (E := Demo.repo) "update" Demo.case01_dir
         (Demo.initial (Dir [("tests", Dir [("snapshots", Dir [("Cases", Dir [
            ("Case01", Dir [])])])])])))
  = Raise (Exc (FileNotFoundError (joinpath Demo.case01_dir [EXPECTED_OUTPUTS_FOLDER]))).
Proof. vm_compute. reflexivity. Qed.

(** Where the folder exists, update mode replaces its content by the fresh
    outputs. *)
Example update_mode_overwrites_expected_outputs :
  run_case (E := Demo.repo) "update" Demo.case01_dir
    (Demo.initial (Demo.case01_run "stale" []))
  = (Ok tt,
     State (World Demo.data
              (Dir [("tests", Dir [("snapshots", Dir [("Cases", Dir [
                 ("Case01", Dir [
                    ("ExpectedOutputs", Dir [("df.csv", File src_main.df_csv)])])])])])])
              Demo.case01_dir ∅ ∅ 1700000000000) []).
Proof. vm_compute. reflexivity. Qed.

(** Files with the suffix [.html] are not copied, and a folder that holds
    nothing else is not made. *)
Example copy_outputs_skips_html :
  w_fs (st_world (snd (copy_outputs (D := Demo.data) Demo.case01_outputs
                         Demo.case01_expected
                         (Demo.initial (Demo.case01_run "stale" Demo.extra_files)))))
  = Dir [("tests", Dir [("snapshots", Dir [("Cases", Dir [
       ("Case01", Dir [
          ("Outputs", Dir (("df.csv", File src_main.df_csv) :: Demo.extra_files));
          ("ExpectedOutputs",
           Dir [("df.csv", File src_main.df_csv); ("extra.txt", File "junk")])])])])])].
Proof. vm_compute. reflexivity. Qed.

(** ** Tables *)

Section Tables.
Context {D : Data} {E : External}.

(** Two tables that load: [assert_csv] asks pandas once, with absolute
    tolerance 1e-8 and relative tolerance 0, and pandas' verdict is its own. *)
Lemma csv_comparison_is_pandas_verdict (out exp : path) (s : state) (b1 b2 : string)
    (data expected_data : frame) :
  read_bytes out (w_fs (st_world s)) = inr b1 -> read_csv b1 = inr data ->
  read_bytes exp (w_fs (st_world s)) = inr b2 -> read_csv b2 = inr expected_data ->
  assert_csv out exp s
  = (match assert_frame_equal data expected_data 1e-8%float 0%Z with
     | Some e => Raise (Exc e)
     | None => Ok tt
     end,
     State (st_world s) (st_log s ++ [EvFrameEqual 1e-8%float 0%Z])).
Proof.
  intros Hout Hdata Hexp Hexpected. unfold assert_csv.
  rewrite (bind_ok _ _ _ _ _ (open_read_run _ _ _ Hout)), Hdata.
  unfold lift at 1. unfold bind at 1, ret at 1.
  rewrite (bind_ok _ _ _ _ _ (open_read_run _ _ _ Hexp)), Hexpected.
  unfold lift, bind, ret, emit. cbn.
  change ABSOLUTE_TOLERANCE with 1e-8%float. change RELATIVE_TOLERANCE with 0%Z.
  destruct (assert_frame_equal data expected_data 1e-8%float 0%Z); reflexivity.
Qed.

End Tables.

(** ** The whole entry point on examples *)

(** Cases [Case01] and [Case03] exist: the folder made is [Case02]. *)
Example new_case_folder_fills_the_gap :
  fst (create_new_case_folder (D := Demo.data)
         (Demo.initial (Dir [("tests", Dir [("snapshots", Dir [("Cases", Dir [
            ("Case03", Dir []); ("Case01", Dir []); ("notes.txt", File "n")])])])])))
  = Ok (joinpath CASES_DIR ["Case02"]).
Proof. vm_compute. reflexivity. Qed.

(** A compare run of the repository's case: the model writes the data frame
    of the baseline, the comparison passes and [Outputs] is removed. *)
Example compare_run_passes :
  test_snapshots (E := Demo.repo) "compare"
    (Demo.initial (Demo.case01 src_main.df_csv "[]"))
  = (Ok tt,
     State (World Demo.data (Demo.case01 src_main.df_csv "[]") Demo.case01_dir ∅ ∅
              1700000000000)
       [EvAssertFile ["df.csv"]; EvFrameEqual 1e-8%float 0%Z]).
Proof. vm_compute. reflexivity. Qed.

(** With another value in the baseline the comparison raises and [Outputs]
    is removed all the same. *)
Example compare_run_fails :
  fst (test_snapshots (E := Demo.repo) "compare" (Demo.initial (Demo.case01 "x" "[]")))
  = Raise (Exc (AssertionError "Not equal to tolerance"))
  /\ w_fs (st_world (snd (test_snapshots (E := Demo.repo) "compare"
                            (Demo.initial (Demo.case01 "x" "[]")))))
     = Demo.case01 "x" "[]".
Proof. split; vm_compute; reflexivity. Qed.

Example invalid_run_type :
  fst (test_snapshots (E := Demo.repo) "delete" (Demo.initial Demo.project))
  = Raise (Exc (ValueError
      "Invalid input 'run_type'='delete'. Accepted values: 'compare', 'update', 'create'.")).
Proof. reflexivity. Qed.

(** * Further properties of the harness *)

Lemma ascii_compare_trans (a b c : ascii) (o : comparison) :
  Ascii.compare a b = o -> Ascii.compare b c = o -> Ascii.compare a c = o.
Proof.
  unfold Ascii.compare. destruct o.
  - rewrite !N.compare_eq_iff. congruence.
  - rewrite !N.compare_lt_iff. lia.
  - rewrite !N.compare_gt_iff. lia.
Qed.

Lemma ascii_compare_eq (a b : ascii) : Ascii.compare a b = Eq -> a = b.
Proof.
  unfold Ascii.compare. rewrite N.compare_eq_iff. intros H.
  rewrite <- (ascii_N_embedding a), <- (ascii_N_embedding b). now rewrite H.
Qed.

Lemma ascii_compare_refl (a : ascii) : Ascii.compare a a = Eq.
Proof. unfold Ascii.compare. apply N.compare_refl. Qed.

Lemma string_compare_trans (s1 s2 s3 : string) (o : comparison) :
  String.compare s1 s2 = o -> String.compare s2 s3 = o -> String.compare s1 s3 = o.
Proof.
  revert s2 s3. induction s1 as [|a s1 IH]; intros [|b s2] [|c s3]; simpl; try congruence.
  destruct (Ascii.compare a b) eqn:Hab, (Ascii.compare b c) eqn:Hbc;
    try (intros; congruence).
  - apply ascii_compare_eq in Hab as ->. apply ascii_compare_eq in Hbc as ->.
    rewrite ascii_compare_refl. apply IH.
  - apply ascii_compare_eq in Hab as ->. rewrite Hbc. congruence.
  - apply ascii_compare_eq in Hab as ->. rewrite Hbc. congruence.
  - apply ascii_compare_eq in Hbc as ->. rewrite Hab. congruence.
  - rewrite (ascii_compare_trans a b c Lt Hab Hbc). congruence.
  - apply ascii_compare_eq in Hbc as ->. rewrite Hab. congruence.
  - rewrite (ascii_compare_trans a b c Gt Hab Hbc). congruence.
Qed.

Lemma string_leb_trans (s1 s2 s3 : string) :
  String.leb s1 s2 = true -> String.leb s2 s3 = true -> String.leb s1 s3 = true.
Proof.
  unfold String.leb.
  destruct (String.compare s1 s2) eqn:H12; [| | discriminate];
    destruct (String.compare s2 s3) eqn:H23; try discriminate; intros _ _.
  - now rewrite (string_compare_trans _ _ _ _ H12 H23).
  - apply String.compare_eq_iff in H12 as ->. now rewrite H23.
  - apply String.compare_eq_iff in H23 as <-. now rewrite H12.
  - now rewrite (string_compare_trans _ _ _ _ H12 H23).
Qed.

(** ** More file-system facts *)

Lemma entry_get_set_ne (k name : string) (v : node) (es : list (string * node)) :
  k <> name -> entry_get k (entry_set name v es) = entry_get k es.
Proof.
  intros Hne. induction es as [|[k0 v0] es IH]; simpl.
  - destruct (String.eqb name k) eqn:H; [| reflexivity].
    apply String.eqb_eq in H. congruence.
  - destruct (String.eqb k0 name) eqn:H0; simpl.
    + apply String.eqb_eq in H0 as ->.
      destruct (String.eqb name k) eqn:H; [| reflexivity].
      apply String.eqb_eq in H. congruence.
    + now rewrite IH.
Qed.

Lemma entry_get_del_ne (k name : string) (es : list (string * node)) :
  k <> name -> entry_get k (entry_del name es) = entry_get k es.
Proof.
  intros Hne. induction es as [|[k0 v0] es IH]; simpl; [reflexivity |].
  destruct (String.eqb k0 name) eqn:H0; simpl.
  - apply String.eqb_eq in H0 as ->.
    destruct (String.eqb name k) eqn:H; [| assumption].
    apply String.eqb_eq in H. congruence.
  - now rewrite IH.
Qed.

Lemma entry_set_same (name : string) (c : node) (es : list (string * node)) :
  entry_get name es = Some c -> entry_set name c es = es.
Proof.
  induction es as [|[k v] es IH]; simpl; [discriminate |].
  destruct (String.eqb k name) eqn:Hk.
  - now intros [= ->].
  - intros H. now rewrite IH.
Qed.

Lemma entry_get_In (name : string) (c : node) (es : list (string * node)) :
  entry_get name es = Some c -> In (name, c) es.
Proof.
  induction es as [|[k v] es IH]; simpl; [discriminate |].
  destruct (String.eqb k name) eqn:Hk.
  - apply String.eqb_eq in Hk as ->. intros [= ->]. now left.
  - intros H. right. auto.
Qed.

Lemma apart_sym (p q : path) : apart p q = apart q p.
Proof.
  revert q. induction p as [|a p IH]; intros [|b q]; simpl; trivial.
  rewrite (String.eqb_sym b a). destruct (String.eqb a b); auto.
Qed.

Lemma apart_app_l (p q r : path) : apart p q = true -> apart (p ++ r) q = true.
Proof.
  revert q. induction p as [|a p IH]; intros [|b q]; simpl; try discriminate.
  destruct (String.eqb a b); auto.
Qed.

Lemma apart_app_r (p q r : path) : apart p q = true -> apart p (q ++ r) = true.
Proof. rewrite !(apart_sym p). apply apart_app_l. Qed.

Lemma apart_not_prefix (p q : path) : apart p q = true -> is_prefix p q = false.
Proof.
  revert q. induction p as [|a p IH]; intros [|b q]; simpl; try discriminate; trivial.
  destruct (String.eqb a b); simpl; auto.
Qed.

Lemma is_prefix_app (p q : path) : is_prefix p (p ++ q) = true.
Proof. induction p as [|a p IH]; simpl; [reflexivity |]. now rewrite String.eqb_refl. Qed.

Lemma is_prefix_inv (p q : path) : is_prefix p q = true -> exists r, q = p ++ r.
Proof.
  revert q. induction p as [|a p IH]; intros q; simpl; [eauto |].
  destruct q as [|b q]; [discriminate |].
  intros H. apply andb_true_iff in H as [Hab Hp]. apply String.eqb_eq in Hab as ->.
  destruct (IH _ Hp) as [r ->]. eauto.
Qed.

(** Writing at [p] is not seen from a path that leaves [p]. *)
Lemma lookup_put_apart (p q : path) (v : option node) (fs : node) :
  apart p q = true -> lookup_node q (put_node p v fs) = lookup_node q fs.
Proof.
  revert q fs. induction p as [|a p IH]; intros [|b q] fs; simpl; try discriminate.
  destruct fs as [data | es]; [reflexivity |].
  destruct (String.eqb a b) eqn:Hab.
  - apply String.eqb_eq in Hab as <-. intros Hpq.
    destruct p as [|r p]; [discriminate Hpq |].
    destruct (entry_get a es) as [c |] eqn:Hc; cbn [lookup_node].
    + rewrite entry_get_set. now apply IH.
    + now rewrite Hc.
  - intros _. assert (Hne : b <> a).
    { intros ->. now rewrite String.eqb_refl in Hab. }
    destruct p as [|r p].
    + destruct v; cbn [lookup_node];
        [rewrite entry_get_set_ne | rewrite entry_get_del_ne]; auto.
    + destruct (entry_get a es) as [c |] eqn:Hc; cbn [lookup_node]; [| reflexivity].
      now rewrite entry_get_set_ne.
Qed.

Lemma put_node_cons (b : string) (rest : path) (v : option node)
    (es : list (string * node)) :
  rest <> [] ->
  put_node (b :: rest) v (Dir es)
  = match entry_get b es with
    | Some c => Dir (entry_set b (put_node rest v c) es)
    | None => Dir es
    end.
Proof. destruct rest; [congruence | reflexivity]. Qed.

(** What was put at [p] is found there, when the parent of [p] is a
    directory. *)
Lemma lookup_put_same (r : path) (a : string) (v : node) (fs : node) :
  is_dir r fs = true ->
  lookup_node (r ++ [a]) (put_node (r ++ [a]) (Some v) fs) = Some v.
Proof.
  unfold is_dir. revert fs. induction r as [|b r IH]; intros fs.
  - destruct fs as [data | es]; [discriminate |]. intros _. simpl.
    now rewrite entry_get_set.
  - rewrite <- app_comm_cons. cbn [lookup_node].
    destruct fs as [data | es]; [discriminate |].
    destruct (entry_get b es) as [c |] eqn:Hc; [| discriminate].
    intros Hdir. rewrite put_node_cons, Hc by now destruct r.
    cbn [lookup_node]. rewrite entry_get_set. now apply IH.
Qed.

Lemma is_dir_app (p q : path) (fs : node) :
  is_dir (p ++ q) fs = true -> is_dir p fs = true.
Proof.
  unfold is_dir. rewrite lookup_node_app.
  destruct (lookup_node p fs) as [[data | es] |]; trivial.
  destruct q; simpl; discriminate.
Qed.

Lemma removelast_snoc (p : path) (a : string) : removelast (p ++ [a]) = p.
Proof. apply removelast_last. Qed.

Lemma is_dir_stat (p : path) (fs : node) :
  is_dir p fs = match stat p fs with Some None => true | _ => false end.
Proof. unfold is_dir, stat. now destruct (lookup_node p fs) as [[] |]. Qed.

Lemma file_at_stat (p : path) (fs : node) :
  file_at p fs = match stat p fs with Some (Some d) => Some d | _ => None end.
Proof. unfold file_at, stat. now destruct (lookup_node p fs) as [[] |]. Qed.

Lemma stat_cons (a : string) (q : path) (es : list (string * node)) :
  stat (a :: q) (Dir es)
  = match entry_get a es with Some c => stat q c | None => None end.
Proof. unfold stat. simpl. now destruct (entry_get a es). Qed.

Lemma stat_cons_file (a : string) (q : path) (data : string) :
  stat (a :: q) (File data) = None.
Proof. reflexivity. Qed.

(** [shutil.rmtree] and the rest of the tree: everything at or below [p] is
    gone, everything else is what it was. *)
Lemma stat_put_none (p q : path) (fs : node) :
  p <> [] ->
  stat q (put_node p None fs) = if is_prefix p q then None else stat q fs.
Proof.
  revert q fs. induction p as [|a p IH]; intros q fs Hp; [congruence |].
  destruct fs as [data | es].
  { destruct q as [|b q]; simpl; [reflexivity |].
    now destruct (String.eqb a b && is_prefix p q). }
  destruct q as [|b q]; [simpl; now destruct p; [| destruct (entry_get a es)] |].
  cbn [is_prefix]. destruct (String.eqb a b) eqn:Hab.
  - apply String.eqb_eq in Hab as <-. cbn [andb].
    destruct p as [|r p].
    + cbn [put_node is_prefix]. rewrite stat_cons, entry_get_del. reflexivity.
    + rewrite put_node_cons by discriminate. rewrite !stat_cons.
      destruct (entry_get a es) as [c |] eqn:Hc.
      * rewrite stat_cons, entry_get_set. now apply IH.
      * rewrite stat_cons, Hc. now destruct (is_prefix (r :: p) q).
  - cbn [andb]. assert (Hne : b <> a).
    { intros ->. now rewrite String.eqb_refl in Hab. }
    destruct p as [|r p].
    + cbn [put_node]. now rewrite !stat_cons, entry_get_del_ne.
    + rewrite put_node_cons by discriminate.
      destruct (entry_get a es) as [c |] eqn:Hc; [| reflexivity].
      now rewrite !stat_cons, entry_get_set_ne.
Qed.

(** Writing a file at [p], whose parent is a directory and which is not a
    directory itself: [p] is that file, everything else is what it was. *)
Lemma stat_put_file (p q : path) (data : string) (fs : node) :
  p <> [] -> is_dir (removelast p) fs = true -> is_dir p fs = false ->
  stat q (put_node p (Some (File data)) fs)
  = if decide (q = p) then Some (Some data) else stat q fs.
Proof.
  revert q fs. induction p as [|a p IH]; intros q fs Hp; [congruence |].
  destruct fs as [d0 | es]; [now destruct p |].
  destruct p as [|r p].
  - intros _ Hnd. cbn [put_node].
    destruct q as [|b q].
    { now case_decide. }
    rewrite !stat_cons. destruct (decide (b = a)) as [-> | Hne].
    + rewrite entry_get_set.
      destruct q as [|x q].
      * case_decide; [reflexivity | congruence].
      * case_decide; [congruence |].
        unfold is_dir in Hnd. simpl in Hnd.
        destruct (entry_get a es) as [[d1 | es1] |]; [| discriminate |]; reflexivity.
    + rewrite entry_get_set_ne by assumption.
      case_decide; [congruence | reflexivity].
  - intros Hdir Hnd. rewrite put_node_cons by discriminate.
    assert (Hparent : exists c, entry_get a es = Some c
                                /\ is_dir (removelast (r :: p)) c = true
                                /\ is_dir (r :: p) c = false).
    { unfold is_dir in *. cbn [removelast] in Hdir.
      change (removelast (a :: r :: p)) with (a :: removelast (r :: p)) in Hdir.
      cbn [lookup_node] in Hdir, Hnd.
      destruct (entry_get a es) as [c |]; [| discriminate]. eauto. }
    destruct Hparent as (c & Hc & Hdirc & Hndc). rewrite Hc.
    destruct q as [|b q].
    { now case_decide. }
    rewrite !stat_cons. destruct (decide (b = a)) as [-> | Hne].
    + rewrite entry_get_set, Hc, (IH q c) by (trivial; discriminate).
      repeat case_decide; congruence.
    + rewrite entry_get_set_ne by assumption.
      case_decide; [congruence | reflexivity].
Qed.

(** [mkdir(parents=True, exist_ok=True)] and the rest of the tree: [p] and
    the directories above it are directories, everything else is what it
    was. *)
Lemma stat_mkdirs (at_ p q : path) (fs fs' : node) :
  mkdirs at_ p fs = inr fs' ->
  stat q fs' = if is_prefix q p then Some None else stat q fs.
Proof.
  revert at_ q fs fs'. induction p as [|a p IH]; intros at_ q fs fs'.
  - destruct fs as [data | es]; [discriminate |]. intros [= <-].
    now destruct q.
  - destruct fs as [data | es]; [discriminate |]. cbn [mkdirs].
    destruct (mkdirs (at_ ++ [a]) p _) as [e | c'] eqn:Hmk; [discriminate |].
    intros [= <-]. destruct q as [|b q]; [reflexivity |].
    rewrite !stat_cons. cbn [is_prefix].
    destruct (String.eqb b a) eqn:Hba.
    + apply String.eqb_eq in Hba as ->. rewrite entry_get_set. cbn [andb].
      rewrite (IH _ q _ _ Hmk).
      destruct (entry_get a es) as [c |]; [reflexivity |].
      destruct (is_prefix q p) eqn:Hqp; [reflexivity |].
      destruct q; [discriminate Hqp | reflexivity].
    + cbn [andb]. rewrite entry_get_set_ne; [reflexivity |].
      intros ->. now rewrite String.eqb_refl in Hba.
Qed.

Lemma lookup_mkdirs_apart (at_ p q : path) (fs fs' : node) :
  apart p q = true -> mkdirs at_ p fs = inr fs' ->
  lookup_node q fs' = lookup_node q fs.
Proof.
  revert at_ q fs fs'. induction p as [|a p IH]; intros at_ [|b q] fs fs';
    simpl; try discriminate.
  destruct fs as [data | es]; [discriminate |].
  destruct (mkdirs (at_ ++ [a]) p _) as [e | c'] eqn:Hmk; [discriminate |].
  destruct (String.eqb a b) eqn:Hab.
  - apply String.eqb_eq in Hab as <-. intros Hpq [= <-]. cbn [lookup_node].
    rewrite entry_get_set.
    destruct (entry_get a es) as [c |]; [now apply (IH _ _ _ _ Hpq Hmk) |].
    rewrite (IH _ _ _ _ Hpq Hmk). destruct q; [destruct p; discriminate | reflexivity].
  - intros _ [= <-]. cbn [lookup_node]. rewrite entry_get_set_ne; [reflexivity |].
    intros ->. now rewrite String.eqb_refl in Hab.
Qed.

(** [mkdir] fails only on a regular file in its way. *)
Lemma mkdirs_succeeds (at_ p : path) (fs : node) :
  (forall r, is_prefix r p = true -> file_at r fs = None) ->
  exists fs', mkdirs at_ p fs = inr fs'.
Proof.
  revert at_ fs. induction p as [|a p IH]; intros at_ fs Hfree.
  - specialize (Hfree [] eq_refl). destruct fs; [discriminate | simpl; eauto].
  - pose proof (Hfree [] eq_refl) as Hroot.
    destruct fs as [data | es]; [discriminate |]. cbn [mkdirs].
    destruct (IH (at_ ++ [a])
                (match entry_get a es with Some c => c | None => Dir [] end))
      as [c' ->]; [| eauto].
    intros r Hr. specialize (Hfree (a :: r)). cbn [is_prefix] in Hfree.
    rewrite String.eqb_refl in Hfree. specialize (Hfree Hr).
    unfold file_at in *. cbn [lookup_node] in Hfree.
    destruct (entry_get a es) as [c |]; [assumption |].
    destruct r; reflexivity.
Qed.

Lemma mkdirs_existing (at_ p : path) (fs : node) :
  is_dir p fs = true -> mkdirs at_ p fs = inr fs.
Proof.
  unfold is_dir. revert at_ fs. induction p as [|a p IH]; intros at_ fs.
  - now destruct fs.
  - destruct fs as [data | es]; [discriminate |]. cbn [lookup_node mkdirs].
    destruct (entry_get a es) as [c |] eqn:Hc; [| discriminate].
    intros Hdir. rewrite (IH _ _ Hdir). now rewrite entry_set_same.
Qed.

Lemma is_prefix_refl (p : path) : is_prefix p p = true.
Proof. induction p as [|a p IH]; simpl; [reflexivity |]. now rewrite String.eqb_refl. Qed.

Lemma is_prefix_app_inv (p q r : path) :
  is_prefix (p ++ q) (p ++ r) = is_prefix q r.
Proof. induction p as [|a p IH]; simpl; [reflexivity |]. now rewrite String.eqb_refl. Qed.

Lemma stat_app (p q : path) (fs : node) :
  stat (p ++ q) fs
  = match lookup_node p fs with Some n => stat q n | None => None end.
Proof. unfold stat. rewrite lookup_node_app. now destruct (lookup_node p fs). Qed.

(** Above a directory there are only directories. *)
Lemma is_dir_prefix (r p : path) (fs : node) :
  is_prefix r p = true -> is_dir p fs = true -> is_dir r fs = true.
Proof.
  intros Hr Hp. apply is_prefix_inv in Hr as [q ->]. eapply is_dir_app, Hp.
Qed.

(** ** Finding the cases *)

Lemma In_entry_get (name : string) (c : node) (es : list (string * node)) :
  names_distinct (List.map fst es) = true ->
  In (name, c) es -> entry_get name es = Some c.
Proof.
  rewrite names_distinct_NoDup.
  induction es as [|[k v] es IH]; simpl; [intros _ [] |].
  intros Hnd. inversion Hnd as [|? ? Hk Hes]; subst.
  intros [[= -> ->] | Hin].
  - now rewrite String.eqb_refl.
  - destruct (String.eqb k name) eqn:Hkn; [| auto].
    apply String.eqb_eq in Hkn as ->. exfalso. apply Hk.
    apply in_map_iff. now exists (name, c).
Qed.

Lemma unique_names_entry (name : string) (c : node) (es : list (string * node)) :
  unique_names (Dir es) = true -> entry_get name es = Some c -> unique_names c = true.
Proof.
  cbn [unique_names]. intros H Hget. apply andb_true_iff in H as [_ H].
  rewrite forallb_forall in H. apply (H (name, c)). now apply entry_get_In.
Qed.

Lemma unique_names_lookup (p : path) (fs n : node) :
  unique_names fs = true -> lookup_node p fs = Some n -> unique_names n = true.
Proof.
  revert fs. induction p as [|a p IH]; intros fs Hfs; simpl.
  - now intros [= <-].
  - destruct fs as [data | es]; [discriminate |].
    destruct (entry_get a es) as [c |] eqn:Hc; [| discriminate].
    apply IH. eapply unique_names_entry; eassumption.
Qed.

Lemma In_dirnames (name : string) (es : list (string * node)) :
  In name (dirnames es) <-> exists es', In (name, Dir es') es.
Proof.
  unfold dirnames. rewrite in_map_iff. split.
  - intros ([k [d | es']] & <- & Hin); apply filter_In in Hin as [Hin Hd];
      [discriminate | eauto].
  - intros [es' Hin]. exists (name, Dir es'). split; [reflexivity |].
    apply filter_In. auto.
Qed.

Lemma In_filenames (name : string) (es : list (string * node)) :
  In name (filenames es) <-> exists data, In (name, File data) es.
Proof.
  unfold filenames. rewrite in_map_iff. split.
  - intros ([k [d | es']] & <- & Hin); apply filter_In in Hin as [Hin Hd];
      [eauto | discriminate].
  - intros [d Hin]. exists (name, File d). split; [reflexivity |].
    apply filter_In. auto.
Qed.

Lemma insert_sorted_perm (x : string) (l : list string) :
  Permutation (insert_sorted x l) (x :: l).
Proof.
  induction l as [|y l IH]; simpl; [reflexivity |].
  destruct (String.leb x y); [reflexivity |].
  rewrite IH. apply perm_swap.
Qed.

Lemma sort_names_perm (l : list string) : Permutation (sort_names l) l.
Proof.
  induction l as [|x l IH]; simpl; [reflexivity |].
  rewrite insert_sorted_perm. now constructor.
Qed.

Lemma insert_sorted_sorted (x : string) (l : list string) :
  StronglySorted (fun a b => String.leb a b = true) l ->
  StronglySorted (fun a b => String.leb a b = true) (insert_sorted x l).
Proof.
  induction 1 as [|y l Hl IH Hy]; simpl.
  - repeat constructor.
  - destruct (String.leb x y) eqn:Hxy.
    + constructor; [now constructor |]. constructor; [assumption |].
      rewrite List.Forall_forall in *. intros z Hz.
      eapply string_leb_trans; eauto.
    + constructor; [assumption |].
      rewrite List.Forall_forall in *. intros z Hz.
      apply In_insert_sorted in Hz as [-> | Hz]; [| auto].
      destruct (String.leb_total x y) as [H | H]; congruence.
Qed.

Lemma sort_names_sorted (l : list string) :
  StronglySorted (fun a b => String.leb a b = true) (sort_names l).
Proof.
  induction l as [|x l IH]; simpl; [constructor | now apply insert_sorted_sorted].
Qed.

Lemma StronglySorted_map {A B} (R : B -> B -> Prop) (f : A -> B) (l : list A) :
  StronglySorted (fun a b => R (f a) (f b)) l <-> StronglySorted R (List.map f l).
Proof.
  induction l as [|x l IH]; simpl.
  - split; constructor.
  - split; intros H; inversion H as [|? ? Hl Hx]; subst; constructor;
      try (now apply IH); rewrite List.Forall_forall in *.
    + intros y Hy. apply in_map_iff in Hy as (z & <- & Hz). auto.
    + intros y Hy. apply Hx. now apply in_map.
Qed.

Lemma StronglySorted_impl {A} (R R' : A -> A -> Prop) (l : list A) :
  (forall a b, R a b -> R' a b) -> StronglySorted R l -> StronglySorted R' l.
Proof.
  intros HR. induction 1 as [|x l Hl IH Hx]; constructor; [assumption |].
  rewrite List.Forall_forall in *. auto.
Qed.

Section FindCases.
Context {D : Data} {E : External}.

(** X1.  [find_cases] never fails and changes nothing.  On a file system whose
    directories list every name once, the cases it returns are exactly the
    directories directly below [Cases] whose name starts with [Case], each
    once, in ascending order of their names. *)
Theorem find_cases_lists_the_case_folders (s : state) :
  unique_names (w_fs (st_world s)) = true ->
  exists cases,
    find_cases s = (Ok cases, s)
    /\ (forall c, In c cases <->
          exists name, c = joinpath CASES_DIR [name]
                       /\ startswith name "Case" = true
                       /\ is_dir c (w_fs (st_world s)) = true)
    /\ StronglySorted (fun a b => String.leb (name_of a) (name_of b) = true) cases
    /\ List.NoDup cases.
Proof.
  intros Hwf. rewrite find_cases_run. eexists. split; [reflexivity |].
  remember (lookup_node CASES_DIR (w_fs (st_world s))) as dir eqn:Hdir.
  symmetry in Hdir.
  assert (Hin : forall name,
             In name match dir with
                     | Some (Dir es) =>
                         List.filter (fun name => startswith name "Case") (dirnames es)
                     | _ => []
                     end
             <-> startswith name "Case" = true
                 /\ is_dir (joinpath CASES_DIR [name]) (w_fs (st_world s)) = true).
  { intros name. unfold is_dir, joinpath. rewrite lookup_node_app, Hdir.
    destruct dir as [[data | es] |]; simpl; [intuition discriminate | | intuition discriminate].
    rewrite filter_In, In_dirnames. 
    pose proof (unique_names_lookup _ _ _ Hwf Hdir) as Hes.
    cbn [unique_names] in Hes. apply andb_true_iff in Hes as [Hes _].
    split.
    - intros [[es' Hin] Hcase]. split; [assumption |].
      now rewrite (In_entry_get _ _ _ Hes Hin).
    - intros [Hcase Hget]. split; [| assumption].
      destruct (entry_get name es) as [[data | es'] |] eqn:Hg; try discriminate.
      exists es'. now apply entry_get_In. }
  split; [| split].
  - intros c. rewrite in_map_iff. split.
    + intros (name & <- & Hname). apply In_sort_names, Hin in Hname as [Hcase Hd].
      exists name. auto.
    + intros (name & -> & Hcase & Hd). exists name. split; [reflexivity |].
      apply In_sort_names, Hin. auto.
  - apply StronglySorted_map.
    eapply StronglySorted_impl; [| apply sort_names_sorted].
    intros a b Hab. unfold joinpath. now rewrite !name_of_app.
  - apply Finite.Injective_map_NoDup.
    + intros a b Hab. unfold joinpath in Hab. now apply app_inv_head in Hab as [= ->].
    + eapply Permutation_NoDup; [symmetry; apply sort_names_perm |].
      destruct dir as [[data | es] |]; try constructor.
      apply List.NoDup_filter.
      pose proof (unique_names_lookup _ _ _ Hwf Hdir) as Hes.
      cbn [unique_names] in Hes. apply andb_true_iff in Hes as [Hes _].
      apply names_distinct_NoDup in Hes. unfold dirnames.
      clear - Hes. induction es as [|[k [d | es']] es IH]; simpl in *;
        inversion Hes; subst; auto.
      constructor; [| auto]. rewrite in_map_iff. intros ([k' v'] & Hk & Hin).
      simpl in Hk. subst k'. apply filter_In in Hin as [Hin _].
      apply H1. apply in_map_iff. now exists (k, v').
Qed.

End FindCases.

Lemma find_cases_lists_the_case_folders_witness :
  exists cases,
    find_cases Demo.two_cases = (Ok cases, Demo.two_cases)
    /\ (forall c, In c cases <->
          exists name, c = joinpath CASES_DIR [name]
                       /\ startswith name "Case" = true
                       /\ is_dir c (w_fs (st_world Demo.two_cases)) = true)
    /\ StronglySorted (fun a b => String.leb (name_of a) (name_of b) = true) cases
    /\ List.NoDup cases.
Proof. apply (find_cases_lists_the_case_folders Demo.two_cases). reflexivity. Defined.

(** ** Numbering and making a case folder *)


Lemma new_case_number_of_spec (case_numbers : list Z) :
  match new_case_number_of case_numbers with
  | inl e =>
      e = ValueError "min() arg is an empty sequence"
      /\ case_numbers <> [] /\ (forall c, In c case_numbers -> (c < 0)%Z)
  | inr n =>
      (case_numbers = [] \/ exists c, In c case_numbers /\ (0 <= c)%Z)
      /\ (1 <= n)%Z /\ ~ In n case_numbers
      /\ (forall m, (1 <= m < n)%Z -> In m case_numbers)
  end.
Proof.
  unfold new_case_number_of.
  set (mx := if Nat.ltb 0 (List.length case_numbers)
             then match py_max case_numbers with Some m => m | None => 0%Z end
             else 0%Z).
  assert (Hmx : (forall c, In c case_numbers -> (c <= mx)%Z)
                /\ (case_numbers = [] /\ mx = 0%Z \/ In mx case_numbers)).
  { subst mx. destruct case_numbers as [|c cs]; [simpl; split; [intros c [] | left; split; reflexivity] |].
    change (Nat.ltb 0 (List.length (c :: cs))) with true. cbv iota.
    split; [apply (py_max_spec (c :: cs) _ eq_refl) |]. right.
    simpl. clear. revert c. induction cs as [|x cs IH]; intros c; simpl; [now left |].
    destruct (IH (Z.max c x)) as [Heq | Hin]; [| now right; right].
    destruct (Z.max_spec c x) as [[_ H] | [_ H]]; rewrite H in *; auto. }
  destruct Hmx as [Hle Hmx].
  set (free := List.filter (fun c => negb (py_in c case_numbers))
                 (py_range 1 (mx + 2))).
  assert (Hfree : forall c, In c free <-> (1 <= c < mx + 2)%Z /\ ~ In c case_numbers).
  { intros c. subst free. rewrite filter_In, In_py_range, negb_true_iff.
    rewrite <- not_true_iff_false, py_in_spec. tauto. }
  destruct (py_min free) as [n |] eqn:Hmin.
  - destruct (py_min_spec _ _ Hmin) as [Hin Hleast].
    apply Hfree in Hin as [Hrange Hnot].
    split; [| split; [lia | split; [assumption |]]].
    + destruct Hmx as [[-> _] | Hin]; [now left | right].
      exists mx. split; [assumption | lia].
    + intros m Hm. destruct (py_in m case_numbers) eqn:Em; [now apply py_in_spec |].
      exfalso. assert (Hmfree : In m free).
      { apply Hfree. split; [lia |]. rewrite <- py_in_spec, Em. discriminate. }
      specialize (Hleast _ Hmfree). lia.
  - split; [reflexivity |].
    assert (Hneg : (mx < 0)%Z).
    { destruct (Z.lt_ge_cases mx 0) as [H | H]; [assumption | exfalso].
      assert (Htop : In (mx + 1)%Z free).
      { apply Hfree. split; [lia |]. intros Hin. specialize (Hle _ Hin). lia. }
      destruct (py_min_nonempty _ _ Htop) as [n Hn]. congruence. }
    split.
    + destruct Hmx as [[_ H0] | Hin]; [lia | now intros ->].
    + intros c Hc. specialize (Hle _ Hc). lia.
Qed.

(** X3.  The numbering fails in one situation only: there are cases and all of
    their numbers are negative, so that [range(1, max + 2)] is empty and
    [min] has nothing to choose from.  In every other situation it gives the
    least positive integer that is not in use. *)
Theorem numbering_fails_only_below_zero (case_numbers : list Z) :
  match new_case_number_of case_numbers with
  | inl e =>
      e = ValueError "min() arg is an empty sequence"
      /\ case_numbers <> [] /\ (forall c, In c case_numbers -> (c < 0)%Z)
  | inr n =>
      (case_numbers = [] \/ exists c, In c case_numbers /\ (0 <= c)%Z)
      /\ (1 <= n)%Z /\ ~ In n case_numbers
      /\ (forall m, (1 <= m < n)%Z -> In m case_numbers)
  end.
Proof. exact (new_case_number_of_spec case_numbers). Qed.

Lemma case_numbers_of_fails (cases : list path) (c : path) :
  In c cases ->
  py_int (String.substring 4 (String.length (name_of c) - 4) (name_of c)) = None ->
  case_numbers_of cases = inl (ValueError "invalid literal for int() with base 10").
Proof.
  intros Hin Hc. induction cases as [|c' cases IH]; [destruct Hin |].
  cbn [case_numbers_of].
  destruct (py_int (String.substring 4 (String.length (name_of c') - 4) (name_of c')))
    as [n |] eqn:Hn; [| reflexivity].
  destruct Hin as [-> | Hin]; [congruence |]. now rewrite (IH Hin).
Qed.

Lemma case_numbers_of_from (cases : list path) (ns : list Z) (n : Z) :
  case_numbers_of cases = inr ns -> In n ns ->
  exists c, In c cases
    /\ py_int (String.substring 4 (String.length (name_of c) - 4) (name_of c)) = Some n.
Proof.
  revert ns. induction cases as [|c cases IH]; intros ns; cbn [case_numbers_of].
  - intros [= <-] [].
  - destruct (py_int _) as [m |] eqn:Hm; [| discriminate].
    destruct (case_numbers_of cases) as [e | ns']; [discriminate |].
    intros [= <-] [<- | Hin].
    + exists c. split; [now left | assumption].
    + destruct (IH ns' eq_refl Hin) as (c' & Hc' & Hint). exists c'. split; [now right | assumption].
Qed.

Lemma entry_set_new (x : string) (v : node) (es : list (string * node)) :
  entry_get x es = None -> entry_set x v es = es ++ [(x, v)].
Proof.
  induction es as [|[k v0] es IH]; simpl; [reflexivity |].
  destruct (String.eqb k x); [discriminate |]. intros H. now rewrite IH.
Qed.

(** The directory above a folder that [mkdir] has just made lists what it
    listed before, and the new folder after that. *)
Lemma mkdirs_parent (at_ p : path) (x : string) (fs fs' : node) :
  mkdirs at_ (p ++ [x]) fs = inr fs' -> lookup_node (p ++ [x]) fs = None ->
  lookup_node p fs'
  = Some (Dir (match lookup_node p fs with Some (Dir es) => es | _ => [] end
               ++ [(x, Dir [])])).
Proof.
  revert at_ fs fs'. induction p as [|a p IH]; intros at_ fs fs'.
  - destruct fs as [data | es]; [discriminate |]. cbn [app mkdirs lookup_node].
    destruct (entry_get x es) as [c |] eqn:Hc; [discriminate 2 |].
    intros [= <-] _. now rewrite (entry_set_new _ _ _ Hc).
  - destruct fs as [data | es]; [discriminate |].
    rewrite <- app_comm_cons. cbn [mkdirs lookup_node].
    destruct (mkdirs (at_ ++ [a]) (p ++ [x]) _) as [e | c'] eqn:Hmk; [discriminate |].
    intros [= <-] Hnone. rewrite entry_get_set.
    rewrite (IH _ _ _ Hmk).
    + destruct (entry_get a es) as [c |]; [reflexivity |]. now destruct p.
    + destruct (entry_get a es) as [c |]; [assumption |]. now destruct p.
Qed.

Section NewCaseFolder.
Context {D : Data} {E : External}.

(** The steps of a successful [create_new_case_folder]. *)
Lemma create_new_case_folder_inv (s s' : state) (new_case_dir : path) :
  create_new_case_folder s = (Ok new_case_dir, s') ->
  exists cases case_numbers n fs',
    find_cases s = (Ok cases, s)
    /\ case_numbers_of cases = inr case_numbers
    /\ new_case_number_of case_numbers = inr n
    /\ new_case_dir = joinpath CASES_DIR [("Case" ++ format_02d n)%string]
    /\ mkdirs [] new_case_dir (w_fs (st_world s)) = inr fs'
    /\ s' = State (set_fs (st_world s) fs') (st_log s).
Proof.
  unfold create_new_case_folder. intros Hrun.
  apply bind_inv in Hrun as [(cases & s0 & Hfind & Hrun) | (e & _ & [=])].
  assert (s0 = s) as -> by (rewrite find_cases_run in Hfind; congruence).
  apply bind_inv in Hrun as [(ns & s0 & Hns & Hrun) | (e & _ & [=])].
  apply lift_inv in Hns as [-> Hns].
  destruct (case_numbers_of cases) as [e | ns'] eqn:Hnumbers; [discriminate |].
  injection Hns as ->.
  apply bind_inv in Hrun as [(n & s0 & Hn & Hrun) | (e & _ & [=])].
  apply lift_inv in Hn as [-> Hn].
  destruct (new_case_number_of ns') as [e | n'] eqn:Hnew; [discriminate |].
  injection Hn as ->.
  apply bind_inv in Hrun as [([] & s1 & Hmk & Hrun) | (e & _ & [=])].
  injection Hrun as <- <-.
  unfold mkdir_parents_exist_ok in Hmk. rewrite fs_update_run in Hmk.
  destruct (mkdirs _ _ _) as [e | fs'] eqn:Hmkdirs; [discriminate |].
  injection Hmk as <-. exists cases, ns', n', fs'. auto 10.
Qed.

(** A case folder that exists is among the cases [find_cases] returns. *)
Lemma find_cases_complete (s : state) (cases : list path) (name : string) :
  find_cases s = (Ok cases, s) ->
  is_dir (joinpath CASES_DIR [name]) (w_fs (st_world s)) = true ->
  startswith name "Case" = true ->
  In (joinpath CASES_DIR [name]) cases.
Proof.
  rewrite find_cases_run.
  remember (lookup_node CASES_DIR (w_fs (st_world s))) as dir eqn:Hdir0.
  intros [= <-]. unfold is_dir, joinpath. rewrite lookup_node_app, <- Hdir0.
  destruct dir as [[data | es] |]; try discriminate. simpl.
  destruct (entry_get name es) as [[data | es'] |] eqn:Hget; try discriminate.
  intros _ Hcase. apply (in_map (fun name => CASES_DIR ++ [name])).
  apply In_sort_names, filter_In.
  split; [eapply entry_get_dir_listed; eassumption | assumption].
Qed.

(** There was nothing at the path of the folder [create_new_case_folder]
    returns, and afterwards it is an empty directory. *)
Lemma new_case_folder_is_new_facts (s s' : state) (new_case_dir : path) :
  create_new_case_folder s = (Ok new_case_dir, s') ->
  lookup_node new_case_dir (w_fs (st_world s)) = None
  /\ lookup_node new_case_dir (w_fs (st_world s')) = Some (Dir []).
Proof.
  intros Hrun.
  destruct (create_new_case_folder_inv _ _ _ Hrun)
    as (cases & ns & n & fs' & Hfind & Hns & Hn & -> & Hmk & ->).
  pose proof (new_case_number_free _ _ Hn) as [Hpos Hfree].
  cbn [st_world st_log set_fs w_fs].
  assert (Hnew : lookup_node (joinpath CASES_DIR [("Case" ++ format_02d n)%string])
                   (w_fs (st_world s)) = None).
  { destruct (lookup_node _ (w_fs (st_world s))) as [[data | es'] |] eqn:Hexists;
      [| | reflexivity].
    - destruct (mkdirs_on_file [] _ _ _ Hexists) as [e He]. congruence.
    - exfalso. apply Hfree.
      assert (Hin : In (joinpath CASES_DIR [("Case" ++ format_02d n)%string]) cases).
      { apply (find_cases_complete s); [assumption | | reflexivity].
        unfold is_dir. now rewrite Hexists. }
      destruct (case_numbers_of_In _ _ _ Hns Hin) as (m & Hm & Hinm).
      unfold joinpath in Hm. rewrite name_of_app, case_name_suffix in Hm.
      rewrite py_int_format_02d in Hm by assumption. now injection Hm as <-. }
  split; [assumption | now apply (mkdirs_fresh _ _ _ _ Hmk)].
Qed.


End NewCaseFolder.


(** [int] reads a decimal numeral as the number it writes. *)
Lemma py_int_numeral (ds : string) (n : Z) :
  numeral_of ds n -> py_int ds = Some n /\ ds <> "" /\ all_digits ds = true /\ (0 <= n)%Z.
Proof.
  intros (d & Hd & -> & ->).
  assert (Hne : NilEmpty.string_of_uint d <> "") by (destruct d; [congruence | discriminate ..]).
  split; [| split; [assumption | split; [apply all_digits_numeral |]]].
  - rewrite py_int_all_digits by (trivial; apply all_digits_numeral).
    rewrite parse_digits_numeral, uint_value_of_uint. destruct d; [congruence | reflexivity ..].
  - unfold Z.of_uint. lia.
Qed.

(** What [f"{n:02d}"] writes for a positive [n] is a numeral of [n]. *)
Lemma format_02d_numeral (n : Z) : (1 <= n)%Z -> numeral_of (format_02d n) n.
Proof.
  intros Hn. destruct n as [|p|p]; try lia. clear Hn.
  unfold format_02d, str_of_int. cbn [Z.to_int NilZero.string_of_int].
  pose proof (DecimalPos.Unsigned.of_to p) as Hp.
  set (d := Pos.to_uint p) in *.
  assert (Hd : d <> Decimal.Nil) by (intros Heq; rewrite Heq in Hp; discriminate Hp).
  assert (Hs : NilZero.string_of_uint d = NilEmpty.string_of_uint d)
    by (destruct d; [congruence | reflexivity ..]).
  rewrite Hs.
  assert (Hval : Z.of_uint d = Z.pos p) by (unfold Z.of_uint; now rewrite Hp).
  destruct (Nat.ltb _ 2).
  - exists (Decimal.D0 d). split; [discriminate |]. split; [reflexivity |].
    rewrite <- Hval. reflexivity.
  - exists d. auto.
Qed.

(** [mkdir] fails when a regular file is in its way. *)
Lemma mkdirs_fails_on_file (at_ p q : path) (fs : node) :
  is_prefix q p = true -> is_file q fs = true -> exists e, mkdirs at_ p fs = inl e.
Proof.
  unfold is_file. revert at_ q fs. induction p as [|a p IH]; intros at_ q fs.
  - destruct q; [| discriminate]. simpl. destruct fs; [eauto | discriminate].
  - destruct q as [|b q].
    + simpl. destruct fs; [eauto | discriminate].
    + cbn [is_prefix]. intros Hq. apply andb_true_iff in Hq as [Hba Hq].
      apply String.eqb_eq in Hba as ->.
      destruct fs as [data | es]; [discriminate |]. cbn [lookup_node mkdirs].
      destruct (entry_get a es) as [c |]; [| discriminate].
      intros Hfile. destruct (IH (at_ ++ [a]) q c Hq Hfile) as [e ->]. eauto.
Qed.

Section Numbering.
Context {D : Data} {E : External}.

(** What [find_cases] returns are directories directly below [Cases] whose
    name starts with [Case]. *)
Lemma find_cases_sound (s : state) (cases : list path) (c : path) :
  unique_names (w_fs (st_world s)) = true ->
  find_cases s = (Ok cases, s) -> In c cases ->
  exists name, c = joinpath CASES_DIR [name]
               /\ startswith name "Case" = true
               /\ is_dir c (w_fs (st_world s)) = true.
Proof.
  intros Hwf. rewrite find_cases_run.
  remember (lookup_node CASES_DIR (w_fs (st_world s))) as dir eqn:Hdir. symmetry in Hdir.
  intros [= <-] Hin. apply in_map_iff in Hin as (name & <- & Hin).
  rewrite In_sort_names in Hin. exists name. split; [reflexivity |].
  destruct dir as [[data | es] |]; [destruct Hin | | destruct Hin].
  rewrite filter_In in Hin. destruct Hin as [Hlisted Hcase]. split; [assumption |].
  rewrite In_dirnames in Hlisted. destruct Hlisted as [es' Hlisted].
  pose proof (unique_names_lookup _ _ _ Hwf Hdir) as Hes.
  cbn [unique_names] in Hes. apply andb_true_iff in Hes as [Hes _].
  unfold is_dir. change (lookup_node _ (w_fs (st_world s)))
    with (lookup_node (CASES_DIR ++ [name]) (w_fs (st_world s))).
  rewrite lookup_node_app, Hdir. simpl.
  now rewrite (In_entry_get _ _ _ Hes Hlisted).
Qed.

(** C9.  Create-mode numbering fills gaps.  Take a file system in which every
    case directory (a directory directly below [Cases] whose name starts with
    [Case]) has a decimal numeral as its suffix.  Then [create_new_case_folder]
    picks the smallest positive integer [n] that is not the number of any of
    these directories, and the folder it makes is [Cases/Case<nn>] for that
    [n]: unless a regular file stands in the way of [mkdir], it returns that
    folder, which did not exist and is an empty directory afterwards, so that
    [n] is then the number of a case; with a file in the way it raises and
    nothing has changed. *)
Theorem create_numbering_fills_gaps (s : state) :
  unique_names (w_fs (st_world s)) = true ->
  (forall name, startswith name "Case" = true ->
     is_dir (joinpath CASES_DIR [name]) (w_fs (st_world s)) = true ->
     exists ds n, name = ("Case" ++ ds)%string /\ numeral_of ds n) ->
  exists n,
    (1 <= n)%Z
    /\ ~ case_number_in_use (w_fs (st_world s)) n
    /\ (forall m, (1 <= m < n)%Z -> case_number_in_use (w_fs (st_world s)) m)
    /\ ((forall q, is_prefix q (joinpath CASES_DIR [("Case" ++ format_02d n)%string]) = true ->
           is_file q (w_fs (st_world s)) = false) ->
        exists s',
          create_new_case_folder s
          = (Ok (joinpath CASES_DIR [("Case" ++ format_02d n)%string]), s')
          /\ lookup_node (joinpath CASES_DIR [("Case" ++ format_02d n)%string])
               (w_fs (st_world s)) = None
          /\ lookup_node (joinpath CASES_DIR [("Case" ++ format_02d n)%string])
               (w_fs (st_world s')) = Some (Dir [])
          /\ case_number_in_use (w_fs (st_world s')) n)
    /\ ((exists q, is_prefix q (joinpath CASES_DIR [("Case" ++ format_02d n)%string]) = true
                   /\ is_file q (w_fs (st_world s)) = true) ->
        exists e, create_new_case_folder s = (Raise (Exc e), s)).
Proof.
  intros Hwf Hnumeric.
  set (fs := w_fs (st_world s)) in *.
  destruct (find_cases s) as [r s0] eqn:Hfind.
  pose proof Hfind as Hfind0. rewrite find_cases_run in Hfind0.
  destruct r as [cases | r]; [| discriminate].
  assert (s0 = s) as -> by congruence. clear Hfind0.
  (* every case carries a numeral *)
  assert (Hcase : forall c, In c cases ->
            exists ds n, c = joinpath CASES_DIR [("Case" ++ ds)%string]
                         /\ numeral_of ds n
                         /\ is_dir c fs = true).
  { intros c Hc.
    destruct (find_cases_sound s cases c Hwf Hfind Hc) as (name & -> & Hstart & Hdir).
    destruct (Hnumeric name Hstart Hdir) as (ds & n & -> & Hnum). eauto 6. }
  assert (Hsuffix : forall ds, 
            String.substring 4 (String.length (name_of (joinpath CASES_DIR [("Case" ++ ds)%string])) - 4)
              (name_of (joinpath CASES_DIR [("Case" ++ ds)%string])) = ds).
  { intros ds. unfold joinpath. rewrite name_of_app. apply case_name_suffix. }
  destruct (case_numbers_of_numeric cases) as (ns & Hns & Hpos).
  { apply List.Forall_forall. intros c Hc.
    destruct (Hcase c Hc) as (ds & n & -> & Hnum & _).
    destruct (py_int_numeral ds n Hnum) as (_ & Hne & Hdigits & _).
    exists ds. unfold joinpath. rewrite name_of_app. auto. }
  destruct (new_case_number_least ns Hpos) as (n & Hn & Hn1 & Hfree & Hbelow).
  (* the numbers read are the numbers in use *)
  assert (Huse : forall m, In m ns <-> case_number_in_use fs m).
  { intros m. split.
    - intros Hm. destruct (case_numbers_of_from _ _ _ Hns Hm) as (c & Hc & Hint).
      destruct (Hcase c Hc) as (ds & m' & -> & Hnum & Hdir).
      rewrite Hsuffix in Hint.
      destruct (py_int_numeral ds m' Hnum) as (Hint' & _).
      assert (m' = m) as -> by congruence. exists ds. auto.
    - intros (ds & Hnum & Hdir).
      pose proof (find_cases_complete s cases _ Hfind Hdir eq_refl) as Hc.
      destruct (case_numbers_of_In _ _ _ Hns Hc) as (m' & Hint & Hin).
      rewrite Hsuffix in Hint.
      destruct (py_int_numeral ds m Hnum) as (Hint' & _). congruence. }
  exists n. split; [assumption |]. split; [now rewrite <- Huse |].
  split; [intros m Hm; apply Huse; auto |].
  set (new := joinpath CASES_DIR [("Case" ++ format_02d n)%string]).
  assert (Hrun : create_new_case_folder s
                 = match mkdirs [] new fs with
                   | inr fs' => (Ok new, State (set_fs (st_world s) fs') (st_log s))
                   | inl e => (Raise (Exc e), s)
                   end).
  { unfold create_new_case_folder. rewrite (bind_ok _ _ _ _ _ Hfind), Hns.
    unfold lift at 1. unfold bind at 1, ret at 1. rewrite Hn.
    unfold lift at 1. unfold bind at 1, ret at 1.
    unfold mkdir_parents_exist_ok, bind. rewrite fs_update_run. fold fs new.
    now destruct (mkdirs [] new fs). }
  split.
  - intros Hfree_way.
    destruct (mkdirs_succeeds [] new fs) as [fs' Hmk].
    { intros r Hr. specialize (Hfree_way r Hr). unfold is_file, file_at in *.
      now destruct (lookup_node r fs) as [[data | es] |]. }
    rewrite Hrun, Hmk. eexists. split; [reflexivity |].
    assert (Hnew : lookup_node new fs = None).
    { destruct (lookup_node new fs) as [[data | es] |] eqn:Hthere; [| | reflexivity].
      - specialize (Hfree_way new (is_prefix_refl new)). unfold is_file in Hfree_way.
        now rewrite Hthere in Hfree_way.
      - exfalso. apply Hfree, Huse. exists (format_02d n).
        split; [now apply format_02d_numeral |]. unfold is_dir. fold new. now rewrite Hthere. }
    split; [assumption |]. cbn [st_world set_fs w_fs].
    pose proof (mkdirs_fresh _ _ _ _ Hmk Hnew) as Hmade.
    split; [assumption |]. exists (format_02d n).
    split; [now apply format_02d_numeral |]. unfold is_dir. fold new. now rewrite Hmade.
  - intros (q & Hq & Hfile).
    destruct (mkdirs_fails_on_file [] new q fs Hq Hfile) as [e He].
    rewrite Hrun, He. eauto.
Qed.

End Numbering.

(** Cases [Case01] and [Case03], a text file and a file called [Casebook]. *)
Lemma create_numbering_fills_gaps_witness :
  exists n,
    (1 <= n)%Z
    /\ ~ case_number_in_use (w_fs (st_world Demo.two_cases)) n
    /\ (forall m, (1 <= m < n)%Z -> case_number_in_use (w_fs (st_world Demo.two_cases)) m)
    /\ ((forall q, is_prefix q (joinpath CASES_DIR [("Case" ++ format_02d n)%string]) = true ->
           is_file q (w_fs (st_world Demo.two_cases)) = false) ->
        exists s',
          create_new_case_folder Demo.two_cases
          = (Ok (joinpath CASES_DIR [("Case" ++ format_02d n)%string]), s')
          /\ lookup_node (joinpath CASES_DIR [("Case" ++ format_02d n)%string])
               (w_fs (st_world Demo.two_cases)) = None
          /\ lookup_node (joinpath CASES_DIR [("Case" ++ format_02d n)%string])
               (w_fs (st_world s')) = Some (Dir [])
          /\ case_number_in_use (w_fs (st_world s')) n)
    /\ ((exists q, is_prefix q (joinpath CASES_DIR [("Case" ++ format_02d n)%string]) = true
                   /\ is_file q (w_fs (st_world Demo.two_cases)) = true) ->
        exists e, create_new_case_folder Demo.two_cases = (Raise (Exc e), Demo.two_cases)).
Proof.
  apply (create_numbering_fills_gaps Demo.two_cases).
  - reflexivity.
  - intros name _ Hdir. unfold is_dir, joinpath in Hdir. rewrite lookup_node_app in Hdir.
    change (lookup_node CASES_DIR (w_fs (st_world Demo.two_cases)))
      with (Some (Dir [("Case03", Dir []); ("Case01", Dir []);
                       ("notes.txt", File "n"); ("Casebook", File "x")])) in Hdir.
    cbn [lookup_node entry_get] in Hdir.
    destruct (String.eqb_spec "Case03" name) as [Heq | _].
    { subst name. exists "03", 3%Z. split; [reflexivity |].
      exists (Decimal.D0 (Decimal.D3 Decimal.Nil)). repeat split. discriminate. }
    destruct (String.eqb_spec "Case01" name) as [Heq | _].
    { subst name. exists "01", 1%Z. split; [reflexivity |].
      exists (Decimal.D0 (Decimal.D1 Decimal.Nil)). repeat split. discriminate. }
    destruct (String.eqb "notes.txt" name); [discriminate |].
    destruct (String.eqb "Casebook" name); discriminate.
Defined.

(** With cases 1 and 3 the number is 2: 1 is in use, 2 is not. *)
Example two_is_the_gap :
  case_number_in_use (w_fs (st_world Demo.two_cases)) 1
  /\ ~ case_number_in_use (w_fs (st_world Demo.two_cases)) 2
  /\ fst (create_new_case_folder Demo.two_cases) = Ok (joinpath CASES_DIR ["Case02"]).
Proof.
  split; [| split; [| reflexivity]].
  - exists "01". split; [| reflexivity].
    exists (Decimal.D0 (Decimal.D1 Decimal.Nil)). repeat split. discriminate.
  - intros (ds & Hnum & Hdir). apply py_int_numeral in Hnum as (Hint & _).
    unfold is_dir, joinpath in Hdir. rewrite lookup_node_app in Hdir.
    change (lookup_node CASES_DIR (w_fs (st_world Demo.two_cases)))
      with (Some (Dir [("Case03", Dir []); ("Case01", Dir []);
                       ("notes.txt", File "n"); ("Casebook", File "x")])) in Hdir.
    cbn [lookup_node entry_get] in Hdir.
    pose proof (case_name_suffix ds) as Hds. cbv zeta in Hds.
    destruct (String.eqb_spec "Case03" ("Case" ++ ds)) as [Heq | _];
      [rewrite <- Heq in Hds; subst ds; discriminate Hint |].
    destruct (String.eqb_spec "Case01" ("Case" ++ ds)) as [Heq | _];
      [rewrite <- Heq in Hds; subst ds; discriminate Hint |].
    destruct (String.eqb "notes.txt" ("Case" ++ ds)); [discriminate |].
    destruct (String.eqb "Casebook" ("Case" ++ ds)); discriminate.
Qed.

(** A suffix with a sign is no numeral: [int] reads [Case-1] as -1, and with
    no other case there is no candidate for the new number. *)
Example signed_suffix_is_no_numeral :
  fst (create_new_case_folder (D := Demo.data)
         (Demo.initial (Demo.cases_folder [("Case-1", Dir [])])))
  = Raise (Exc (ValueError "min() arg is an empty sequence")).
Proof. vm_compute. reflexivity. Qed.

Lemma letter_is_nothing_else (c : ascii) :
  is_letter c = true ->
  is_space c = false /\ is_digit c = false /\ Ascii.eqb c "_" = false
  /\ Ascii.eqb c "-" = false /\ Ascii.eqb c "+" = false.
Proof.
  unfold is_letter, is_space, is_digit. cbv zeta. intros H.
  assert (Hn : 65 <= nat_of_ascii c <= 90 \/ 97 <= nat_of_ascii c <= 122).
  { apply orb_true_iff in H as [H | H]; apply andb_true_iff in H as [H1 H2];
      apply Nat.leb_le in H1, H2; lia. }
  clear H.
  assert (Hne : forall d : ascii, ~ (65 <= nat_of_ascii d <= 90 \/ 97 <= nat_of_ascii d <= 122) ->
                  Ascii.eqb c d = false).
  { intros d Hd. apply Ascii.eqb_neq. intros ->. contradiction. }
  repeat split.
  - apply orb_false_iff. split; [apply Nat.eqb_neq; lia |].
    apply andb_false_iff. right. apply Nat.leb_gt. lia.
  - apply andb_false_iff. right. apply Nat.leb_gt. lia.
  - apply Hne. change (nat_of_ascii "_") with 95. lia.
  - apply Hne. change (nat_of_ascii "-") with 45. lia.
  - apply Hne. change (nat_of_ascii "+") with 43. lia.
Qed.

Lemma parse_digits_letter (s : string) (acc : Z) (after_digit : bool) :
  has_letter s = true -> parse_digits s acc after_digit = None.
Proof.
  unfold has_letter. revert acc after_digit.
  induction s as [|c s IH]; intros acc b; [discriminate |].
  cbn [list_ascii_of_string List.existsb parse_digits].
  destruct (is_letter c) eqn:Hc.
  - intros _. destruct (letter_is_nothing_else c Hc) as (_ & -> & -> & _). reflexivity.
  - cbn [orb]. intros Hs. destruct (is_digit c); [now apply IH |].
    destruct (Ascii.eqb c "_" && b); [now apply IH | reflexivity].
Qed.

Lemma has_letter_rstrip (s : string) : has_letter s = true -> has_letter (rstrip s) = true.
Proof.
  unfold has_letter. induction s as [|c s IH]; [discriminate |].
  cbn [list_ascii_of_string List.existsb rstrip].
  destruct (is_letter c) eqn:Hc; cbn [orb].
  - intros _. destruct (letter_is_nothing_else c Hc) as (-> & _).
    destruct (rstrip s); cbn [list_ascii_of_string List.existsb]; now rewrite Hc.
  - intros Hs. specialize (IH Hs).
    destruct (rstrip s) as [|c' t]; [discriminate IH |].
    cbn [list_ascii_of_string List.existsb] in *. now rewrite Hc.
Qed.

Lemma has_letter_lstrip (s : string) : has_letter s = true -> has_letter (lstrip s) = true.
Proof.
  unfold has_letter. induction s as [|c s IH]; [discriminate |].
  cbn [list_ascii_of_string List.existsb lstrip].
  destruct (is_letter c) eqn:Hc; cbn [orb].
  - intros _. destruct (letter_is_nothing_else c Hc) as (-> & _).
    cbn [list_ascii_of_string List.existsb]. now rewrite Hc.
  - intros Hs. destruct (is_space c); [now apply IH |].
    cbn [list_ascii_of_string List.existsb]. now rewrite Hc.
Qed.

(** [int] refuses a text with a letter in it. *)
Lemma py_int_letter (s : string) : has_letter s = true -> py_int s = None.
Proof.
  intros Hs. apply has_letter_rstrip, has_letter_lstrip in Hs. unfold py_int.
  destruct (lstrip (rstrip s)) as [|c t]; [reflexivity |].
  destruct (is_letter c) eqn:Hc.
  - destruct (letter_is_nothing_else c Hc) as (_ & _ & _ & -> & ->).
    now apply parse_digits_letter.
  - assert (Ht : has_letter t = true).
    { unfold has_letter in *. cbn [list_ascii_of_string List.existsb] in Hs.
      now rewrite Hc in Hs. }
    destruct (Ascii.eqb c "-"); [now rewrite parse_digits_letter |].
    destruct (Ascii.eqb c "+"); [now apply parse_digits_letter |].
    now apply parse_digits_letter.
Qed.

Section NumberedCases.
Context {D : Data} {E : External}.

(** X5.  A folder in [Cases] whose name starts with [Case] and goes on with
    something that has a letter in it ([CaseStudy], [Case01_old]) makes
    create mode fail with the [ValueError] of [int], before anything is
    created. *)
Theorem create_needs_numbered_cases (s : state) (name : string) :
  is_dir (joinpath CASES_DIR [name]) (w_fs (st_world s)) = true ->
  startswith name "Case" = true ->
  has_letter (String.substring 4 (String.length name - 4) name) = true ->
  exists msg, create_new_case_folder s = (Raise (Exc (ValueError msg)), s).
Proof.
  intros Hdir Hcase Hletter. apply py_int_letter in Hletter.
  pose proof (find_cases_complete s _ name (find_cases_run s) Hdir Hcase) as Hin.
  unfold create_new_case_folder.
  rewrite (bind_ok _ _ _ _ _ (find_cases_run s)).
  rewrite (case_numbers_of_fails _ _ Hin);
    [| unfold joinpath; now rewrite name_of_app].
  eexists. reflexivity.
Qed.

End NumberedCases.

Lemma create_needs_numbered_cases_witness :
  exists msg,
    create_new_case_folder Demo.with_case_study
    = (Raise (Exc (ValueError msg)), Demo.with_case_study).
Proof.
  apply (create_needs_numbered_cases Demo.with_case_study "CaseStudy"); reflexivity.
Defined.

Section SuccessiveCreates.
Context {D : Data} {E : External}.

(** Making a folder in [Cases] loses no case: what [find_cases] returned
    before, it returns afterwards. *)
Lemma find_cases_after_mkdir (s : state) (x : string) (fs' : node)
    (cases cases' : list path) (c : path) :
  mkdirs [] (joinpath CASES_DIR [x]) (w_fs (st_world s)) = inr fs' ->
  lookup_node (joinpath CASES_DIR [x]) (w_fs (st_world s)) = None ->
  find_cases s = (Ok cases, s) ->
  find_cases (State (set_fs (st_world s) fs') (st_log s))
  = (Ok cases', State (set_fs (st_world s) fs') (st_log s)) ->
  In c cases -> In c cases'.
Proof.
  intros Hmk Hnew. rewrite !find_cases_run. cbn [st_world set_fs w_fs].
  unfold joinpath in *. rewrite (mkdirs_parent _ _ _ _ _ Hmk Hnew).
  remember (lookup_node CASES_DIR (w_fs (st_world s))) as dir eqn:Hdir0.
  intros [= <-] [= <-]. rewrite !in_map_iff.
  intros (name & <- & Hin). exists name. split; [reflexivity |].
  rewrite In_sort_names in Hin |- *.
  destruct dir as [[data | es] |]; try destruct Hin.
  rewrite filter_In in Hin |- *. destruct Hin as [Hin Hcase]. split; [| assumption].
  rewrite In_dirnames in Hin |- *. destruct Hin as [es' Hin]. exists es'.
  apply in_or_app. now left.
Qed.

(** X6.  Two calls of [create_new_case_folder] in a row that both succeed make
    two different folders, and the second has the greater number. *)
Theorem successive_creates_number_upwards (s s1 s2 : state) (d1 d2 : path) :
  create_new_case_folder s = (Ok d1, s1) ->
  create_new_case_folder s1 = (Ok d2, s2) ->
  exists n1 n2,
    d1 = joinpath CASES_DIR [("Case" ++ format_02d n1)%string]
    /\ d2 = joinpath CASES_DIR [("Case" ++ format_02d n2)%string]
    /\ (1 <= n1 < n2)%Z.
Proof.
  intros Hrun1 Hrun2.
  destruct (new_case_folder_is_new_facts _ _ _ Hrun1) as (Hnew1 & Hdir1).
  destruct (create_new_case_folder_inv _ _ _ Hrun1)
    as (cases1 & ns1 & n1 & fs1 & Hfind1 & Hns1 & Hn1 & -> & Hmk1 & ->).
  destruct (create_new_case_folder_inv _ _ _ Hrun2)
    as (cases2 & ns2 & n2 & fs2 & Hfind2 & Hns2 & Hn2 & -> & Hmk2 & ->).
  exists n1, n2. split; [reflexivity |]. split; [reflexivity |].
  pose proof (new_case_number_of_spec ns1) as Hspec1. rewrite Hn1 in Hspec1.
  destruct Hspec1 as (_ & Hpos1 & _ & Hleast1).
  pose proof (new_case_number_free _ _ Hn2) as [Hpos2 Hfree2].
  cbn [st_world st_log set_fs w_fs] in *.
  assert (Hkept : forall m, In m ns1 -> In m ns2).
  { intros m Hm.
    destruct (case_numbers_of_from _ _ _ Hns1 Hm) as (c & Hc & Hint).
    pose proof (find_cases_after_mkdir s _ fs1 cases1 cases2 c Hmk1 Hnew1 Hfind1 Hfind2 Hc)
      as Hc2.
    destruct (case_numbers_of_In _ _ _ Hns2 Hc2) as (m' & Hm' & Hin'). congruence. }
  assert (Hin1 : In n1 ns2).
  { assert (Hc : In (joinpath CASES_DIR [("Case" ++ format_02d n1)%string]) cases2).
    { apply (find_cases_complete _ _ _ Hfind2); [| reflexivity].
      cbn [st_world set_fs w_fs]. unfold is_dir. now rewrite Hdir1. }
    destruct (case_numbers_of_In _ _ _ Hns2 Hc) as (m & Hm & Hin).
    unfold joinpath in Hm. rewrite name_of_app, case_name_suffix in Hm.
    rewrite py_int_format_02d in Hm by assumption. now injection Hm as <-. }
  split; [assumption |].
  destruct (Z.lt_trichotomy n2 n1) as [Hlt | [-> | Hgt]]; [| contradiction | assumption].
  exfalso. apply Hfree2, Hkept, Hleast1. lia.
Qed.

End SuccessiveCreates.

Lemma successive_creates_number_upwards_witness :
  exists n1 n2,
    joinpath CASES_DIR ["Case01"] = joinpath CASES_DIR [("Case" ++ format_02d n1)%string]
    /\ joinpath CASES_DIR ["Case02"] = joinpath CASES_DIR [("Case" ++ format_02d n2)%string]
    /\ (1 <= n1 < n2)%Z.
Proof.
  apply (successive_creates_number_upwards (Demo.initial Demo.project)
           Demo.created_once Demo.created_twice);
    vm_compute; reflexivity.
Defined.

(** ** Staging and removing mock tables *)

Section MockTables.
Context {D : Data} {E : External}.

Lemma drop_tables_other (names : list string) (db : gmap (string * string) frame)
    (k : string * string) :
  (forall t, In t names -> k <> (DET_DB_SCHEMA, t)) ->
  drop_tables names db !! k = db !! k.
Proof.
  revert db. induction names as [|t names IH]; intros db Hk; simpl; [reflexivity |].
  rewrite IH by (intros t' Ht'; apply Hk; now right).
  apply lookup_delete_ne. intros Heq. apply (Hk t); [now left | now symmetry].
Qed.

(** X7.  [remove_mock_data_from_db] always returns.  Afterwards none of the
    tables it was given is in the schema, every other table of the database
    is what it was, the files and the environment are untouched, and the
    client was asked once per name, in order. *)
Theorem removal_drops_only_the_named_tables (table_names : list string) (s : state) :
  exists s',
    remove_mock_data_from_db table_names s = (Ok tt, s')
    /\ (forall t, In t table_names ->
          w_db (st_world s') !! (DET_DB_SCHEMA, t) = None)
    /\ (forall k, (forall t, In t table_names -> k <> (DET_DB_SCHEMA, t)) ->
          w_db (st_world s') !! k = w_db (st_world s) !! k)
    /\ st_log s' = st_log s ++ List.map EvRemoveTable table_names
    /\ w_fs (st_world s') = w_fs (st_world s)
    /\ w_env (st_world s') = w_env (st_world s).
Proof.
  eexists. split; [apply remove_mock_data_from_db_spec |].
  cbn [st_world st_log set_db w_db w_fs w_env].
  split; [intros t Ht; now apply drop_tables_dropped |].
  split; [intros k Hk; now apply drop_tables_other |].
  auto.
Qed.

(** What the first loop of [dump_mock_data_in_db] leaves: every table name
    ends with the time stamp, and an environment variable that has changed
    refers to one of the tables.  The database is not touched. *)
Lemma prepare_mock_data_spec (database_dir : path) (timestamp_unix : Z)
    (database_json : list json) (s s' : state) (mock_data : list (string * frame)) :
  prepare_mock_data database_dir timestamp_unix database_json s = (Ok mock_data, s') ->
  only_env s s'
  /\ (forall t, In t (List.map fst mock_data) ->
        exists base, t = (base ++ "_" ++ str_of_int timestamp_unix)%string)
  /\ (forall v, w_env (st_world s') !! v <> w_env (st_world s) !! v ->
        exists t, In t (List.map fst mock_data)
          /\ w_env (st_world s') !! v
             = Some ("[" ++ DET_DB_SCHEMA ++ "].[" ++ t ++ "]")%string).
Proof.
  intros Hrun.
  split; [exact (preserves_run only_env _ _ _ _ (preserves_prepare_mock_data _ _ _) Hrun) |].
  revert s s' mock_data Hrun.
  induction database_json as [|d rest IH]; intros s s' mock_data; cbn [prepare_mock_data].
  - intros [= <- <-]. split; [intros t [] | intros v Hv; congruence].
  - intros Hrun.
    apply bind_inv in Hrun as [(base & s0 & H0 & Hrun) | (e & _ & [=])].
    apply lift_inv in H0 as [-> _].
    apply bind_inv in Hrun as [(filename & s0 & H0 & Hrun) | (e & _ & [=])].
    apply lift_inv in H0 as [-> _].
    apply bind_inv in Hrun as [(filename' & s0 & H0 & Hrun) | (e & _ & [=])].
    apply lift_inv in H0 as [-> _].
    apply bind_inv in Hrun as [(bytes & s0 & H0 & Hrun) | (e & _ & [=])].
    assert (s0 = s) as ->.
    { unfold open_read, bind, get_world, lift in H0.
      destruct (read_bytes _ _); [discriminate | now injection H0]. }
    clear H0.
    apply bind_inv in Hrun as [(df & s0 & H0 & Hrun) | (e & _ & [=])].
    apply lift_inv in H0 as [-> _].
    apply bind_inv in Hrun as [(var & s0 & H0 & Hrun) | (e & _ & [=])].
    apply lift_inv in H0 as [-> _].
    apply bind_inv in Hrun as [(var' & s0 & H0 & Hrun) | (e & _ & [=])].
    apply lift_inv in H0 as [-> _].
    apply bind_inv in Hrun as [([] & s0 & H0 & Hrun) | (e & _ & [=])].
    injection H0 as <-.
    apply bind_inv in Hrun as [(md & s1 & H1 & Hrun) | (e & _ & [=])].
    injection Hrun as <- <-.
    destruct (IH _ _ _ H1) as [Hnames Henv]. cbn [st_world set_env w_env] in Henv.
    split.
    + intros t [<- | Ht]; [eauto | auto].
    + intros v Hv. cbn [List.map fst In].
      match type of Henv with
      | context [<[var' := ?x]> ?e] => set (env_mid := <[var' := x]> e) in *
      end.
      destruct (decide (w_env (st_world s1) !! v = env_mid !! v)) as [Heq | Hne].
      * destruct (decide (v = var')) as [-> | Hvar].
        -- subst env_mid. rewrite lookup_insert_eq in Heq.
           eexists. split; [left; reflexivity |]. exact Heq.
        -- subst env_mid. rewrite lookup_insert_ne in Heq by congruence. congruence.
      * destruct (Henv v Hne) as (t & Ht & Hval). eauto.
Qed.

(** The second loop, when every table is accepted: the tables named are in
    the database, no other table has changed, nor has the environment. *)
Lemma add_tables_ok (mock_data : list (string * frame)) (acc : list string)
    (s s' : state) (table_names : list string) :
  add_tables mock_data acc s = ((None, table_names), s') ->
  table_names = acc ++ List.map fst mock_data
  /\ (forall t, In t (List.map fst mock_data) ->
        is_Some (w_db (st_world s') !! (DET_DB_SCHEMA, t)))
  /\ (forall k, (forall t, In t (List.map fst mock_data) -> k <> (DET_DB_SCHEMA, t)) ->
        w_db (st_world s') !! k = w_db (st_world s) !! k)
  /\ w_env (st_world s') = w_env (st_world s).
Proof.
  revert acc s. induction mock_data as [|[t df] md IH]; intros acc s; cbn [add_tables].
  - intros [= <- <-]. rewrite app_nil_r.
    split; [reflexivity |]. split; [intros t [] | auto].
  - unfold db_add_table at 1, bind at 1, get_world at 1.
    destruct (add_table_error _ df t DET_DB_SCHEMA) as [e |]; [discriminate |].
    cbn. intros Hrest.
    apply IH in Hrest as (-> & Hin & Hother & Henv).
    cbn [st_world set_db w_db w_env] in *.
    split; [now rewrite <- app_assoc |]. split; [| split; [| assumption]].
    + intros t' [<- | Ht']; [| auto].
      destruct (List.in_dec String.string_dec t (List.map fst md)) as [Hlater | Hlast]; [auto |].
      rewrite Hother by (intros t'' Ht'' [= ->]; contradiction).
      rewrite lookup_insert_eq. eauto.
    + intros k Hk. rewrite Hother by (intros t' Ht'; apply Hk; now right).
      apply lookup_insert_ne. intros Heq. apply (Hk t); [now left | now symmetry].
Qed.

Lemma add_tables_refused (mock_data : list (string * frame)) (acc : list string)
    (s s' : state) (r : raised) (table_names : list string) :
  add_tables mock_data acc s = ((Some r, table_names), s') ->
  exists db df t e, add_table_error db df t DET_DB_SCHEMA = Some e /\ r = Exc e.
Proof.
  revert acc s. induction mock_data as [|[t df] md IH]; intros acc s; cbn [add_tables].
  - discriminate.
  - unfold db_add_table at 1, bind at 1, get_world at 1.
    destruct (add_table_error _ df t DET_DB_SCHEMA) as [e |] eqn:Herr.
    + cbn. intros [= <- <- <-]. do 4 eexists. split; [exact Herr | reflexivity].
    + cbn. apply IH.
Qed.

Lemma open_read_inv (p : path) (s s' : state) (r : result string) :
  open_read p s = (r, s') ->
  s' = s /\ (forall c, r <> Raise (SystemExit c)).
Proof.
  unfold open_read, bind, get_world, lift.
  destruct (read_bytes _ _); intros [= <- <-]; split; trivial; discriminate.
Qed.

(** The ways through [dump_mock_data_in_db]: there is no [_Database]
    folder; or reading the manifest and loading the data raised, before any
    table was created; or the data were loaded and the tables were sent to
    the database. *)
Lemma dump_mock_data_in_db_inv (case_dir : path) (s s' : state)
    (r : result (list string)) :
  dump_mock_data_in_db case_dir s = (r, s') ->
  (r = Ok [] /\ s' = s)
  \/ ((exists e, r = Raise (Exc e)) /\ only_env s s')
  \/ exists database_json mock_data s2,
       prepare_mock_data
         (joinpath case_dir [INPUTS_FOLDER_NAME; DATABASE_FOLDER_NAME])
         (w_clock (st_world s)) database_json s = (Ok mock_data, s2)
       /\ match add_tables mock_data [] s2 with
          | ((None, table_names), s3) => r = Ok table_names /\ s' = s3
          | ((Some (Exc e), table_names), s3) =>
              r = Raise (Exc e)
              /\ s' = snd (remove_mock_data_from_db table_names s3)
          | ((Some (SystemExit _), _), _) => False
          end.
Proof.
  unfold dump_mock_data_in_db. intros Hrun.
  apply bind_inv in Hrun as [(b & s1 & H1 & Hrun) | (e & H1 & ->)];
    [| discriminate H1].
  injection H1 as <- <-.
  destruct (is_dir _ _); simpl in Hrun; [| injection Hrun as <- <-; now left].
  right.
  apply bind_inv in Hrun as [(bytes & s1 & H1 & Hrun) | (e & H1 & ->)].
  2: { apply open_read_inv in H1 as [-> Hne]. left. split; [| reflexivity].
       destruct e as [e | c]; [eauto | now destruct (Hne c)]. }
  apply open_read_inv in H1 as [-> _].
  apply bind_inv in Hrun as [(doc & s2 & H2 & Hrun) | (e & H2 & ->)].
  2: { apply lift_inv in H2 as [-> H2]. left. split; [| reflexivity].
       destruct (json_load bytes); [| discriminate H2]. injection H2 as ->. eauto. }
  apply lift_inv in H2 as [-> _].
  apply bind_inv in Hrun as [(w & s2 & H2 & Hrun) | (e & H2 & ->)];
    [| discriminate H2].
  injection H2 as <- <-.
  apply bind_inv in Hrun as [(items & s2 & H2 & Hrun) | (e & H2 & ->)].
  2: { apply lift_inv in H2 as [-> H2]. left. split; [| reflexivity].
       destruct (py_iter doc); [| discriminate H2]. injection H2 as ->. eauto. }
  apply lift_inv in H2 as [-> _].
  apply bind_inv in Hrun as [(mock_data & s2 & H2 & Hrun) | (e & H2 & ->)].
  2: { left. split.
       - destruct e as [e | c]; [eauto |].
         now destruct (no_exit_run _ _ _ _ (no_exit_prepare_mock_data _ _ _) H2) as [e' [=]].
       - exact (preserves_run only_env _ _ _ _ (preserves_prepare_mock_data _ _ _) H2). }
  right. exists items, mock_data, s2. split; [exact H2 |].
  destruct (add_tables mock_data [] s2) as [[[[e | c] |] table_names] s3] eqn:Hadd.
  - rewrite (bind_ok _ _ _ _ _ (remove_mock_data_from_db_spec table_names s3)) in Hrun.
    rewrite remove_mock_data_from_db_spec. injection Hrun as <- <-. auto.
  - apply add_tables_refused in Hadd as (? & ? & ? & ? & _ & [=]).
  - injection Hrun as <- <-. auto.
Qed.

(** X8.  When [dump_mock_data_in_db] returns, the tables it names are in the
    schema, no other table of the database has changed, and the names all
    end with the time stamp of the call; an environment variable that has
    changed holds the reference [[SNAP].[name]] of one of these tables; the
    files are untouched and the log has one creation per name, in order. *)
Theorem staged_tables_are_in_place (case_dir : path) (s s' : state)
    (table_names : list string) :
  dump_mock_data_in_db case_dir s = (Ok table_names, s') ->
  (forall t, In t table_names ->
     is_Some (w_db (st_world s') !! (DET_DB_SCHEMA, t))
     /\ exists base, t = (base ++ "_" ++ str_of_int (w_clock (st_world s)))%string)
  /\ (forall k, (forall t, In t table_names -> k <> (DET_DB_SCHEMA, t)) ->
        w_db (st_world s') !! k = w_db (st_world s) !! k)
  /\ (forall v, w_env (st_world s') !! v <> w_env (st_world s) !! v ->
        exists t, In t table_names
          /\ w_env (st_world s') !! v = Some ("[SNAP].[" ++ t ++ "]")%string)
  /\ w_fs (st_world s') = w_fs (st_world s)
  /\ st_log s' = st_log s ++ List.map EvAddTable table_names.
Proof.
  intros Hrun.
  pose proof (dump_mock_data_in_db_spec _ _ _ _ Hrun) as [Hfs Hlog].
  apply dump_mock_data_in_db_inv in Hrun
    as [[[= ->] ->] | [[[e [=]] _] | (items & md & s2 & Hprep & Hadd)]].
  { split; [intros t [] |]. split; [reflexivity |].
    split; [intros v Hv; congruence |]. split; [reflexivity | assumption]. }
  destruct (add_tables md [] s2) as [[[[e | c] |] names] s3] eqn:Hrun;
    [now destruct Hadd | contradiction |].
  destruct Hadd as [[= <-] ->].
  apply prepare_mock_data_spec in Hprep as ((_ & Hdb & _) & Hnames & Henv).
  apply add_tables_ok in Hrun as (-> & Hin & Hother & Henv3). cbn [app] in *.
  split; [auto |]. split; [| split; [| auto]].
  - intros k Hk. rewrite Hother by assumption. now rewrite Hdb.
  - intros v. rewrite Henv3. apply Henv.
Qed.

(** X9.  When [dump_mock_data_in_db] raises, either the database client refused
    a table, or the error came earlier (the manifest, a key of an entry, a
    data file) and then nothing has happened to the database: no table was
    created, and the client was not called. *)
Theorem staging_fails_at_the_database_or_before (case_dir : path) (s s' : state)
    (r : raised) :
  dump_mock_data_in_db case_dir s = (Raise r, s') ->
  (exists db df t e, add_table_error db df t DET_DB_SCHEMA = Some e /\ r = Exc e)
  \/ (st_log s' = st_log s /\ w_db (st_world s') = w_db (st_world s)).
Proof.
  intros Hrun.
  apply dump_mock_data_in_db_inv in Hrun
    as [[[=] _] | [[_ (Hlog & Hdb & _)] | (items & md & s2 & _ & Hadd)]];
    [now right |].
  destruct (add_tables md [] s2) as [[[[e | c] |] names] s3] eqn:Hrun;
    [| contradiction | now destruct Hadd].
  destruct Hadd as [[= ->] _]. left.
  apply add_tables_refused in Hrun as (db & df & t & e' & Herr & [= ->]). eauto 6.
Qed.

End MockTables.

Lemma staging_fails_at_the_database_or_before_witness :
  (exists db df t e,
      @add_table_error Demo.data Demo.repo db df t DET_DB_SCHEMA = Some e
      /\ Exc (LibraryError "add_table") = Exc e)
  \/ (st_log Demo.after_failed_staging
      = st_log (Demo.initial (Demo.case01 src_main.df_csv "manifest"))
      /\ w_db (st_world Demo.after_failed_staging)
         = w_db (st_world (Demo.initial (Demo.case01 src_main.df_csv "manifest")))).
Proof.
  apply (staging_fails_at_the_database_or_before (E := Demo.repo) Demo.case01_dir).
  vm_compute. reflexivity.
Defined.

Lemma staged_tables_are_in_place_witness :
  (forall t, In t Demo.staged_tables ->
     is_Some (w_db (st_world Demo.after_staging) !! (DET_DB_SCHEMA, t))
     /\ exists base,
         t = (base ++ "_" ++ str_of_int (w_clock (st_world Demo.with_tables)))%string)
  /\ (forall k, (forall t, In t Demo.staged_tables -> k <> (DET_DB_SCHEMA, t)) ->
        w_db (st_world Demo.after_staging) !! k
        = w_db (st_world Demo.with_tables) !! k)
  /\ (forall v, w_env (st_world Demo.after_staging) !! v
                <> w_env (st_world Demo.with_tables) !! v ->
        exists t, In t Demo.staged_tables
          /\ w_env (st_world Demo.after_staging) !! v
             = Some ("[SNAP].[" ++ t ++ "]")%string)
  /\ w_fs (st_world Demo.after_staging) = w_fs (st_world Demo.with_tables)
  /\ st_log Demo.after_staging
     = st_log Demo.with_tables ++ List.map EvAddTable Demo.staged_tables.
Proof.
  apply (staged_tables_are_in_place (E := Demo.repo) Demo.case01_dir).
  vm_compute. reflexivity.
Defined.

(** ** When a comparison passes *)

Section PassingComparison.
Context {D : Data} {E : External}.

(** A loop whose rounds each pass exactly when [Q] holds of their item, and
    keep [I] when they pass: the loop passes exactly when [Q] holds of every
    item, and then [I] still holds. *)
Lemma for_each_passes_iff {A} (Q : A -> Prop) (I : state -> Prop) (l : list A)
    (body : A -> M unit) :
  (forall x s0, In x l -> I s0 ->
     (fst (body x s0) = Ok tt <-> Q x) /\ (fst (body x s0) = Ok tt -> I (snd (body x s0)))) ->
  forall s0, I s0 ->
    (fst (for_each l body s0) = Ok tt <-> List.Forall Q l)
    /\ (fst (for_each l body s0) = Ok tt -> I (snd (for_each l body s0))).
Proof.
  induction l as [|x l IH]; intros Hbody s0 Hs0; cbn [for_each].
  - split; [split; [constructor | reflexivity] | intros _; exact Hs0].
  - destruct (Hbody x s0 (or_introl eq_refl) Hs0) as [HQ HI].
    unfold bind. destruct (body x s0) as [[[] | r] s1]; cbn [fst snd] in *.
    + destruct (IH (fun y s Hy => Hbody y s (or_intror Hy)) s1 (HI eq_refl)) as [IHQ IHI].
      split; [| exact IHI]. rewrite IHQ. split.
      * intros Hl. constructor; [now apply HQ | assumption].
      * intros Hl. now inversion Hl.
    + split; [| discriminate]. split; [discriminate |].
      intros Hl. inversion Hl as [|? ? Hx _]; subst. apply HQ in Hx. discriminate.
Qed.

(** The verdict of [assert_file] depends on the world only, not on what
    has been logged. *)
Lemma assert_file_verdict (out exp : path) (a b : state) :
  st_world a = st_world b ->
  fst (assert_file out exp a) = fst (assert_file out exp b).
Proof.
  intros Hw. destruct (observes_assert_file out exp a b) as (r & L & -> & ->);
    [| reflexivity].
  intros p _. now rewrite Hw.
Qed.

Lemma assert_output_passes (exp out rel0 : path) (f : string) (s s0 : state) :
  st_world s0 = st_world s ->
  (fst (assert_output exp out (exp ++ rel0) f s0) = Ok tt
   <-> fst (assert_file (out ++ rel0 ++ [f]) (exp ++ rel0 ++ [f]) s) = Ok tt)
  /\ (fst (assert_output exp out (exp ++ rel0) f s0) = Ok tt ->
      st_world (snd (assert_output exp out (exp ++ rel0) f s0)) = st_world s).
Proof.
  intros Hw.
  destruct (assert_output_run exp out rel0 f s0) as (r & L & Hfile & ->).
  rewrite (assert_file_verdict _ _ s (State (st_world s0)
                                        (st_log s0 ++ [EvAssertFile (rel0 ++ [f])])))
    by (now rewrite Hw).
  rewrite Hfile. cbn [fst]. destruct r as [[] | [e | c]].
  - split; [tauto | intros _; exact Hw].
  - rewrite rmtree_then_raise. destruct (rmtree_fs _ _); cbn [fst];
      split; try discriminate; split; discriminate.
  - cbn [fst]. split; [split; discriminate | discriminate].
Qed.

(** [compare_outputs] passes exactly when [assert_file] passes on every
    file of the expected tree, and a comparison that passes leaves the world
    as it found it. *)
Lemma compare_outputs_passes_iff (exp out : path) (s : state) :
  (fst (compare_outputs exp out s) = Ok tt
   <-> List.Forall
         (fun rel => fst (assert_file (out ++ rel) (exp ++ rel) s) = Ok tt)
         (expected_files exp (w_fs (st_world s))))
  /\ (fst (compare_outputs exp out s) = Ok tt ->
      st_world (snd (compare_outputs exp out s)) = st_world s).
Proof.
  rewrite compare_outputs_unfold. unfold expected_files.
  rewrite Forall_flat_map.
  apply (for_each_passes_iff _ (fun s0 => st_world s0 = st_world s)); [| reflexivity].
  intros [[root ds] fls] s0 Hin Hs0.
  apply walk_root in Hin as [rel0 ->]. rewrite relative_to_app.
  rewrite List.Forall_map.
  apply (for_each_passes_iff
           (fun f => fst (assert_file (out ++ rel0 ++ [f]) (exp ++ rel0 ++ [f]) s) = Ok tt)
           (fun s1 => st_world s1 = st_world s)); [| assumption].
  intros f s1 _ Hs1. now apply assert_output_passes.
Qed.

(** X10.  Compare mode passes exactly when [assert_file] passes on every file
    below the expected-outputs folder, each against the file at the same
    relative path in the outputs folder; and a comparison that passes has
    changed nothing but the log. *)
Theorem comparison_passes_iff_every_file_passes (exp out : path) (s : state) :
  (fst (compare_outputs exp out s) = Ok tt
   <-> List.Forall
         (fun rel => fst (assert_file (out ++ rel) (exp ++ rel) s) = Ok tt)
         (expected_files exp (w_fs (st_world s))))
  /\ (fst (compare_outputs exp out s) = Ok tt ->
      st_world (snd (compare_outputs exp out s)) = st_world s).
Proof. exact (compare_outputs_passes_iff exp out s). Qed.

Lemma suffix_app (p : path) (name : string) : suffix (p ++ [name]) = suffix [name].
Proof. unfold suffix. now rewrite !name_of_app. Qed.

(** X11.  A file in the expected tree whose extension is none of [.csv], [.json],
    [.npz] and [.html] makes every comparison of the case fail, whatever
    the model wrote: [assert_file] raises on it without reading anything. *)
Theorem unsupported_baseline_file_fails (exp out : path) (s : state) (rel : path) :
  In rel (expected_files exp (w_fs (st_world s))) ->
  ~ In (suffix (exp ++ rel)) [".csv"; ".json"; ".npz"; ".html"] ->
  exists e s', compare_outputs exp out s = (Raise (Exc e), s').
Proof.
  intros Hin Hext.
  destruct (compare_outputs exp out s) as [[[] | [e | c]] s'] eqn:Hrun; [| eauto |].
  - exfalso.
    pose proof (proj1 (compare_outputs_passes_iff exp out s)) as Hiff.
    rewrite Hrun in Hiff. apply proj1 in Hiff. specialize (Hiff eq_refl).
    rewrite List.Forall_forall in Hiff. specialize (Hiff rel Hin).
    unfold assert_file in Hiff.
    destruct (String.eqb_spec (suffix (exp ++ rel)) ".csv") as [Heq | _];
      [apply Hext; rewrite Heq; simpl; tauto |].
    destruct (String.eqb_spec (suffix (exp ++ rel)) ".json") as [Heq | _];
      [apply Hext; rewrite Heq; simpl; tauto |].
    destruct (String.eqb_spec (suffix (exp ++ rel)) ".npz") as [Heq | _];
      [apply Hext; rewrite Heq; simpl; tauto |].
    destruct (String.eqb_spec (suffix (exp ++ rel)) ".html") as [Heq | _];
      [apply Hext; rewrite Heq; simpl; tauto |].
    discriminate Hiff.
  - apply compare_outputs_raise_inv in Hrun as (? & e & ? & s2 & _ & _ & _ & Hrun).
    rewrite rmtree_then_raise in Hrun. destruct (rmtree_fs _ _); discriminate.
Qed.

Lemma for_each_nothing {A} (l : list A) (body : A -> M unit) (s : state) :
  (forall x, In x l -> body x s = (Ok tt, s)) -> for_each l body s = (Ok tt, s).
Proof.
  induction l as [|x l IH]; intros Hbody; cbn [for_each]; [reflexivity |].
  rewrite (bind_ok _ _ _ _ _ (Hbody x (or_introl eq_refl))).
  apply IH. intros y Hy. apply Hbody. now right.
Qed.

(** X12.  Without a file in the expected tree (no [ExpectedOutputs] folder, an
    empty one, or one that holds empty folders only) the comparison passes
    without looking at the outputs, and nothing is printed. *)
Theorem empty_baseline_passes (exp out : path) (s : state) :
  expected_files exp (w_fs (st_world s)) = [] ->
  compare_outputs exp out s = (Ok tt, s).
Proof.
  intros Hnone. rewrite compare_outputs_unfold.
  apply for_each_nothing. intros [[root ds] fls] Hin.
  assert (fls = []) as ->; [| reflexivity].
  unfold expected_files in Hnone.
  assert (Hall : forall x, In x (walk exp (w_fs (st_world s))) ->
            (let '(root, _, filenames) := x in
             match relative_to root exp with
             | Some dir_suffix => List.map (fun f => dir_suffix ++ [f]) filenames
             | None => []
             end) = []).
  { clear Hin. induction (walk exp (w_fs (st_world s))) as [|y l IH];
      [intros x [] |].
    cbn [List.flat_map] in Hnone. apply app_eq_nil in Hnone as [Hy Hl].
    intros x [<- | Hx]; [exact Hy | now apply IH]. }
  specialize (Hall _ Hin). cbn in Hall.
  apply walk_root in Hin as [rel0 ->]. rewrite relative_to_app in Hall.
  now destruct fls.
Qed.

End PassingComparison.

Lemma empty_baseline_passes_witness :
  compare_outputs (E := Demo.repo) Demo.case01_expected Demo.case01_outputs
    Demo.no_baseline
  = (Ok tt, Demo.no_baseline).
Proof.
  apply (empty_baseline_passes (E := Demo.repo)). reflexivity.
Defined.

Lemma unsupported_baseline_file_fails_witness :
  exists e s',
    compare_outputs (E := Demo.repo) Demo.case01_expected Demo.case01_outputs
      Demo.baseline_with_notes
    = (Raise (Exc e), s').
Proof.
  apply (unsupported_baseline_file_fails (E := Demo.repo) Demo.case01_expected
           Demo.case01_outputs Demo.baseline_with_notes ["notes.txt"]).
  - vm_compute. right. left. reflexivity.
  - vm_compute. intros [H | [H | [H | [H | []]]]]; discriminate H.
Defined.

Section MissingOutput.
Context {D : Data} {E : External}.

Lemma open_read_missing {A} (p : path) (k : string -> M A) (s : state) :
  lookup_node p (w_fs (st_world s)) = None ->
  (bytes <- open_read p ;; k bytes) s = (Raise (Exc (FileNotFoundError p)), s).
Proof.
  intros Hp. apply bind_raise. unfold open_read, bind, get_world, lift, read_bytes.
  cbn. now rewrite Hp.
Qed.

(** X13.  A [.csv], [.json] or [.npz] file of the expected tree that has no
    counterpart in the outputs folder makes the comparison fail: every one
    of the three assertions opens the output first. *)
Theorem missing_output_fails (exp out : path) (s : state) (rel : path) :
  In rel (expected_files exp (w_fs (st_world s))) ->
  In (suffix (exp ++ rel)) [".csv"; ".json"; ".npz"] ->
  lookup_node (out ++ rel) (w_fs (st_world s)) = None ->
  exists e s', compare_outputs exp out s = (Raise (Exc e), s').
Proof.
  intros Hin Hext Hmissing.
  destruct (compare_outputs exp out s) as [[[] | [e | c]] s'] eqn:Hrun; [| eauto |].
  - exfalso.
    pose proof (proj1 (compare_outputs_passes_iff exp out s)) as Hiff.
    rewrite Hrun in Hiff. apply proj1 in Hiff. specialize (Hiff eq_refl).
    rewrite List.Forall_forall in Hiff. specialize (Hiff rel Hin).
    assert (Hfile : assert_file (out ++ rel) (exp ++ rel) s
                    = (Raise (Exc (FileNotFoundError (out ++ rel))), s)).
    { unfold assert_file.
      destruct Hext as [Heq | [Heq | [Heq | []]]]; rewrite <- Heq; cbv zeta;
        [change (String.eqb ".csv" ".csv") with true
        | change (String.eqb ".json" ".csv") with false;
          change (String.eqb ".json" ".json") with true
        | change (String.eqb ".npz" ".csv") with false;
          change (String.eqb ".npz" ".json") with false;
          change (String.eqb ".npz" ".npz") with true ];
        cbv iota; now apply open_read_missing. }
    rewrite Hfile in Hiff. discriminate Hiff.
  - apply compare_outputs_raise_inv in Hrun as (? & e & ? & s2 & _ & _ & _ & Hrun).
    rewrite rmtree_then_raise in Hrun. destruct (rmtree_fs _ _); discriminate.
Qed.

End MissingOutput.

Lemma missing_output_fails_witness :
  exists e s',
    compare_outputs (E := Demo.repo) Demo.case01_expected Demo.case01_outputs
      (Demo.initial (Demo.case01 src_main.df_csv "[]"))
    = (Raise (Exc e), s').
Proof.
  apply (missing_output_fails (E := Demo.repo) Demo.case01_expected Demo.case01_outputs
           (Demo.initial (Demo.case01 src_main.df_csv "[]")) ["df.csv"]).
  - vm_compute. left. reflexivity.
  - vm_compute. left. reflexivity.
  - reflexivity.
Defined.

(** ** The tolerances of every comparison *)

Section Logging.
Context {D : Data} {E : External}.

Global Instance logged_refl (P : event -> Prop) : Reflexive (logged P).
Proof. intros s. exists []. split; [now rewrite app_nil_r | constructor]. Qed.

Global Instance logged_trans (P : event -> Prop) : Transitive (logged P).
Proof.
  intros a b c (L1 & H1 & HP1) (L2 & H2 & HP2). exists (L1 ++ L2).
  split; [now rewrite H2, H1, app_assoc | now apply List.Forall_app].
Qed.

Lemma logged_same_log (P : event -> Prop) (s s' : state) :
  st_log s' = st_log s -> logged P s s'.
Proof. intros H. exists []. split; [now rewrite app_nil_r | constructor]. Qed.

Lemma logged_emit (P : event -> Prop) (ev : event) : P ev -> preserves (logged P) (emit ev).
Proof. intros Hev s. exists [ev]. split; [reflexivity | now repeat constructor]. Qed.

Lemma logged_fs_update (P : event -> Prop) (f : node -> exception + node) :
  preserves (logged P) (fs_update f).
Proof.
  intros s. rewrite fs_update_run. apply logged_same_log. now destruct (f _).
Qed.

Lemma logged_chdir (P : event -> Prop) (p : path) : preserves (logged P) (chdir p).
Proof.
  intros s. apply logged_same_log. unfold chdir, bind, get_world. cbn.
  now destruct (lookup_node p _) as [[data | es] |].
Qed.

Lemma logged_run_main_model (P : event -> Prop) : preserves (logged P) run_main_model.
Proof.
  intros s. apply logged_same_log. unfold run_main_model.
  now destruct (main_model (st_world s)) as [[r |] w'].
Qed.

Lemma logged_try_except_else {A B} (P : event -> Prop) (body : M A)
    (handler : exception -> M B) (orelse : A -> M B) :
  preserves (logged P) body -> (forall e, preserves (logged P) (handler e)) ->
  (forall a, preserves (logged P) (orelse a)) ->
  preserves (logged P) (try_except_else body handler orelse).
Proof.
  intros Hb Hh Ho s. unfold try_except_else. specialize (Hb s).
  destruct (body s) as [[a | [e | c]] s1]; cbn [snd] in *; [| | assumption].
  - transitivity s1; [assumption | apply Ho].
  - transitivity s1; [assumption | apply Hh].
Qed.

Lemma Forall_fixed_added (names : list string) :
  List.Forall fixed_tolerances (List.map EvAddTable names).
Proof. induction names; simpl; constructor; simpl; auto. Qed.

Lemma Forall_fixed_removed (names : list string) :
  List.Forall fixed_tolerances (List.map EvRemoveTable names).
Proof. induction names; simpl; constructor; simpl; auto. Qed.

Lemma logged_remove_mock_data_from_db (table_names : list string) :
  preserves (logged fixed_tolerances) (remove_mock_data_from_db table_names).
Proof.
  intros s. rewrite remove_mock_data_from_db_spec. eexists. split; [reflexivity |].
  apply Forall_fixed_removed.
Qed.

Lemma logged_dump_mock_data_in_db (case_dir : path) :
  preserves (logged fixed_tolerances) (dump_mock_data_in_db case_dir).
Proof.
  intros s. destruct (dump_mock_data_in_db case_dir s) as [r s'] eqn:Hrun.
  apply dump_mock_data_in_db_spec in Hrun as [_ Hlog]. cbn [snd].
  destruct r as [names | r].
  - eexists. split; [exact Hlog | apply Forall_fixed_added].
  - destruct Hlog as (_ & added & Hlog & _). eexists. split; [exact Hlog |].
    apply List.Forall_app. split; [apply Forall_fixed_added | apply Forall_fixed_removed].
Qed.

End Logging.

(** Walk through the binds of a computation whose comparisons all use the
    tolerances of the harness. *)
Ltac keeps_tolerances :=
  repeat first
    [ apply preserves_ret | apply preserves_raise | apply preserves_lift
    | apply preserves_get_world | apply preserves_path_is_dir
    | apply preserves_open_read | apply logged_fs_update | apply logged_chdir
    | apply logged_run_main_model | apply logged_remove_mock_data_from_db
    | apply logged_dump_mock_data_in_db
    | (apply logged_emit; simpl; auto)
    | (apply preserves_bind; [typeclasses eauto | | intro])
    | (apply preserves_for_each; [typeclasses eauto | typeclasses eauto | intros ? _])
    | (apply preserves_try_except; [typeclasses eauto | | intro])
    | (apply logged_try_except_else; [| intro | intro])
    | match goal with
      | |- preserves _ (if ?b then _ else _) => destruct b
      | |- preserves _ (match ?x with _ => _ end) => destruct x
      end ];
  try typeclasses eauto.

Section Tolerances.
Context {D : Data} {E : External}.

Lemma logged_run_case (run_type : string) (case_dir : path) :
  preserves (logged fixed_tolerances) (run_case run_type case_dir).
Proof.
  unfold run_case, process_inputs, run_model, process_outputs, copytree, rmtree.
  keeps_tolerances.
  - unfold copy_outputs, rmtree, mkdir_parents_exist_ok, copy2. keeps_tolerances.
  - unfold copy_outputs, rmtree, mkdir_parents_exist_ok, copy2. keeps_tolerances.
  - unfold compare_outputs, assert_output, rmtree, assert_file, assert_csv, assert_json,
      assert_npz, assert_member, npz_getitem.
    keeps_tolerances.
Qed.

Lemma logged_test_case (run_type : string) (case_dir : path) :
  preserves (logged fixed_tolerances) (test_case run_type case_dir).
Proof.
  intros s. rewrite test_case_run.
  destruct (read_bytes _ _) as [e | bytes]; [apply logged_run_case |].
  destruct (decode_text bytes); [reflexivity | apply logged_run_case].
Qed.

(** Whatever the mode, the cases and the model: every comparison that a run
    of [test_snapshots] logs carries the absolute tolerance 1e-8 and the
    relative tolerance 0. *)
Lemma comparisons_are_logged_with_the_fixed_tolerances (run_type : string) (s : state) :
  exists L,
    st_log (snd (test_snapshots run_type s)) = st_log s ++ L
    /\ forall ev, In ev L ->
         match ev with
         | EvFrameEqual atol rtol | EvAllclose _ atol rtol =>
             atol = 1e-8%float /\ rtol = 0%Z
         | _ => True
         end.
Proof.
  assert (H : preserves (logged fixed_tolerances) (test_snapshots run_type)).
  { unfold test_snapshots.
    destruct (negb _); [apply preserves_raise; typeclasses eauto |].
    apply preserves_bind; [typeclasses eauto | |].
    - unfold create_new_case_folder, find_cases, mkdir_parents_exist_ok.
      keeps_tolerances.
    - intros cases. apply preserves_for_each; try typeclasses eauto.
      intros case_dir _. apply logged_test_case. }
  destruct (H s) as (L & HL & HP). exists L. split; [exact HL |].
  rewrite List.Forall_forall in HP. exact HP.
Qed.

End Tolerances.

Section Comparators.
Context {D : Data} (E : External).
Variable frame_equal : frame -> frame -> float -> Z -> option exception.
Variable allclose : ndarray -> ndarray -> float -> Z -> option exception.
Hypothesis Hframe : forall a b,
  frame_equal a b 1e-8%float 0%Z = assert_frame_equal a b 1e-8%float 0%Z.
Hypothesis Hclose : forall a b,
  allclose a b 1e-8%float 0%Z = assert_allclose a b 1e-8%float 0%Z.

Let E' : External := with_comparators E frame_equal allclose.

Lemma bind_ext {A B} (m : M A) (k k' : A -> M B) (s : state) :
  (forall a s0, k a s0 = k' a s0) -> bind m k s = bind m k' s.
Proof. intros H. unfold bind. destruct (m s) as [[a | r] s0]; [apply H | reflexivity]. Qed.

Lemma for_each_pointwise {A} (l : list A) (body body' : A -> M unit) (s : state) :
  (forall x s0, body x s0 = body' x s0) -> for_each l body s = for_each l body' s.
Proof.
  intros H. revert s. induction l as [|x l IH]; intros s; [reflexivity |].
  cbn [for_each]. unfold bind. rewrite H. destruct (body' x s) as [[[] | r] s0]; [apply IH | reflexivity].
Qed.

Lemma assert_csv_comparators (out exp : path) (s : state) :
  assert_csv (E := E') out exp s = assert_csv (E := E) out exp s.
Proof.
  unfold assert_csv. repeat (apply bind_ext; intros).
  change (@assert_frame_equal D E') with frame_equal.
  change ABSOLUTE_TOLERANCE with 1e-8%float. change RELATIVE_TOLERANCE with 0%Z.
  now rewrite Hframe.
Qed.

Lemma assert_npz_comparators (out exp : path) (s : state) :
  assert_npz (E := E') out exp s = assert_npz (E := E) out exp s.
Proof.
  unfold assert_npz. repeat (apply bind_ext; intros).
  destruct (bool_decide _); [reflexivity |].
  apply for_each_pointwise. intros name ?. unfold assert_member.
  repeat (apply bind_ext; intros).
  change (@assert_allclose D E') with allclose.
  change ABSOLUTE_TOLERANCE with 1e-8%float. change RELATIVE_TOLERANCE with 0%Z.
  now rewrite Hclose.
Qed.

Lemma assert_file_comparators (out exp : path) (s : state) :
  assert_file (E := E') out exp s = assert_file (E := E) out exp s.
Proof.
  unfold assert_file.
  destruct (String.eqb _ ".csv"); [apply assert_csv_comparators |].
  destruct (String.eqb _ ".json"); [reflexivity |].
  destruct (String.eqb _ ".npz"); [apply assert_npz_comparators |].
  reflexivity.
Qed.

Lemma compare_outputs_comparators (exp out : path) (s : state) :
  compare_outputs (E := E') exp out s = compare_outputs (E := E) exp out s.
Proof.
  unfold compare_outputs. apply bind_ext. intros w s0.
  apply for_each_pointwise. intros [[root ds] fls] s1.
  apply for_each_pointwise. intros f s2. unfold assert_output.
  destruct (relative_to _ _); [| reflexivity].
  apply bind_ext. intros _ s3. unfold try_except.
  now rewrite assert_file_comparators.
Qed.

Lemma test_case_comparators (run_type : string) (case_dir : path) (s : state) :
  test_case (E := E') run_type case_dir s = test_case (E := E) run_type case_dir s.
Proof.
  unfold test_case. apply bind_ext. intros _ s0.
  unfold run_case. apply bind_ext. intros _ s1.
  apply bind_ext. intros names s2. apply bind_ext. intros _ s3.
  unfold bind. unfold process_outputs.
  destruct (String.eqb run_type "create"); [reflexivity |].
  destruct (String.eqb run_type "update"); [reflexivity |].
  destruct (String.eqb run_type "compare"); [| reflexivity].
  now rewrite compare_outputs_comparators.
Qed.

End Comparators.

(** X14.  The comparisons of a run are asked with the tolerances of the harness
    and with no others.  Put in the place of pandas' and numpy's comparators
    any two that answer as they do at the absolute tolerance 1e-8 and the
    relative tolerance 0, whatever they answer at other tolerances: every run
    of [test_snapshots] ends in the same result and in the same state. *)
Theorem every_comparison_uses_the_fixed_tolerances {D : Data} (E : External)
    (frame_equal : frame -> frame -> float -> Z -> option exception)
    (allclose : ndarray -> ndarray -> float -> Z -> option exception)
    (run_type : string) (s : state) :
  (forall a b, frame_equal a b 1e-8%float 0%Z = assert_frame_equal a b 1e-8%float 0%Z) ->
  (forall a b, allclose a b 1e-8%float 0%Z = assert_allclose a b 1e-8%float 0%Z) ->
  test_snapshots (E := with_comparators E frame_equal allclose) run_type s
  = test_snapshots (E := E) run_type s.
Proof.
  intros Hframe Hclose. unfold test_snapshots.
  destruct (negb _); [reflexivity |].
  apply bind_ext. intros cases s0.
  apply for_each_pointwise. intros case_dir s1.
  now apply test_case_comparators.
Qed.

(** Comparators that refuse every other pair of tolerances, in a compare
    run of the repository's case. *)
Lemma every_comparison_uses_the_fixed_tolerances_witness :
  test_snapshots
    (E := with_comparators Demo.repo (Demo.strict String.eqb) (Demo.strict Nat.eqb))
    "compare" (Demo.initial (Demo.case01 src_main.df_csv "[]"))
  = test_snapshots (E := Demo.repo) "compare"
      (Demo.initial (Demo.case01 src_main.df_csv "[]")).
Proof.
  apply (every_comparison_uses_the_fixed_tolerances Demo.repo
           (Demo.strict String.eqb) (Demo.strict Nat.eqb) "compare"
           (Demo.initial (Demo.case01 src_main.df_csv "[]")));
    intros a b; reflexivity.
Defined.

(** ** What a compare run leaves behind *)

Section NoOutputsLeft.
Context {D : Data} {E : External}.

Lemma rmtree_leaves_no_dir (p : path) (s : state) :
  p <> [] -> is_dir p (w_fs (st_world (snd (rmtree p s)))) = false.
Proof.
  intros Hp. unfold rmtree. rewrite fs_update_run.
  destruct (rmtree_fs p (w_fs (st_world s))) as [e | fs'] eqn:Hrm; cbn [snd].
  - unfold rmtree_fs in Hrm. unfold is_dir.
    destruct (lookup_node p _) as [[data | es] |]; trivial. discriminate.
  - apply rmtree_fs_gone in Hrm as [_ Hgone]; [| assumption].
    unfold is_dir. cbn [st_world set_fs w_fs]. now rewrite Hgone.
Qed.

(** X15.  In compare mode no outputs directory outlives the case: once the case
    folder was entered and its inputs were staged, however the run ends
    (the comparison passes, the model raises, a file differs, the model
    wrote nothing), short of a [SystemExit], the case has no [Outputs]
    directory afterwards. *)
Theorem compare_mode_leaves_no_outputs_folder (case_dir : path) (s s1 s' : state)
    (table_names : list string) (r : result unit) :
  (chdir case_dir ;;; process_inputs "compare" case_dir) s = (Ok table_names, s1) ->
  run_case "compare" case_dir s = (r, s') ->
  (forall code, r <> Raise (SystemExit code)) ->
  is_dir (joinpath case_dir [OUTPUTS_FOLDER_NAME]) (w_fs (st_world s')) = false.
Proof.
  intros Hinputs Hrun Hexit.
  assert (Hout : joinpath case_dir [OUTPUTS_FOLDER_NAME] <> [])
    by (unfold joinpath; now destruct case_dir).
  apply bind_inv in Hinputs as [([] & s0 & Hchdir & Hinputs) | (x & _ & [=])].
  unfold run_case in Hrun.
  rewrite (bind_ok _ _ _ _ _ Hchdir), (bind_ok _ _ _ _ _ Hinputs) in Hrun.
  pose proof (run_model_spec table_names (joinpath case_dir [OUTPUTS_FOLDER_NAME]) s1)
    as Hmodel.
  destruct (main_model (st_world s1)) as [[[e | c] |] w2].
  - rewrite (bind_raise _ _ _ _ _ Hmodel) in Hrun. injection Hrun as <- <-.
    cbn [st_world set_fs w_fs].
    destruct (is_dir _ (w_fs w2)) eqn:Hdir; [| exact Hdir].
    unfold is_dir. now rewrite lookup_put_none.
  - rewrite (bind_raise _ _ _ _ _ Hmodel) in Hrun. injection Hrun as <- <-.
    now destruct (Hexit c).
  - rewrite (bind_ok _ _ _ _ _ Hmodel) in Hrun.
    apply bind_inv in Hrun as [([] & s3 & Hcmp & Hrun) | (x & Hcmp & ->)].
    + pose proof (rmtree_leaves_no_dir _ s3 Hout) as Hgone. now rewrite Hrun in Hgone.
    + change (process_outputs "compare" ?a ?b) with (compare_outputs a b) in Hcmp.
      now apply failed_comparison_leaves_no_outputs_dir in Hcmp.
Qed.

End NoOutputsLeft.

Lemma compare_mode_leaves_no_outputs_folder_witness :
  is_dir (joinpath Demo.case01_dir [OUTPUTS_FOLDER_NAME])
    (w_fs (st_world (snd (run_case (E := Demo.failing) "compare" Demo.case01_dir
                            Demo.with_tables))))
  = false.
Proof.
  apply (compare_mode_leaves_no_outputs_folder (E := Demo.failing) Demo.case01_dir
           Demo.with_tables Demo.staged _ Demo.staged_tables
           (fst (run_case (E := Demo.failing) "compare" Demo.case01_dir Demo.with_tables))).
  - vm_compute. reflexivity.
  - vm_compute. reflexivity.
  - intros code. vm_compute. discriminate.
Defined.

(** ** The model of src/main.py *)

Lemma put_node_same (p : path) (v fs : node) :
  lookup_node p fs = Some v -> put_node p (Some v) fs = fs.
Proof.
  revert fs. induction p as [|a p IH]; intros fs; [now intros [= ->] |].
  destruct fs as [data | es]; [discriminate |]. cbn [lookup_node].
  destruct (entry_get a es) as [c |] eqn:Hc; [| discriminate].
  destruct p as [|b p].
  - intros [= ->]. cbn [put_node]. now rewrite entry_set_same.
  - intros Hv. rewrite put_node_cons, Hc by discriminate.
    rewrite (IH _ Hv). now rewrite entry_set_same.
Qed.

Lemma write_bytes_run (r : path) (a data : string) (fs : node) :
  is_dir r fs = true -> is_dir (r ++ [a]) fs = false ->
  write_bytes (r ++ [a]) data fs = inr (put_node (r ++ [a]) (Some (File data)) fs).
Proof.
  unfold write_bytes, is_dir at 2. intros Hr Hnd. rewrite removelast_snoc, Hr.
  now destruct (lookup_node (r ++ [a]) fs) as [[d | es] |].
Qed.

Section Model.
Context {D : Data}.

(** X16.  The model of src/main.py, started in a working directory that exists,
    with no regular file called [Outputs] in it and no directory called
    [Outputs/df.csv]: it returns; afterwards [Outputs/df.csv] holds the
    data frame, [Outputs] is a directory, and every other path is what it
    was (files already in [Outputs] stay); the environment, the database,
    the working directory and the clock are untouched; and a second run
    changes nothing more. *)
Theorem model_writes_the_data_frame (w : world) :
  is_dir (w_cwd w) (w_fs w) = true ->
  file_at (joinpath (w_cwd w) ["Outputs"]) (w_fs w) = None ->
  is_dir (joinpath (w_cwd w) ["Outputs"; "df.csv"]) (w_fs w) = false ->
  exists fs',
    src_main.main w = (None, set_fs w fs')
    /\ (forall q,
          stat q fs'
          = if decide (q = joinpath (w_cwd w) ["Outputs"; "df.csv"])
            then Some (Some src_main.df_csv)
            else if is_prefix q (joinpath (w_cwd w) ["Outputs"]) then Some None
                 else stat q (w_fs w))
    /\ src_main.main (set_fs w fs') = (None, set_fs w fs').
Proof.
  intros Hcwd Hfree Hcsv.
  assert (Hpath : joinpath (w_cwd w) ["Outputs"; "df.csv"]
                  = joinpath (joinpath (w_cwd w) ["Outputs"]) ["df.csv"])
    by (unfold joinpath; now rewrite <- app_assoc).
  rewrite Hpath in *.
  set (outputs_dir := joinpath (w_cwd w) ["Outputs"]) in *.
  destruct (mkdirs_succeeds [] outputs_dir (w_fs w)) as [fs1 Hmk].
  { intros r Hr. apply is_prefix_inv in Hr as [q Hq].
    destruct (list_eq_nil_dec q) as [-> | Hq'].
    - rewrite app_nil_r in Hq. now rewrite <- Hq.
    - assert (Hdir : is_dir r (w_fs w) = true).
      { apply (is_dir_prefix r (w_cwd w)); [| assumption].
        unfold outputs_dir, joinpath in Hq.
        destruct (exists_last Hq') as (q0 & x & ->).
        rewrite app_assoc in Hq. apply app_inj_tail in Hq as [-> _].
        apply is_prefix_app. }
      unfold file_at. unfold is_dir in Hdir.
      now destruct (lookup_node r (w_fs w)) as [[d | es] |]. }
  pose proof (stat_mkdirs _ _ outputs_dir _ _ Hmk) as Hout1.
  rewrite is_prefix_refl in Hout1.
  assert (Hdir1 : is_dir outputs_dir fs1 = true) by (now rewrite is_dir_stat, Hout1).
  assert (Hcsv1 : is_dir (outputs_dir ++ ["df.csv"]) fs1 = false).
  { rewrite is_dir_stat, (stat_mkdirs _ _ _ _ _ Hmk).
    replace (is_prefix (outputs_dir ++ ["df.csv"]) outputs_dir) with false.
    - rewrite <- is_dir_stat. exact Hcsv.
    - symmetry. apply not_true_iff_false. intros H.
      apply is_prefix_inv in H as [q Hq]. apply (f_equal (@List.length _)) in Hq.
      rewrite !length_app in Hq. simpl in Hq. lia. }
  set (fs2 := put_node (outputs_dir ++ ["df.csv"]) (Some (File src_main.df_csv)) fs1).
  assert (Hmain : forall fs0, mkdirs [] outputs_dir fs0 = inr fs1 ->
             src_main.main (set_fs w fs0) = (None, set_fs w fs2)).
  { intros fs0 Hmk0. unfold src_main.main. cbn [set_fs w_fs w_cwd w_env w_db w_clock].
    fold outputs_dir. rewrite Hmk0. unfold joinpath.
    now rewrite (write_bytes_run _ _ _ _ Hdir1 Hcsv1). }
  assert (Hstat2 : forall q,
             stat q fs2
             = if decide (q = outputs_dir ++ ["df.csv"])
               then Some (Some src_main.df_csv)
               else stat q fs1).
  { intros q. subst fs2. apply stat_put_file.
    - now destruct outputs_dir.
    - now rewrite removelast_snoc.
    - exact Hcsv1. }
  exists fs2. split; [| split].
  - replace w with (set_fs w (w_fs w)) at 1 by (now destruct w). now apply Hmain.
  - intros q. rewrite Hstat2. unfold joinpath. case_decide; [reflexivity |].
    apply (stat_mkdirs _ _ _ _ _ Hmk).
  - assert (Hdir2 : is_dir outputs_dir fs2 = true).
    { rewrite is_dir_stat, Hstat2. case_decide as Heq.
      - apply (f_equal (@List.length _)) in Heq. rewrite length_app in Heq.
        simpl in Heq. lia.
      - now rewrite Hout1. }
    unfold src_main.main. cbn [set_fs w_fs w_cwd w_env w_db w_clock].
    fold outputs_dir. rewrite (mkdirs_existing _ _ _ Hdir2). unfold joinpath.
    assert (Hthere : lookup_node (outputs_dir ++ ["df.csv"]) fs2
                     = Some (File src_main.df_csv))
      by (subst fs2; now apply lookup_put_same).
    rewrite write_bytes_run; [| exact Hdir2 | unfold is_dir; now rewrite Hthere].
    now rewrite (put_node_same _ _ _ Hthere).
Qed.

End Model.

Lemma model_writes_the_data_frame_witness :
  exists fs',
    src_main.main Demo.in_case01 = (None, set_fs Demo.in_case01 fs')
    /\ (forall q,
          stat q fs'
          = if decide (q = joinpath (w_cwd Demo.in_case01) ["Outputs"; "df.csv"])
            then Some (Some src_main.df_csv)
            else if is_prefix q (joinpath (w_cwd Demo.in_case01) ["Outputs"])
                 then Some None
                 else stat q (w_fs Demo.in_case01))
    /\ src_main.main (set_fs Demo.in_case01 fs') = (None, set_fs Demo.in_case01 fs').
Proof. apply (model_writes_the_data_frame Demo.in_case01); reflexivity. Defined.

(** ** Walks and loops *)

(** The files [os.walk] reports are regular files of the tree, in
    directories of the tree. *)
Lemma walk_node_files (n : node) (top root : path) (ds fls : list string) :
  unique_names n = true ->
  In (root, ds, fls) (walk_node top n) ->
  exists rel,
    root = top ++ rel /\ is_dir rel n = true
    /\ forall f, In f fls -> exists data, lookup_node (rel ++ [f]) n = Some (File data).
Proof.
  revert top. induction n as [data | es IH] using node_ind'; intros top Hwf; [intros [] |].
  pose proof Hwf as Hes. cbn [unique_names] in Hes.
  apply andb_true_iff in Hes as [Hes Hchildren].
  cbn [walk_node]. intros [[= <- <- <-] | Hin].
  - exists []. rewrite app_nil_r. split; [reflexivity |]. split; [reflexivity |].
    intros f Hf. apply In_filenames in Hf as [data Hf]. exists data.
    cbn [app lookup_node]. now rewrite (In_entry_get _ _ _ Hes Hf).
  - apply in_flat_map in Hin as ([k c] & Hkc & Hin). cbn [fst snd] in Hin.
    rewrite List.Forall_forall in IH. specialize (IH _ Hkc). cbn [snd] in IH.
    rewrite forallb_forall in Hchildren. specialize (Hchildren _ Hkc). cbn [snd] in Hchildren.
    destruct c as [data | es']; [destruct Hin |].
    destruct (IH _ Hchildren Hin) as (rel & -> & Hdir & Hfiles).
    exists (k :: rel). rewrite <- app_assoc. split; [reflexivity |].
    pose proof (In_entry_get _ _ _ Hes Hkc) as Hget.
    unfold is_dir in *. cbn [app lookup_node]. rewrite Hget. split; [assumption |].
    exact Hfiles.
Qed.

(** Every regular file of the tree is reported by [os.walk]. *)
Lemma walk_node_complete (q : path) (n : node) (top : path) (data : string) :
  q <> [] -> lookup_node q n = Some (File data) ->
  exists rel f ds fls,
    q = rel ++ [f] /\ In (top ++ rel, ds, fls) (walk_node top n) /\ In f fls.
Proof.
  revert n top. induction q as [|a q IH]; intros n top Hq; [congruence |].
  destruct n as [d0 | es]; [discriminate |]. cbn [lookup_node].
  destruct (entry_get a es) as [c |] eqn:Hc; [| discriminate].
  apply entry_get_In in Hc. destruct q as [|b q].
  - intros [= ->]. exists [], a, (dirnames es), (filenames es).
    rewrite app_nil_r. split; [reflexivity |]. split; [now left |].
    apply In_filenames. eauto.
  - intros Hlook. destruct c as [d0 | es']; [discriminate |].
    destruct (IH (Dir es') (top ++ [a])) as (rel & f & ds & fls & Heq & Hin & Hf);
      [discriminate | assumption |].
    exists (a :: rel), f, ds, fls. rewrite Heq. split; [reflexivity |].
    split; [| assumption]. cbn [walk_node]. right.
    apply in_flat_map. exists (a, Dir es'). split; [assumption |].
    cbn [fst snd]. now rewrite <- app_assoc in Hin.
Qed.

Section Loops.
Context {D : Data} {E : External}.

Lemma for_each_app {A} (l1 l2 : list A) (body : A -> M unit) (s : state) :
  for_each (l1 ++ l2) body s = (for_each l1 body ;;; for_each l2 body) s.
Proof.
  revert s. induction l1 as [|x l1 IH]; intros s; cbn [app for_each]; [reflexivity |].
  unfold bind in *. destruct (body x s) as [[[] | r] s1]; [apply IH | reflexivity].
Qed.

Lemma for_each_map {A B} (f : A -> B) (l : list A) (body : B -> M unit) (s : state) :
  for_each (List.map f l) body s = for_each l (fun x => body (f x)) s.
Proof.
  revert s. induction l as [|x l IH]; intros s; cbn [List.map for_each]; [reflexivity |].
  unfold bind. destruct (body (f x) s) as [[[] | r] s1]; [apply IH | reflexivity].
Qed.

Lemma for_each_ext {A} (l : list A) (body body' : A -> M unit) (s : state) :
  (forall x s0, In x l -> body x s0 = body' x s0) ->
  for_each l body s = for_each l body' s.
Proof.
  revert s. induction l as [|x l IH]; intros s Hext; cbn [for_each]; [reflexivity |].
  unfold bind. rewrite (Hext x s (or_introl eq_refl)).
  destruct (body' x s) as [[[] | r] s1]; [| reflexivity].
  apply IH. intros y s0 Hy. apply Hext. now right.
Qed.

(** A loop in a loop is one loop over the pairs. *)
Lemma for_each_nested {A B} (l : list A) (inner : A -> list B)
    (body : A -> B -> M unit) (s : state) :
  for_each l (fun x => for_each (inner x) (body x)) s
  = for_each (List.flat_map (fun x => List.map (pair x) (inner x)) l)
      (fun xy => body (fst xy) (snd xy)) s.
Proof.
  revert s. induction l as [|x l IH]; intros s; cbn [List.flat_map for_each];
    [reflexivity |].
  rewrite for_each_app. unfold bind. rewrite for_each_map. cbn [fst snd].
  destruct (for_each (inner x) _ s) as [[[] | r] s1]; [apply IH | reflexivity].
Qed.

(** A loop all of whose rounds return, with an invariant that knows the
    items done so far. *)
Lemma for_each_steps {A} (I : list A -> state -> Prop) (l : list A)
    (body : A -> M unit) (s : state) :
  I [] s ->
  (forall pre x s0, In x l -> I pre s0 ->
     exists s1, body x s0 = (Ok tt, s1) /\ I (pre ++ [x]) s1) ->
  exists s', for_each l body s = (Ok tt, s') /\ I l s'.
Proof.
  intros Hstart Hstep.
  enough (H : forall pre s0, I pre s0 ->
            exists s', for_each l body s0 = (Ok tt, s') /\ I (pre ++ l) s')
    by (exact (H [] s Hstart)).
  induction l as [|x l IH]; intros pre s0 Hs0; cbn [for_each].
  - exists s0. now rewrite app_nil_r.
  - destruct (Hstep pre x s0 (or_introl eq_refl) Hs0) as (s1 & Hx & Hs1).
    rewrite (bind_ok _ _ _ _ _ Hx).
    destruct (IH (fun pre y s0 Hy => Hstep pre y s0 (or_intror Hy)) (pre ++ [x]) s1 Hs1)
      as (s' & Hrun & Hs').
    exists s'. split; [assumption |]. now rewrite <- app_assoc in Hs'.
Qed.

End Loops.

(** ** What copy_outputs stores *)

Lemma read_bytes_file_at (p : path) (fs : node) (data : string) :
  read_bytes p fs = inr data <-> file_at p fs = Some data.
Proof.
  unfold read_bytes, file_at.
  destruct (lookup_node p fs) as [[d | es] |]; split; intros [= ->]; reflexivity.
Qed.

Lemma is_prefix_longer (p q : path) : is_prefix (p ++ q) p = true -> q = [].
Proof.
  intros H. apply is_prefix_inv in H as [r Hr].
  apply (f_equal (@List.length _)) in Hr. rewrite !length_app in Hr.
  destruct q; [reflexivity | simpl in Hr; lia].
Qed.

Lemma is_prefix_app_cases (r p q : path) :
  is_prefix r (p ++ q) = true ->
  is_prefix r p = true \/ exists q', r = p ++ q' /\ is_prefix q' q = true.
Proof.
  revert r. induction p as [|a p IH]; intros r; cbn [app].
  - intros H. right. now exists r.
  - destruct r as [|b r]; [now left |]. cbn [is_prefix].
    intros H. apply andb_true_iff in H as [Hab H].
    destruct (IH _ H) as [Hp | (q' & -> & Hq')].
    + left. now rewrite Hab.
    + right. exists q'. apply String.eqb_eq in Hab as ->. auto.
Qed.

Lemma is_dir_not_file (p : path) (fs : node) :
  is_dir p fs = true -> file_at p fs = None.
Proof. unfold is_dir, file_at. now destruct (lookup_node p fs) as [[d | es] |]. Qed.

Lemma file_not_dir (p : path) (fs : node) (data : string) :
  file_at p fs = Some data -> is_dir p fs = false.
Proof. unfold is_dir, file_at. now destruct (lookup_node p fs) as [[d | es] |]. Qed.

Lemma apart_not_nil (p q : path) : apart p q = true -> q <> [].
Proof. intros H ->. destruct p; discriminate. Qed.

Section CopyStep.
Variables (src dst : path) (fs : node).
Hypothesis Hapart : apart src dst = true.
Hypothesis Hsrc : is_dir src fs = true.

(** The start of [copy_outputs]: the destination is removed and made
    again. *)
Lemma copied_start :
  is_dir dst fs = true ->
  exists fs1,
    mkdirs [] dst (put_node dst None fs) = inr fs1
    /\ copied src dst fs fs1
    /\ forall q, q <> [] -> stat (dst ++ q) fs1 = None.
Proof.
  intros Hdst. pose proof (apart_not_nil _ _ Hapart) as Hne.
  destruct (mkdirs_succeeds [] dst (put_node dst None fs)) as [fs1 Hmk].
  { intros r Hr. rewrite file_at_stat, stat_put_none by assumption.
    destruct (is_prefix dst r); [reflexivity |].
    rewrite <- file_at_stat. apply is_dir_not_file.
    now apply (is_dir_prefix r dst). }
  assert (Hstat : forall q, stat (dst ++ q) fs1 = if is_prefix (dst ++ q) dst then Some None else None).
  { intros q. rewrite (stat_mkdirs _ _ _ _ _ Hmk), stat_put_none by assumption.
    now rewrite is_prefix_app. }
  exists fs1. split; [assumption |]. split; [| intros q Hq].
  - split; [| split; [| split]].
    + rewrite is_dir_stat, <- (app_nil_r dst), Hstat, app_nil_r.
      now rewrite is_prefix_refl.
    + intros p Hp. rewrite (lookup_mkdirs_apart _ _ _ _ _ Hp Hmk).
      now apply lookup_put_apart.
    + intros q. rewrite is_dir_stat, Hstat.
      destruct (is_prefix (dst ++ q) dst) eqn:Hq; [| discriminate].
      apply is_prefix_longer in Hq as ->. now rewrite app_nil_r.
    + intros q data. rewrite file_at_stat, Hstat.
      destruct (is_prefix (dst ++ q) dst); discriminate.
  - rewrite Hstat. destruct (is_prefix (dst ++ q) dst) eqn:Hpre; [| reflexivity].
    apply is_prefix_longer in Hpre. contradiction.
Qed.

(** One round of the inner loop on a file that is copied. *)
Lemma copied_step (fs_c : node) (rel : path) (f data : string) :
  copied src dst fs fs_c ->
  is_dir (src ++ rel) fs = true ->
  file_at ((src ++ rel) ++ [f]) fs = Some data ->
  suffix ((src ++ rel) ++ [f]) <> ".html" ->
  exists fs_m fs',
    mkdirs [] (dst ++ rel) fs_c = inr fs_m
    /\ copy2_fs ((src ++ rel) ++ [f]) ((dst ++ rel) ++ [f]) fs_m = inr fs'
    /\ copied src dst fs fs'
    /\ forall q, file_at (dst ++ q) fs'
                 = if decide (q = rel ++ [f]) then Some data else file_at (dst ++ q) fs_c.
Proof.
  intros (Hd & Hb & Hc & Ha) Hrel Hfile Hext.
  assert (Hfree : forall r, is_prefix r (dst ++ rel) = true -> file_at r fs_c = None).
  { intros r Hr. apply is_prefix_app_cases in Hr as [Hr | (q' & -> & Hq')].
    - apply is_dir_not_file. now apply (is_dir_prefix r dst).
    - destruct (file_at (dst ++ q') fs_c) as [d |] eqn:Hq; [| reflexivity].
      apply Ha in Hq as [_ Hq]. apply is_prefix_inv in Hq' as [r ->].
      rewrite app_assoc in Hrel. apply is_dir_app, is_dir_not_file in Hrel. congruence. }
  destruct (mkdirs_succeeds [] (dst ++ rel) fs_c Hfree) as [fs_m Hmk].
  pose proof (fun q => stat_mkdirs _ _ q _ _ Hmk) as Hstat_m.
  assert (Hroot : is_dir (dst ++ rel) fs_m = true).
  { now rewrite is_dir_stat, Hstat_m, is_prefix_refl. }
  assert (Hlonger : is_prefix ((dst ++ rel) ++ [f]) (dst ++ rel) = false).
  { apply not_true_iff_false. intros H. now apply is_prefix_longer in H. }
  assert (Hnd : is_dir ((dst ++ rel) ++ [f]) fs_m = false).
  { rewrite is_dir_stat, Hstat_m, Hlonger, <- is_dir_stat.
    apply not_true_iff_false. intros H. rewrite <- app_assoc in H.
    apply Hc in H. rewrite app_assoc in H. apply is_dir_not_file in H. congruence. }
  assert (Hread : read_bytes ((src ++ rel) ++ [f]) fs_m = inr data).
  { apply read_bytes_file_at. unfold file_at in *.
    assert (Hp : apart dst ((src ++ rel) ++ [f]) = true).
    { rewrite <- app_assoc. apply apart_app_r. now rewrite apart_sym. }
    rewrite (lookup_mkdirs_apart _ _ _ _ _ (apart_app_l _ _ rel Hp) Hmk).
    now rewrite (Hb _ Hp). }
  set (fs' := put_node ((dst ++ rel) ++ [f]) (Some (File data)) fs_m).
  assert (Hstat' : forall q,
             stat q fs'
             = if decide (q = (dst ++ rel) ++ [f]) then Some (Some data)
               else if is_prefix q (dst ++ rel) then Some None else stat q fs_c).
  { intros q. subst fs'. rewrite stat_put_file.
    - case_decide; [reflexivity | apply Hstat_m].
    - now destruct (dst ++ rel).
    - now rewrite removelast_snoc.
    - exact Hnd. }
  exists fs_m, fs'. split; [assumption |]. split; [| split].
  - unfold copy2_fs. rewrite Hread, Hnd. now apply write_bytes_run.
  - split; [| split; [| split]].
    + rewrite is_dir_stat, Hstat'. case_decide as Heq.
      * apply (f_equal (@List.length _)) in Heq. rewrite !length_app in Heq.
        simpl in Heq. lia.
      * now rewrite is_prefix_app.
    + intros p Hp. subst fs'. rewrite lookup_put_apart.
      * rewrite (lookup_mkdirs_apart _ _ _ _ _ (apart_app_l _ _ rel Hp) Hmk). now apply Hb.
      * rewrite <- app_assoc. now apply apart_app_l.
    + intros q. rewrite is_dir_stat, Hstat'. case_decide; [discriminate |].
      destruct (is_prefix (dst ++ q) (dst ++ rel)) eqn:Hq.
      * intros _. rewrite is_prefix_app_inv in Hq. apply is_prefix_inv in Hq as [r ->].
        rewrite app_assoc in Hrel. now apply is_dir_app in Hrel.
      * rewrite <- is_dir_stat. apply Hc.
    + intros q d. rewrite file_at_stat, Hstat'. case_decide as Heq.
      * intros [= <-]. rewrite <- app_assoc in Heq. apply app_inv_head in Heq as ->.
        rewrite app_assoc. auto.
      * destruct (is_prefix (dst ++ q) (dst ++ rel)); [discriminate |].
        rewrite <- file_at_stat. apply Ha.
  - intros q. rewrite file_at_stat, Hstat', <- app_assoc.
    case_decide as Heq; case_decide as Heq'; trivial.
    + apply app_inv_head in Heq. contradiction.
    + subst q. contradiction.
    + destruct (is_prefix (dst ++ q) (dst ++ rel)) eqn:Hq; [| now rewrite file_at_stat].
      symmetry. now apply Hfree.
Qed.

End CopyStep.

Section CopyOutputsStores.
Context {D : Data} {E : External}.

Lemma html_test (p : path) :
  negb (List.existsb (String.eqb (suffix p)) [".html"]) = true <-> suffix p <> ".html".
Proof.
  cbn [List.existsb]. rewrite orb_false_r, negb_true_iff.
  destruct (String.eqb_spec (suffix p) ".html"); split; congruence.
Qed.

(** X17.  [copy_outputs(src, dst)] for an existing destination and a source
    directory beside it whose directories list every name once: it returns,
    and afterwards the files below the destination are exactly the files
    below the source whose suffix is not [.html], at the same relative
    paths and with the same bytes; no path that leaves the destination has
    changed (the source is intact), and nothing but the file system has. *)
Theorem copy_outputs_stores_what_is_not_html (src dst : path) (s : state) (n : node) :
  apart src dst = true ->
  lookup_node src (w_fs (st_world s)) = Some n ->
  is_dir src (w_fs (st_world s)) = true ->
  unique_names n = true ->
  is_dir dst (w_fs (st_world s)) = true ->
  exists fs',
    copy_outputs src dst s = (Ok tt, State (set_fs (st_world s) fs') (st_log s))
    /\ (forall q data,
          read_bytes (dst ++ q) fs' = inr data
          <-> read_bytes (src ++ q) (w_fs (st_world s)) = inr data
              /\ suffix (src ++ q) <> ".html")
    /\ (forall p, apart dst p = true ->
          lookup_node p fs' = lookup_node p (w_fs (st_world s))).
Proof.
  intros Hapart Hn Hsrc Hwf Hdst.
  set (fs := w_fs (st_world s)) in *.
  destruct (copied_start src dst fs Hapart Hsrc Hdst) as (fs1 & Hmk & Hstart & _).
  pose proof (apart_not_nil _ _ Hapart) as Hne.
  unfold copy_outputs.
  assert (Hrm : rmtree dst s = (Ok tt, State (set_fs (st_world s) (put_node dst None fs)) (st_log s))).
  { unfold rmtree. rewrite fs_update_run. fold fs. unfold rmtree_fs.
    unfold is_dir in Hdst. now destruct (lookup_node dst fs) as [[d | es] |]. }
  rewrite (bind_ok _ _ _ _ _ Hrm).
  assert (Hmkdir : mkdir_parents_exist_ok dst
                     (State (set_fs (st_world s) (put_node dst None fs)) (st_log s))
                   = (Ok tt, State (set_fs (st_world s) fs1) (st_log s))).
  { unfold mkdir_parents_exist_ok. rewrite fs_update_run.
    cbn [st_world st_log set_fs w_fs]. now rewrite Hmk. }
  rewrite (bind_ok _ _ _ _ _ Hmkdir).
  unfold bind at 1, get_world at 1. cbn [st_world set_fs w_fs].
  assert (Hwalk : walk src fs1 = walk_node src n).
  { unfold walk. destruct Hstart as (_ & Hb & _).
    rewrite Hb by (now rewrite apart_sym). now rewrite Hn. }
  rewrite Hwalk.
  set (copy_file := fun (root : path) (f : string) =>
         match relative_to root src with
         | None => raise (ValueError "relative_to")
         | Some dir_suffix =>
             if negb (List.existsb (String.eqb (suffix (joinpath root [f]))) [".html"])
             then mkdir_parents_exist_ok (joinpath dst dir_suffix) ;;;
                  copy2 (joinpath root [f]) (joinpath (joinpath dst dir_suffix) [f])
             else ret tt
         end : M unit).
  erewrite (for_each_ext _ _
              (fun x => for_each (snd x) (copy_file (fst (fst x))))).
  2: { intros [[root ds] fls] s0 Hin. cbn [fst snd].
       apply walk_node_root in Hin as [rel ->]. rewrite relative_to_app.
       apply for_each_ext. intros f s1 _. subst copy_file. cbn beta.
       now rewrite relative_to_app. }
  rewrite for_each_nested.
  match goal with
  | |- context [for_each ?l _ _] => set (items := l)
  end.
  assert (Hitems : forall x, In x items ->
            exists rel data,
              fst (fst (fst x)) = src ++ rel
              /\ is_dir (src ++ rel) fs = true
              /\ file_at ((src ++ rel) ++ [snd x]) fs = Some data).
  { intros [[[root ds] fls] f] Hx. subst items.
    apply in_flat_map in Hx as ([[root' ds'] fls'] & Hin & Hx).
    apply in_map_iff in Hx as (f0 & [= -> -> -> ->] & Hf). cbn [fst snd].
    destruct (walk_node_files _ _ _ _ _ Hwf Hin) as (rel & -> & Hdir & Hfiles).
    destruct (Hfiles f Hf) as [data Hdata]. exists rel, data.
    split; [reflexivity |]. unfold is_dir, file_at in *.
    rewrite <- app_assoc, !lookup_node_app, Hn. rewrite Hdata. auto. }
  destruct (for_each_steps
              (fun pre s0 =>
                 exists fs_c,
                   s0 = State (set_fs (st_world s) fs_c) (st_log s)
                   /\ copied src dst fs fs_c
                   /\ forall x rel, In x pre -> fst (fst (fst x)) = src ++ rel ->
                        suffix ((src ++ rel) ++ [snd x]) <> ".html" ->
                        file_at (dst ++ rel ++ [snd x]) fs_c
                        = file_at ((src ++ rel) ++ [snd x]) fs)
              items (fun xy => copy_file (fst (fst (fst xy))) (snd xy))
              (State (set_fs (st_world s) fs1) (st_log s)))
    as (s' & Hrun & fs' & -> & Hcopied & Hposts).
  { exists fs1. split; [reflexivity |]. split; [assumption | intros x rel []]. }
  { intros pre x s0 Hx (fs_c & -> & Hc & Hposts).
    destruct (Hitems x Hx) as (rel & data & Hroot & Hdir & Hfile).
    destruct x as [[[root ds] fls] f]. cbn [fst snd] in *. subst root.
    subst copy_file. cbn beta. rewrite relative_to_app. unfold joinpath.
    destruct (negb _) eqn:Hhtml.
    - apply html_test in Hhtml.
      destruct (copied_step src dst fs Hapart fs_c rel f data Hc Hdir Hfile Hhtml)
        as (fs_m & fs' & Hmk' & Hcopy & Hc' & Hfiles).
      eexists. split.
      + unfold mkdir_parents_exist_ok, copy2. rewrite (bind_ok _ _ _ (State (set_fs (st_world s) fs_m) (st_log s)) tt).
        * rewrite fs_update_run. cbn [st_world st_log set_fs w_fs]. rewrite Hcopy.
          reflexivity.
        * rewrite fs_update_run. cbn [st_world st_log set_fs w_fs]. now rewrite Hmk'.
      + exists fs'. split; [reflexivity |]. split; [assumption |].
        intros y rel' Hy Hroot' Hext'. rewrite Hfiles.
        apply in_app_or in Hy as [Hy | [<- | []]].
        * case_decide as Heq; [| now apply Hposts].
          apply app_inj_tail in Heq as [-> ->]. now rewrite Hfile.
        * cbn [fst snd] in *. apply app_inv_head in Hroot' as <-.
          case_decide; [now rewrite Hfile | contradiction].
    - eexists. split; [reflexivity |].
      exists fs_c. split; [reflexivity |]. split; [assumption |].
      intros y rel' Hy Hroot' Hext'.
      apply in_app_or in Hy as [Hy | [<- | []]]; [now apply Hposts |].
      cbn [fst snd] in *. apply app_inv_head in Hroot' as <-.
      apply html_test in Hext'. congruence. }
  exists fs'. split; [exact Hrun |].
  destruct Hcopied as (Hd & Hb & Hc & Ha). split; [| exact Hb].
  intros q data. rewrite !read_bytes_file_at. split.
  - intros Hq. apply Ha in Hq. tauto.
  - intros [Hq Hext].
    assert (Hqn : q <> []).
    { intros ->. rewrite app_nil_r in Hq. apply is_dir_not_file in Hsrc. congruence. }
    assert (Hlook : lookup_node q n = Some (File data)).
    { unfold file_at in Hq. rewrite lookup_node_app, Hn in Hq.
      now destruct (lookup_node q n) as [[d | es] |]; [injection Hq as -> | |]. }
    destruct (walk_node_complete q n src data Hqn Hlook)
      as (rel & f & ds & fls & -> & Hin & Hf).
    rewrite <- Hq. rewrite (app_assoc src).
    apply (Hposts (src ++ rel, ds, fls, f) rel); [| reflexivity | now rewrite <- app_assoc].
    subst items. apply in_flat_map. exists (src ++ rel, ds, fls).
    split; [assumption |]. now apply in_map.
Qed.

End CopyOutputsStores.

Lemma copy_outputs_stores_what_is_not_html_witness :
  exists fs',
    copy_outputs Demo.case01_outputs Demo.case01_expected
      (Demo.initial (Demo.case01_run "stale" Demo.extra_files))
    = (Ok tt,
       State (set_fs (st_world (Demo.initial (Demo.case01_run "stale" Demo.extra_files))) fs')
         (st_log (Demo.initial (Demo.case01_run "stale" Demo.extra_files))))
    /\ (forall q data,
          read_bytes (Demo.case01_expected ++ q) fs' = inr data
          <-> read_bytes (Demo.case01_outputs ++ q)
                (w_fs (st_world (Demo.initial (Demo.case01_run "stale" Demo.extra_files))))
              = inr data
              /\ suffix (Demo.case01_outputs ++ q) <> ".html")
    /\ (forall p, apart Demo.case01_expected p = true ->
          lookup_node p fs'
          = lookup_node p
              (w_fs (st_world (Demo.initial (Demo.case01_run "stale" Demo.extra_files))))).
Proof.
  apply (copy_outputs_stores_what_is_not_html Demo.case01_outputs Demo.case01_expected
           (Demo.initial (Demo.case01_run "stale" Demo.extra_files))
           (Dir (("df.csv", File src_main.df_csv) :: Demo.extra_files)));
    reflexivity.
Defined.

(** ** Create and update mode with the model of src/main.py *)

(** Two different names in the same directory. *)
Lemma apart_siblings (p : path) (a b : string) :
  a <> b -> apart (p ++ [a]) (p ++ [b]) = true.
Proof.
  intros Hab. induction p as [|x p IH]; simpl.
  - destruct (String.eqb_spec a b); [contradiction | reflexivity].
  - now rewrite String.eqb_refl.
Qed.

Lemma lookup_below_empty (p q : path) (fs : node) :
  lookup_node p fs = Some (Dir []) -> q <> [] -> lookup_node (p ++ q) fs = None.
Proof. intros Hp Hq. rewrite lookup_node_app, Hp. now destruct q. Qed.

Lemma lookup_below_nothing (p q : path) (fs : node) :
  lookup_node p fs = None -> lookup_node (p ++ q) fs = None.
Proof. intros Hp. now rewrite lookup_node_app, Hp. Qed.

(** The directory that now lists what was put into it. *)
Lemma lookup_put_parent (r : path) (a : string) (v : node) (fs : node)
    (es : list (string * node)) :
  lookup_node r fs = Some (Dir es) ->
  lookup_node r (put_node (r ++ [a]) (Some v) fs) = Some (Dir (entry_set a v es)).
Proof.
  revert fs. induction r as [|b r IH]; intros fs.
  - intros [= ->]. reflexivity.
  - rewrite <- app_comm_cons. cbn [lookup_node].
    destruct fs as [data | es0]; [discriminate |].
    destruct (entry_get b es0) as [c |] eqn:Hc; [| discriminate].
    intros Hr. rewrite put_node_cons, Hc by now destruct r.
    cbn [lookup_node]. rewrite entry_get_set. now apply IH.
Qed.

(** [mkdir] of a missing folder in an existing directory. *)
Lemma mkdirs_new (at_ r : path) (a : string) (fs : node) :
  is_dir r fs = true -> lookup_node (r ++ [a]) fs = None ->
  mkdirs at_ (r ++ [a]) fs = inr (put_node (r ++ [a]) (Some (Dir [])) fs).
Proof.
  unfold is_dir. revert at_ fs. induction r as [|b r IH]; intros at_ fs.
  - destruct fs as [data | es]; [discriminate |]. intros _. cbn [app lookup_node mkdirs put_node].
    now destruct (entry_get a es).
  - rewrite <- app_comm_cons. cbn [lookup_node mkdirs].
    destruct fs as [data | es]; [discriminate |].
    destruct (entry_get b es) as [c |] eqn:Hc; [| discriminate].
    intros Hdir Hnone. rewrite (IH _ _ Hdir Hnone).
    now rewrite put_node_cons, Hc by now destruct r.
Qed.

Section Raising.
Context {D : Data} {E : External}.

Lemma bind_raise_exc {A B} (m : M A) (k : A -> M B) (s : state) :
  (exists e s', m s = (Raise (Exc e), s')) ->
  exists e s', bind m k s = (Raise (Exc e), s').
Proof. intros (e & s' & H). rewrite (bind_raise _ _ _ _ _ H). eauto. Qed.

End Raising.

Section ModelFrame.
Context {D : Data}.

(** Whatever the model of src/main.py does, it does below [Outputs] in the
    working directory; it returns or raises an [Exception]. *)
Lemma main_frame (w : world) :
  exists fs',
    snd (src_main.main w) = set_fs w fs'
    /\ (forall p, apart (joinpath (w_cwd w) ["Outputs"]) p = true ->
          lookup_node p fs' = lookup_node p (w_fs w))
    /\ forall c, fst (src_main.main w) <> Some (SystemExit c).
Proof.
  unfold src_main.main.
  destruct (mkdirs [] _ (w_fs w)) as [e | fs1] eqn:Hmk.
  { exists (w_fs w). split; [now destruct w |]. split; [reflexivity | discriminate]. }
  assert (H1 : forall p, apart (joinpath (w_cwd w) ["Outputs"]) p = true ->
             lookup_node p fs1 = lookup_node p (w_fs w))
    by (intros p Hp; exact (lookup_mkdirs_apart _ _ _ _ _ Hp Hmk)).
  destruct (write_bytes _ _ fs1) as [e | fs2] eqn:Hwr.
  { exists fs1. split; [reflexivity |]. split; [assumption | discriminate]. }
  exists fs2. split; [reflexivity |]. split; [| discriminate].
  intros p Hp. rewrite <- (H1 p Hp). unfold write_bytes in Hwr.
  destruct (lookup_node _ fs1) as [[d | es] |]; try discriminate;
    destruct (is_dir _ fs1); try discriminate; injection Hwr as <-;
    apply lookup_put_apart; unfold joinpath; now apply apart_app_l.
Qed.

(** The model started in a directory that has no [Outputs] yet. *)
Lemma main_fresh (w : world) :
  is_dir (w_cwd w) (w_fs w) = true ->
  lookup_node (joinpath (w_cwd w) ["Outputs"]) (w_fs w) = None ->
  exists fs',
    src_main.main w = (None, set_fs w fs')
    /\ lookup_node (joinpath (w_cwd w) ["Outputs"]) fs'
       = Some (Dir [("df.csv", File src_main.df_csv)])
    /\ forall p, apart (joinpath (w_cwd w) ["Outputs"]) p = true ->
         lookup_node p fs' = lookup_node p (w_fs w).
Proof.
  intros Hcwd Hnone. unfold src_main.main, joinpath in *.
  rewrite (mkdirs_new _ _ _ _ Hcwd Hnone).
  set (out := w_cwd w ++ ["Outputs"]) in *.
  set (fs1 := put_node out (Some (Dir [])) (w_fs w)).
  assert (Hout : lookup_node out fs1 = Some (Dir [])) by (now apply lookup_put_same).
  rewrite write_bytes_run.
  - eexists. split; [reflexivity |]. split.
    + now rewrite (lookup_put_parent _ _ _ _ _ Hout).
    + intros p Hp. rewrite lookup_put_apart by (now apply apart_app_l).
      now apply lookup_put_apart.
  - unfold is_dir. now rewrite Hout.
  - unfold is_dir. now rewrite (lookup_below_empty _ _ _ Hout).
Qed.

End ModelFrame.

Section KeepsCwd.
Context {D : Data} {E : External}.

Global Instance same_cwd_refl : Reflexive same_cwd.
Proof. intros s. reflexivity. Qed.
Global Instance same_cwd_trans : Transitive same_cwd.
Proof. intros a b c H1 H2. unfold same_cwd in *. congruence. Qed.

Lemma same_cwd_setenv (k v : string) : preserves same_cwd (setenv k v).
Proof. intros s. reflexivity. Qed.

Lemma same_cwd_prepare_mock_data (database_dir : path) (timestamp_unix : Z)
    (database_json : list json) :
  preserves same_cwd (prepare_mock_data database_dir timestamp_unix database_json).
Proof.
  induction database_json as [|d rest IH]; cbn [prepare_mock_data].
  - apply preserves_ret. typeclasses eauto.
  - repeat first
      [ apply preserves_ret | apply preserves_lift | apply preserves_open_read
      | apply same_cwd_setenv | exact IH
      | (apply preserves_bind; [typeclasses eauto | | intro]) ];
      try typeclasses eauto.
Qed.

Lemma add_tables_cwd (mock_data : list (string * frame)) (acc : list string)
    (s : state) :
  w_cwd (st_world (snd (add_tables mock_data acc s))) = w_cwd (st_world s).
Proof.
  revert acc s. induction mock_data as [|[t df] md IH]; intros acc s; cbn [add_tables];
    [reflexivity |].
  unfold db_add_table at 1, bind at 1, get_world at 1.
  destruct (add_table_error _ df t DET_DB_SCHEMA); [reflexivity |].
  cbn. now rewrite IH.
Qed.

Lemma dump_mock_data_in_db_ok_cwd (case_dir : path) (s s' : state)
    (table_names : list string) :
  dump_mock_data_in_db case_dir s = (Ok table_names, s') ->
  w_cwd (st_world s') = w_cwd (st_world s).
Proof.
  intros Hrun.
  apply dump_mock_data_in_db_inv in Hrun
    as [[_ ->] | [[[e [=]] _] | (items & md & s2 & Hprep & Hadd)]]; [reflexivity |].
  pose proof (preserves_run same_cwd _ _ _ _ (same_cwd_prepare_mock_data _ _ _) Hprep)
    as H2.
  pose proof (add_tables_cwd md [] s2) as H3.
  destruct (add_tables md [] s2) as [[[[e | c] |] names] s3];
    [now destruct Hadd | contradiction |].
  destruct Hadd as [_ ->]. cbn [snd] in H3. unfold same_cwd in H2. congruence.
Qed.

End KeepsCwd.

Section CreateMode.
Context {D : Data} {E : External}.
Hypothesis Hmodel : forall w, main_model w = src_main.main w.

(** With the model of src/main.py, a case run in create or update mode in
    a folder without [ExpectedOutputs] ends in an [Exception]: if nothing
    fails earlier, [copy_outputs] fails on the missing folder. *)
Lemma run_case_without_expected_outputs (run_type : string) (case_dir : path)
    (s : state) :
  run_type = "create" \/ run_type = "update" ->
  lookup_node (joinpath case_dir [EXPECTED_OUTPUTS_FOLDER]) (w_fs (st_world s)) = None ->
  exists e s', run_case run_type case_dir s = (Raise (Exc e), s').
Proof.
  intros Hmode Hexp. unfold run_case.
  (* os.chdir *)
  assert (Hchdir : (exists e, chdir case_dir s = (Raise (Exc e), s))
                   \/ (is_dir case_dir (w_fs (st_world s)) = true
                       /\ chdir case_dir s
                          = (Ok tt, State (set_cwd (st_world s) case_dir) (st_log s)))).
  { unfold chdir, bind, get_world, is_dir. cbn.
    destruct (lookup_node case_dir _) as [[d | es] |]; eauto. }
  destruct Hchdir as [[e He] | [Hdir Hchdir]].
  { rewrite (bind_raise _ _ _ _ _ He). eauto. }
  rewrite (bind_ok _ _ _ _ _ Hchdir).
  set (s0 := State (set_cwd (st_world s) case_dir) (st_log s)).
  (* process inputs *)
  destruct (process_inputs run_type case_dir s0) as [[names | r] s2] eqn:Hinputs.
  2: { rewrite (bind_raise _ _ _ _ _ Hinputs).
       enough (exists e, r = Exc e) as [e ->] by eauto.
       unfold process_inputs in Hinputs.
       apply bind_inv in Hinputs as [(names & s1 & Hdump & Hrest) | (x & Hdump & [= ->])].
       - apply bind_inv in Hrest as [(? & ? & _ & [=]) | (x & Hcopy & [= ->])].
         destruct (String.eqb run_type "create"); [| discriminate Hcopy].
         unfold copytree in Hcopy. rewrite fs_update_run in Hcopy.
         destruct (copytree_fs _ _ _); [| discriminate]. injection Hcopy as <- _. eauto.
       - apply dump_mock_data_in_db_spec in Hdump as (_ & Hexc & _). exact Hexc. }
  rewrite (bind_ok _ _ _ _ _ Hinputs).
  assert (Hs2 : w_cwd (st_world s2) = case_dir
                /\ lookup_node (joinpath case_dir [EXPECTED_OUTPUTS_FOLDER])
                     (w_fs (st_world s2)) = None).
  { unfold process_inputs in Hinputs.
    apply bind_inv in Hinputs as [(names' & s1 & Hdump & Hrest) | (x & _ & [=])].
    pose proof (dump_mock_data_in_db_ok_cwd _ _ _ _ Hdump) as Hcwd.
    apply dump_mock_data_in_db_spec in Hdump as [Hfs _].
    apply bind_inv in Hrest as [([] & s1' & Hcopy & [= _ <-]) | (x & _ & [=])].
    destruct (String.eqb run_type "create").
    - unfold copytree in Hcopy. rewrite fs_update_run in Hcopy.
      destruct (copytree_fs _ _ _) as [e | fs2] eqn:Hct; [discriminate |].
      injection Hcopy as <-. cbn [st_world set_fs w_cwd w_fs]. split; [exact Hcwd |].
      unfold copytree_fs in Hct.
      destruct (lookup_node (joinpath paths.ROOT_DIR _) _) as [[d | es] |];
        try discriminate.
      destruct (lookup_node (joinpath case_dir [INPUTS_FOLDER_NAME]) _); [discriminate |].
      unfold joinpath in Hct. rewrite removelast_snoc in Hct.
      rewrite mkdirs_existing in Hct by (now rewrite Hfs).
      injection Hct as <-. rewrite lookup_put_apart; [now rewrite Hfs |].
      now apply apart_siblings.
    - injection Hcopy as <-. split; [exact Hcwd | now rewrite Hfs]. }
  destruct Hs2 as [Hcwd2 Hexp2].
  (* the model *)
  pose proof (run_model_spec names (joinpath case_dir [OUTPUTS_FOLDER_NAME]) s2) as Hrun.
  rewrite Hmodel in Hrun.
  destruct (main_frame (st_world s2)) as (fs3 & Hw3 & Hframe & Hnoexit).
  destruct (src_main.main (st_world s2)) as [[[e | c] |] w3]; cbn [fst snd] in *.
  { rewrite (bind_raise _ _ _ _ _ Hrun). eauto. }
  { now destruct (Hnoexit c). }
  rewrite (bind_ok _ _ _ _ _ Hrun). subst w3.
  (* copy_outputs *)
  apply bind_raise_exc. unfold process_outputs.
  assert (Hcopy : forall s3,
             lookup_node (joinpath case_dir [EXPECTED_OUTPUTS_FOLDER]) (w_fs (st_world s3))
             = None ->
             exists e s', copy_outputs (joinpath case_dir [OUTPUTS_FOLDER_NAME])
                            (joinpath case_dir [EXPECTED_OUTPUTS_FOLDER]) s3
                          = (Raise (Exc e), s')).
  { intros s3 H3. rewrite (copy_outputs_without_destination _ _ _ H3). eauto. }
  assert (Hgone : lookup_node (joinpath case_dir [EXPECTED_OUTPUTS_FOLDER]) fs3 = None).
  { rewrite Hframe; [exact Hexp2 |]. rewrite Hcwd2. now apply apart_siblings. }
  destruct Hmode as [-> | ->]; cbn [String.eqb]; apply Hcopy; exact Hgone.
Qed.

End CreateMode.

Section StoringBaselines.
Context {D : Data} {E : External}.

Lemma test_snapshots_create (s : state) :
  test_snapshots "create" s
  = (cases <- (c <- create_new_case_folder ;; ret [c]) ;;
     for_each cases (test_case "create")) s.
Proof. reflexivity. Qed.

(** X18.  With the model of src/main.py, create mode never returns, whatever the
    project looks like: if the new case folder is made and nothing fails
    before, [copy_outputs] is asked to clear an [ExpectedOutputs] folder
    that nothing has created, and the run ends in an [Exception]. *)
Theorem create_mode_never_returns (s : state) :
  (forall w, main_model w = src_main.main w) ->
  exists e s', test_snapshots "create" s = (Raise (Exc e), s').
Proof.
  intros Hmodel. rewrite test_snapshots_create.
  destruct (create_new_case_folder s) as [[new_case_dir | r] s1] eqn:Hnew.
  - destruct (new_case_folder_is_new_facts _ _ _ Hnew) as [_ Hempty].
    rewrite (bind_ok _ _ _ s1 [new_case_dir]);
      [| now rewrite (bind_ok _ _ _ _ _ Hnew)].
    cbn [for_each]. apply bind_raise_exc.
    rewrite test_case_without_description
      by (unfold is_file, joinpath; now rewrite (lookup_below_empty _ _ _ Hempty)).
    apply (run_case_without_expected_outputs Hmodel); [now left |].
    unfold joinpath. now apply lookup_below_empty.
  - apply bind_raise_exc, bind_raise_exc.
    assert (Hne : no_exit create_new_case_folder).
    { unfold create_new_case_folder, find_cases, mkdir_parents_exist_ok. cannot_exit. }
    destruct (no_exit_run _ _ _ _ Hne Hnew) as [e ->]. eauto.
Qed.

(** X19.  With the model of src/main.py, update mode cannot give a case its
    first baseline: run on a case folder that has no [ExpectedOutputs], it
    ends in an [Exception]. *)
Theorem update_mode_needs_a_baseline_folder (case_dir : path) (s : state) :
  (forall w, main_model w = src_main.main w) ->
  lookup_node (joinpath case_dir [EXPECTED_OUTPUTS_FOLDER]) (w_fs (st_world s)) = None ->
  exists e s', run_case "update" case_dir s = (Raise (Exc e), s').
Proof.
  intros Hmodel Hexp.
  apply (run_case_without_expected_outputs Hmodel); [now right | assumption].
Qed.

End StoringBaselines.

Lemma update_mode_needs_a_baseline_folder_witness :
  exists e s',
    run_case (E := Demo.repo) "update" Demo.case01_dir Demo.empty_case
    = (Raise (Exc e), s').
Proof.
  apply (update_mode_needs_a_baseline_folder (E := Demo.repo));
    [intros w; reflexivity | reflexivity].
Defined.

Lemma create_mode_never_returns_witness :
  exists e s',
    test_snapshots (E := Demo.repo) "create" (Demo.initial Demo.project)
    = (Raise (Exc e), s').
Proof.
  apply (create_mode_never_returns (E := Demo.repo)). intros w. reflexivity.
Defined.

Section EmptySource.
Context {D : Data} {E : External}.

(** Clearing the destination: [rmtree] and [mkdir] leave an empty directory
    there, and every path that leaves the destination as it was. *)
Lemma clear_destination (dst : path) (s : state) :
  dst <> [] -> is_dir dst (w_fs (st_world s)) = true ->
  exists fs1,
    (forall B (k : M B),
        (rmtree dst ;;; mkdir_parents_exist_ok dst ;;; k) s
        = k (State (set_fs (st_world s) fs1) (st_log s)))
    /\ lookup_node dst fs1 = Some (Dir [])
    /\ forall p, apart dst p = true ->
         lookup_node p fs1 = lookup_node p (w_fs (st_world s)).
Proof.
  intros Hne Hdst. set (fs := w_fs (st_world s)) in *.
  destruct (mkdirs_succeeds [] dst (put_node dst None fs)) as [fs1 Hmk].
  { intros r Hr. rewrite file_at_stat, stat_put_none by assumption.
    destruct (is_prefix dst r); [reflexivity |].
    rewrite <- file_at_stat. apply is_dir_not_file.
    now apply (is_dir_prefix r dst). }
  exists fs1. split; [| split].
  - intros B k.
    assert (Hrm : rmtree dst s
                  = (Ok tt, State (set_fs (st_world s) (put_node dst None fs)) (st_log s))).
    { unfold rmtree. rewrite fs_update_run. fold fs. unfold rmtree_fs.
      unfold is_dir in Hdst. now destruct (lookup_node dst fs) as [[d | es] |]. }
    rewrite (bind_ok _ _ _ _ _ Hrm).
    apply (bind_ok _ (fun _ => k) _ _ tt). unfold mkdir_parents_exist_ok. rewrite fs_update_run.
    cbn [st_world st_log set_fs w_fs]. now rewrite Hmk.
  - apply (mkdirs_fresh _ _ _ _ Hmk). now apply lookup_put_none.
  - intros p Hp. rewrite (lookup_mkdirs_apart _ _ _ _ _ Hp Hmk).
    now apply lookup_put_apart.
Qed.

(** Without a source directory, [copy_outputs] still clears the
    destination, and then finds nothing to copy. *)
Lemma copy_outputs_without_source (src dst : path) (s : state) :
  apart src dst = true ->
  is_dir src (w_fs (st_world s)) = false ->
  is_dir dst (w_fs (st_world s)) = true ->
  exists fs1,
    copy_outputs src dst s = (Ok tt, State (set_fs (st_world s) fs1) (st_log s))
    /\ lookup_node dst fs1 = Some (Dir [])
    /\ forall p, apart dst p = true ->
         lookup_node p fs1 = lookup_node p (w_fs (st_world s)).
Proof.
  intros Hapart Hsrc Hdst.
  destruct (clear_destination dst s (apart_not_nil _ _ Hapart) Hdst)
    as (fs1 & Hclear & Hempty & Hframe).
  exists fs1. split; [| auto].
  unfold copy_outputs. rewrite Hclear.
  unfold bind at 1, get_world at 1. cbn [st_world set_fs w_fs].
  assert (Hwalk : walk src fs1 = []).
  { unfold walk. rewrite Hframe by (now rewrite apart_sym).
    unfold is_dir in Hsrc.
    now destruct (lookup_node src (w_fs (st_world s))) as [[d | es] |]. }
  now rewrite Hwalk.
Qed.

(** X20.  Update mode when the model returns without an outputs directory: the
    expected outputs are erased all the same (the folder is left empty and
    nothing else has changed), and then the run ends in the error of the
    last [rmtree], which finds no outputs directory to remove:
    [FileNotFoundError] for the outputs path, or [NotADirectoryError] when a
    regular file has that name. *)
Theorem update_without_outputs_erases_the_baseline (case_dir : path) (s s1 : state)
    (table_names : list string) (w2 : world) :
  (chdir case_dir ;;; process_inputs "update" case_dir) s = (Ok table_names, s1) ->
  main_model (st_world s1) = (None, w2) ->
  is_dir (joinpath case_dir [OUTPUTS_FOLDER_NAME]) (w_fs w2) = false ->
  is_dir (joinpath case_dir [EXPECTED_OUTPUTS_FOLDER]) (w_fs w2) = true ->
  exists s',
    run_case "update" case_dir s
    = (Raise (Exc (if is_file (joinpath case_dir [OUTPUTS_FOLDER_NAME]) (w_fs w2)
                   then NotADirectoryError (joinpath case_dir [OUTPUTS_FOLDER_NAME])
                   else FileNotFoundError (joinpath case_dir [OUTPUTS_FOLDER_NAME]))),
       s')
    /\ lookup_node (joinpath case_dir [EXPECTED_OUTPUTS_FOLDER]) (w_fs (st_world s'))
       = Some (Dir [])
    /\ (forall p, apart (joinpath case_dir [EXPECTED_OUTPUTS_FOLDER]) p = true ->
          lookup_node p (w_fs (st_world s')) = lookup_node p (w_fs w2)).
Proof.
  intros Hinputs Hmodel Hout Hexp.
  apply bind_inv in Hinputs as [([] & s0 & Hchdir & Hinputs) | (x & _ & [=])].
  unfold run_case.
  rewrite (bind_ok _ _ _ _ _ Hchdir), (bind_ok _ _ _ _ _ Hinputs).
  pose proof (run_model_spec table_names (joinpath case_dir [OUTPUTS_FOLDER_NAME]) s1)
    as Hrun.
  rewrite Hmodel in Hrun. rewrite (bind_ok _ _ _ _ _ Hrun).
  set (s2 := State _ _) in *.
  assert (Hapart : apart (joinpath case_dir [OUTPUTS_FOLDER_NAME])
                     (joinpath case_dir [EXPECTED_OUTPUTS_FOLDER]) = true)
    by (now apply apart_siblings).
  destruct (copy_outputs_without_source _ _ s2 Hapart Hout Hexp)
    as (fs3 & Hcopy & Hempty & Hframe).
  change (process_outputs "update" ?a ?b) with (copy_outputs b a).
  rewrite (bind_ok _ _ _ _ _ Hcopy).
  unfold rmtree. rewrite fs_update_run. cbn [st_world st_log set_fs w_fs].
  unfold rmtree_fs. rewrite Hframe by (now rewrite apart_sym).
  subst s2. cbn [st_world set_db w_fs] in *.
  unfold is_dir in Hout. unfold is_file.
  destruct (lookup_node (joinpath case_dir [OUTPUTS_FOLDER_NAME]) (w_fs w2))
    as [[d | es] |]; [| discriminate |]; eauto.
Qed.

End EmptySource.

Lemma update_without_outputs_erases_the_baseline_witness :
  exists s',
    run_case (E := Demo.silent) "update" Demo.case01_dir Demo.baseline_only
    = (Raise (Exc (if is_file (joinpath Demo.case01_dir [OUTPUTS_FOLDER_NAME])
                        (w_fs (st_world Demo.baseline_only))
                   then NotADirectoryError (joinpath Demo.case01_dir [OUTPUTS_FOLDER_NAME])
                   else FileNotFoundError (joinpath Demo.case01_dir [OUTPUTS_FOLDER_NAME]))),
       s')
    /\ lookup_node (joinpath Demo.case01_dir [EXPECTED_OUTPUTS_FOLDER]) (w_fs (st_world s'))
       = Some (Dir [])
    /\ (forall p, apart (joinpath Demo.case01_dir [EXPECTED_OUTPUTS_FOLDER]) p = true ->
          lookup_node p (w_fs (st_world s'))
          = lookup_node p (w_fs (st_world Demo.baseline_only))).
Proof.
  apply (update_without_outputs_erases_the_baseline (E := Demo.silent) Demo.case01_dir
           Demo.baseline_only
           (snd ((chdir Demo.case01_dir ;;;
                  process_inputs (E := Demo.silent) "update" Demo.case01_dir)
                   Demo.baseline_only))
           []
           (st_world (snd ((chdir Demo.case01_dir ;;;
                            process_inputs (E := Demo.silent) "update" Demo.case01_dir)
                             Demo.baseline_only))));
    vm_compute; reflexivity.
Defined.

(** The run of [baseline_only] ends in [FileNotFoundError] for [Outputs]. *)
Example update_without_outputs_raises_file_not_found :
  fst (run_case (E := Demo.silent) "update" Demo.case01_dir Demo.baseline_only)
  = Raise (Exc (FileNotFoundError (joinpath Demo.case01_dir [OUTPUTS_FOLDER_NAME]))).
Proof. vm_compute. reflexivity. Qed.

Lemma relative_to_refl (p : path) : relative_to p p = Some [].
Proof. rewrite <- (app_nil_r p) at 1. apply relative_to_app. Qed.

Section OneFile.
Context {D : Data} {E : External}.

(** [copy_outputs] from a folder that holds one file, not an [.html] one:
    the destination holds that file and nothing else. *)
Lemma copy_outputs_one_file (src dst : path) (s : state) (f data : string) :
  apart src dst = true ->
  lookup_node src (w_fs (st_world s)) = Some (Dir [(f, File data)]) ->
  suffix [f] <> ".html" ->
  is_dir dst (w_fs (st_world s)) = true ->
  exists fs',
    copy_outputs src dst s = (Ok tt, State (set_fs (st_world s) fs') (st_log s))
    /\ lookup_node dst fs' = Some (Dir [(f, File data)])
    /\ forall p, apart dst p = true ->
         lookup_node p fs' = lookup_node p (w_fs (st_world s)).
Proof.
  intros Hapart Hsrc Hext Hdst.
  destruct (clear_destination dst s (apart_not_nil _ _ Hapart) Hdst)
    as (fs1 & Hclear & Hempty & Hframe).
  unfold copy_outputs. rewrite Hclear.
  unfold bind at 1, get_world at 1. cbn [st_world set_fs w_fs].
  assert (Hsrc1 : lookup_node src fs1 = Some (Dir [(f, File data)])).
  { rewrite Hframe by (now rewrite apart_sym). exact Hsrc. }
  unfold walk. rewrite Hsrc1. cbn [walk_node dirnames filenames List.filter List.map
                                   List.flat_map snd fst app for_each].
  rewrite relative_to_refl. unfold joinpath. rewrite app_nil_r.
  rewrite (proj2 (html_test (src ++ [f]))) by (now rewrite suffix_app).
  assert (Hmk : mkdir_parents_exist_ok dst (State (set_fs (st_world s) fs1) (st_log s))
                = (Ok tt, State (set_fs (st_world s) fs1) (st_log s))).
  { unfold mkdir_parents_exist_ok. rewrite fs_update_run.
    cbn [st_world st_log set_fs w_fs]. rewrite mkdirs_existing; [reflexivity |].
    unfold is_dir. now rewrite Hempty. }
  set (fs' := put_node (dst ++ [f]) (Some (File data)) fs1).
  assert (Hcopy : copy2 (src ++ [f]) (dst ++ [f])
                    (State (set_fs (st_world s) fs1) (st_log s))
                  = (Ok tt, State (set_fs (st_world s) fs') (st_log s))).
  { unfold copy2. rewrite fs_update_run. cbn [st_world st_log set_fs w_fs].
    unfold copy2_fs, read_bytes. rewrite lookup_node_app, Hsrc1.
    cbn [lookup_node entry_get]. rewrite String.eqb_refl.
    assert (Hnd : is_dir (dst ++ [f]) fs1 = false).
    { unfold is_dir. now rewrite (lookup_below_empty _ _ _ Hempty). }
    rewrite Hnd, write_bytes_run; [reflexivity | | exact Hnd].
    unfold is_dir. now rewrite Hempty. }
  exists fs'. split; [| split].
  - unfold bind. rewrite Hmk, Hcopy. reflexivity.
  - subst fs'. now rewrite (lookup_put_parent _ _ _ _ _ Hempty).
  - intros p Hp. subst fs'. rewrite lookup_put_apart by (now apply apart_app_l).
    now apply Hframe.
Qed.

End OneFile.

Section RoundTrip.
Context {D : Data} {E : External}.

Lemma assert_file_csv (out exp : path) :
  suffix exp = ".csv" -> assert_file out exp = assert_csv out exp.
Proof. unfold assert_file. now intros ->. Qed.

Hypothesis Hmodel : forall w, main_model w = src_main.main w.

(** A case run with the model of src/main.py, in update or compare mode, on
    a case folder that has no [_Database] folder and no [Outputs] yet, up to
    the point where the outputs are processed: nothing is staged, the model
    returns, and [Outputs] holds [df.csv] and nothing else. *)
Lemma run_case_to_outputs (run_type : string) (case_dir : path) (s : state) :
  String.eqb run_type "create" = false ->
  is_dir case_dir (w_fs (st_world s)) = true ->
  is_dir (joinpath case_dir [INPUTS_FOLDER_NAME; DATABASE_FOLDER_NAME])
    (w_fs (st_world s)) = false ->
  lookup_node (joinpath case_dir [OUTPUTS_FOLDER_NAME]) (w_fs (st_world s)) = None ->
  exists fs3,
    run_case run_type case_dir s
    = (process_outputs run_type (joinpath case_dir [EXPECTED_OUTPUTS_FOLDER])
         (joinpath case_dir [OUTPUTS_FOLDER_NAME]) ;;;
       rmtree (joinpath case_dir [OUTPUTS_FOLDER_NAME]))
        (State (set_fs (set_cwd (st_world s) case_dir) fs3) (st_log s))
    /\ lookup_node (joinpath case_dir [OUTPUTS_FOLDER_NAME]) fs3
       = Some (Dir [("df.csv", File src_main.df_csv)])
    /\ forall p, apart (joinpath case_dir [OUTPUTS_FOLDER_NAME]) p = true ->
         lookup_node p fs3 = lookup_node p (w_fs (st_world s)).
Proof.
  intros Hmode Hdir Hdb Hout.
  set (s0 := State (set_cwd (st_world s) case_dir) (st_log s)).
  assert (Hchdir : chdir case_dir s = (Ok tt, s0)).
  { unfold chdir, bind, get_world, is_dir in *. cbn.
    now destruct (lookup_node case_dir _) as [[d | es] |]. }
  assert (Hinputs : process_inputs run_type case_dir s0 = (Ok [], s0)).
  { unfold process_inputs. rewrite (bind_ok _ _ _ _ _ (dump_without_database _ s0 Hdb)).
    now rewrite Hmode. }
  destruct (main_fresh (st_world s0) Hdir Hout) as (fs3 & Hmain & Hout3 & Hframe).
  pose proof (run_model_spec [] (joinpath case_dir [OUTPUTS_FOLDER_NAME]) s0) as Hrun.
  rewrite Hmodel, Hmain in Hrun.
  exists fs3. split; [| split; [exact Hout3 | exact Hframe]].
  unfold run_case.
  rewrite (bind_ok _ _ _ _ _ Hchdir), (bind_ok _ _ _ _ _ Hinputs),
    (bind_ok _ _ _ _ _ Hrun).
  f_equal. cbn [drop_tables List.fold_left List.map st_log s0].
  rewrite app_nil_r, set_db_same. reflexivity.
Qed.

(** The two runs from [os.chdir] on: the update run returns, changes nothing
    outside [Outputs] and [ExpectedOutputs], and the compare run that follows
    returns as well. *)
Lemma run_case_update_then_compare (case_dir : path) (s : state) (data : frame) :
  is_dir case_dir (w_fs (st_world s)) = true ->
  is_dir (joinpath case_dir [INPUTS_FOLDER_NAME; DATABASE_FOLDER_NAME])
    (w_fs (st_world s)) = false ->
  lookup_node (joinpath case_dir [OUTPUTS_FOLDER_NAME]) (w_fs (st_world s)) = None ->
  is_dir (joinpath case_dir [EXPECTED_OUTPUTS_FOLDER]) (w_fs (st_world s)) = true ->
  read_csv src_main.df_csv = inr data ->
  assert_frame_equal data data 1e-8%float 0%Z = None ->
  exists s1 s2,
    run_case "update" case_dir s = (Ok tt, s1)
    /\ lookup_node (joinpath case_dir [EXPECTED_OUTPUTS_FOLDER]) (w_fs (st_world s1))
       = Some (Dir [("df.csv", File src_main.df_csv)])
    /\ (forall p, apart (joinpath case_dir [OUTPUTS_FOLDER_NAME]) p = true ->
          apart (joinpath case_dir [EXPECTED_OUTPUTS_FOLDER]) p = true ->
          lookup_node p (w_fs (st_world s1)) = lookup_node p (w_fs (st_world s)))
    /\ run_case "compare" case_dir s1 = (Ok tt, s2).
Proof.
  intros Hdir Hdb Hout Hexp Hcsv Hequal.
  set (out := joinpath case_dir [OUTPUTS_FOLDER_NAME]) in *.
  set (exp := joinpath case_dir [EXPECTED_OUTPUTS_FOLDER]) in *.
  set (dbdir := joinpath case_dir [INPUTS_FOLDER_NAME; DATABASE_FOLDER_NAME]) in *.
  assert (Hoe : apart out exp = true) by (now apply apart_siblings).
  assert (Heo : apart exp out = true) by (now apply apart_siblings).
  assert (Hod : apart out dbdir = true).
  { unfold out, dbdir, joinpath.
    change [INPUTS_FOLDER_NAME; DATABASE_FOLDER_NAME]
      with ([INPUTS_FOLDER_NAME] ++ [DATABASE_FOLDER_NAME]).
    rewrite app_assoc. apply apart_app_r. now apply apart_siblings. }
  assert (Hed : apart exp dbdir = true).
  { unfold exp, dbdir, joinpath.
    change [INPUTS_FOLDER_NAME; DATABASE_FOLDER_NAME]
      with ([INPUTS_FOLDER_NAME] ++ [DATABASE_FOLDER_NAME]).
    rewrite app_assoc. apply apart_app_r. now apply apart_siblings. }
  (* update *)
  destruct (run_case_to_outputs "update" case_dir s eq_refl Hdir Hdb Hout)
    as (fs3 & Hrun & Hout3 & Hframe3).
  fold out exp in Hrun, Hout3, Hframe3.
  set (s3 := State (set_fs (set_cwd (st_world s) case_dir) fs3) (st_log s)) in *.
  destruct (copy_outputs_one_file out exp s3 "df.csv" src_main.df_csv Hoe Hout3)
    as (fs4 & Hcopy & Hexp4 & Hframe4); [discriminate | |].
  { cbn [s3 st_world set_fs w_fs]. unfold is_dir. rewrite Hframe3 by assumption.
    exact Hexp. }
  cbn [s3 st_world st_log set_fs set_cwd w_fs w_cwd w_env w_db w_clock] in Hcopy, Hframe4.
  set (s4 := State _ _) in Hcopy.
  assert (Hrm : rmtree out s4
                = (Ok tt, State (set_fs (st_world s4) (put_node out None fs4)) (st_log s4))).
  { unfold rmtree. rewrite fs_update_run. unfold rmtree_fs.
    cbn [s4 st_world set_fs w_fs]. rewrite Hframe4 by assumption.
    cbn [s3 st_world set_fs w_fs]. now rewrite Hout3. }
  set (s1 := State (set_fs (st_world s4) (put_node out None fs4)) (st_log s4)) in *.
  assert (Hupdate : run_case "update" case_dir s = (Ok tt, s1)).
  { rewrite Hrun. change (process_outputs "update" exp out) with (copy_outputs out exp).
    now rewrite (bind_ok _ _ _ _ _ Hcopy). }
  assert (Hlook1 : forall p, apart out p = true -> apart exp p = true ->
             lookup_node p (w_fs (st_world s1)) = lookup_node p (w_fs (st_world s))).
  { intros p Hp1 Hp2. cbn [s1 s4 st_world set_fs w_fs].
    rewrite lookup_put_apart, Hframe4 by assumption. now apply Hframe3. }
  assert (Hexp1 : lookup_node exp (w_fs (st_world s1))
                  = Some (Dir [("df.csv", File src_main.df_csv)])).
  { cbn [s1 s4 st_world set_fs w_fs]. now rewrite lookup_put_apart. }
  exists s1. 
  (* compare *)
  assert (Hdir1 : is_dir case_dir (w_fs (st_world s1)) = true).
  { apply (is_dir_app case_dir [EXPECTED_OUTPUTS_FOLDER]). fold (joinpath case_dir [EXPECTED_OUTPUTS_FOLDER]).
    fold exp. unfold is_dir. now rewrite Hexp1. }
  assert (Hdb1 : is_dir dbdir (w_fs (st_world s1)) = false).
  { unfold is_dir in *. now rewrite Hlook1. }
  assert (Hout1 : lookup_node out (w_fs (st_world s1)) = None).
  { cbn [s1 s4 st_world set_fs w_fs]. apply lookup_put_none. unfold out, joinpath.
    now destruct case_dir. }
  destruct (run_case_to_outputs "compare" case_dir s1 eq_refl Hdir1 Hdb1 Hout1)
    as (fs5 & Hrun5 & Hout5 & Hframe5).
  fold out exp in Hrun5, Hout5, Hframe5.
  set (s5 := State (set_fs (set_cwd (st_world s1) case_dir) fs5) (st_log s1)) in *.
  assert (Hexp5 : lookup_node exp fs5 = Some (Dir [("df.csv", File src_main.df_csv)])).
  { rewrite Hframe5 by assumption. exact Hexp1. }
  assert (Hread : forall base, lookup_node base fs5
                               = Some (Dir [("df.csv", File src_main.df_csv)]) ->
             forall s6, w_fs (st_world s6) = fs5 ->
               read_bytes (base ++ ["df.csv"]) (w_fs (st_world s6)) = inr src_main.df_csv).
  { intros base Hbase s6 ->. unfold read_bytes. now rewrite lookup_node_app, Hbase. }
  set (s6 := State (st_world s5) (st_log s5 ++ [EvAssertFile ["df.csv"]])).
  pose proof (csv_comparison_is_pandas_verdict (out ++ ["df.csv"]) (exp ++ ["df.csv"]) s6
                _ _ _ _ (Hread out Hout5 s6 eq_refl) Hcsv (Hread exp Hexp5 s6 eq_refl) Hcsv)
    as Hassert.
  rewrite Hequal in Hassert.
  assert (Hcompare : compare_outputs exp out s5
                     = (Ok tt, State (st_world s6)
                                 (st_log s6 ++ [EvFrameEqual 1e-8%float 0%Z]))).
  { rewrite compare_outputs_unfold. unfold walk. cbn [s5 st_world set_fs w_fs].
    rewrite Hexp5.
    cbn [walk_node dirnames filenames List.filter List.map List.flat_map snd fst app
         for_each].
    unfold assert_output, joinpath. rewrite relative_to_app.
    rewrite assert_file_csv by (now rewrite suffix_app).
    unfold bind at 1 2 3, emit at 1, try_except.
    fold s5. fold s6. rewrite Hassert. reflexivity. }
  eexists. split; [exact Hupdate |]. split; [exact Hexp1 |]. split; [exact Hlook1 |].
  rewrite Hrun5. change (process_outputs "compare" exp out) with (compare_outputs exp out).
  rewrite (bind_ok _ _ _ _ _ Hcompare).
  unfold rmtree. rewrite fs_update_run. unfold rmtree_fs.
  cbn [s6 s5 st_world set_fs w_fs]. rewrite Hout5. reflexivity.
Qed.

(** X21.  Update, then compare, with the model of src/main.py.  On a case folder
    without a [_Database] folder and without a stale [Outputs] folder,
    whose [ExpectedOutputs] folder exists and whose description, if it has
    one, can be decoded: the round of update mode returns and leaves the
    model's [df.csv] as the whole baseline; and if pandas reads that file and
    finds the frame equal to itself, the round of compare mode that follows
    returns as well. *)
Theorem update_then_compare_passes (case_dir : path) (s : state) (data : frame) :
  is_dir case_dir (w_fs (st_world s)) = true ->
  (forall bytes,
     read_bytes (joinpath case_dir ["case_description.txt"]) (w_fs (st_world s))
     = inr bytes ->
     exists content, decode_text bytes = inr content) ->
  is_dir (joinpath case_dir [INPUTS_FOLDER_NAME; DATABASE_FOLDER_NAME])
    (w_fs (st_world s)) = false ->
  lookup_node (joinpath case_dir [OUTPUTS_FOLDER_NAME]) (w_fs (st_world s)) = None ->
  is_dir (joinpath case_dir [EXPECTED_OUTPUTS_FOLDER]) (w_fs (st_world s)) = true ->
  read_csv src_main.df_csv = inr data ->
  assert_frame_equal data data 1e-8%float 0%Z = None ->
  exists s1 s2,
    test_case "update" case_dir s = (Ok tt, s1)
    /\ lookup_node (joinpath case_dir [EXPECTED_OUTPUTS_FOLDER]) (w_fs (st_world s1))
       = Some (Dir [("df.csv", File src_main.df_csv)])
    /\ test_case "compare" case_dir s1 = (Ok tt, s2).
Proof.
  intros Hdir Hdescription Hdb Hout Hexp Hcsv Hequal.
  destruct (run_case_update_then_compare case_dir s data Hdir Hdb Hout Hexp Hcsv Hequal)
    as (s1 & s2 & Hupdate & Hexp1 & Hframe & Hcompare).
  assert (Hsame : read_bytes (joinpath case_dir ["case_description.txt"])
                    (w_fs (st_world s1))
                  = read_bytes (joinpath case_dir ["case_description.txt"])
                      (w_fs (st_world s))).
  { apply read_bytes_lookup. apply Hframe; now apply apart_siblings. }
  assert (Hround : forall run_type s0,
            read_bytes (joinpath case_dir ["case_description.txt"]) (w_fs (st_world s0))
            = read_bytes (joinpath case_dir ["case_description.txt"]) (w_fs (st_world s)) ->
            test_case run_type case_dir s0 = run_case run_type case_dir s0).
  { intros run_type s0 Hs0. rewrite test_case_run, Hs0.
    destruct (read_bytes _ (w_fs (st_world s))) as [e | bytes]; [reflexivity |].
    destruct (Hdescription bytes eq_refl) as [content ->]. reflexivity. }
  exists s1, s2. rewrite (Hround "update" s eq_refl), (Hround "compare" s1 Hsame). auto.
Qed.

End RoundTrip.

(** A case with a stale baseline and a description of two lines. *)
Lemma update_then_compare_passes_witness :
  exists s1 s2,
    test_case (E := Demo.repo) "update" Demo.case01_dir Demo.described_baseline = (Ok tt, s1)
    /\ lookup_node (joinpath Demo.case01_dir [EXPECTED_OUTPUTS_FOLDER]) (w_fs (st_world s1))
       = Some (Dir [("df.csv", File src_main.df_csv)])
    /\ test_case (E := Demo.repo) "compare" Demo.case01_dir s1 = (Ok tt, s2).
Proof.
  apply (update_then_compare_passes (E := Demo.repo)
           (fun w => eq_refl) Demo.case01_dir Demo.described_baseline src_main.df_csv);
    try reflexivity.
  intros bytes _. exists bytes. reflexivity.
Defined.

(** The description matters: where its bytes cannot be decoded, the round
    ends before the case is entered. *)
Example undecodable_description_ends_the_round :
  test_case (E := Demo.picky) "update" Demo.case01_dir Demo.described_baseline
  = (Raise (Exc (ValueError "UnicodeDecodeError")), Demo.described_baseline).
Proof. vm_compute. reflexivity. Qed.

(** ** The case description *)

Lemma lines_nonempty (s : string) : lines s <> [].
Proof.
  induction s as [|c s IH]; simpl; [discriminate |].
  destruct (Ascii.eqb c LF); [discriminate |]. now destruct (lines s).
Qed.

Lemma lines_quoted (s : string) :
  lines ("> " ++ s)
  = match lines s with
    | l :: ls => ("> " ++ l)%string :: ls
    | [] => ["> "]
    end.
Proof.
  change ("> " ++ s)%string with (String ">" (String " " s)). cbn [lines].
  change (Ascii.eqb ">" LF) with false. change (Ascii.eqb " " LF) with false. cbv iota.
  now destruct (lines s).
Qed.

Lemma lines_quote_newlines (s : string) :
  lines (quote_newlines s)
  = match lines s with
    | l :: ls => l :: List.map (String.append "> ") ls
    | [] => []
    end.
Proof.
  induction s as [|c s IH]; [reflexivity |]. cbn [quote_newlines lines].
  destruct (Ascii.eqb c LF) eqn:Hc.
  - cbn [lines]. change (Ascii.eqb LF LF) with true. cbv iota.
    rewrite lines_quoted, IH. pose proof (lines_nonempty s) as Hne.
    destruct (lines s) as [|l ls]; [congruence | reflexivity].
  - cbn [lines]. rewrite Hc, IH. pose proof (lines_nonempty s) as Hne.
    destruct (lines s) as [|l ls]; [congruence | reflexivity].
Qed.

Lemma rstrip_newlines_end (s : string) : ends_with_newline (rstrip_newlines s) = false.
Proof.
  induction s as [|c s IH]; [reflexivity |]. cbn [rstrip_newlines].
  destruct (rstrip_newlines s) as [|c' t] eqn:Ht.
  - destruct (Ascii.eqb c LF) eqn:Hc; [reflexivity |]. simpl. exact Hc.
  - exact IH.
Qed.

Section DescriptionProperties.
Context {D : Data} {E : External}.

(** X22.  [print_case_description] on a case with a description: two calls of
    [print], the heading and the text; the text has lost its trailing line
    feeds, and each of its lines is printed behind ["> "].  The state is
    untouched. *)
Theorem case_description_is_quoted (decode : string -> exception + string)
    (case_dir : path) (s : state) (bytes content : string) :
  read_bytes (joinpath case_dir ["case_description.txt"]) (w_fs (st_world s))
  = inr bytes ->
  decode bytes = inr content ->
  exists text,
    print_case_description decode case_dir s = (Ok ["Case description:"; text], s)
    /\ lines text = List.map (String.append "> ") (lines (rstrip_newlines content))
    /\ ends_with_newline (rstrip_newlines content) = false.
Proof.
  intros Hread Hdecode. eexists. split; [| split].
  - unfold print_case_description, bind at 1, get_world at 1.
    assert (Hfile : is_file (joinpath case_dir ["case_description.txt"])
                      (w_fs (st_world s)) = true).
    { unfold is_file, read_bytes in *.
      now destruct (lookup_node _ _) as [[d | es] |]. }
    rewrite Hfile, (bind_ok _ _ _ _ _ (open_read_run _ _ _ Hread)), Hdecode.
    reflexivity.
  - rewrite lines_quoted, lines_quote_newlines.
    pose proof (lines_nonempty (rstrip_newlines content)) as Hne.
    destruct (lines (rstrip_newlines content)) as [|l ls]; [congruence | reflexivity].
  - apply rstrip_newlines_end.
Qed.

End DescriptionProperties.

Lemma case_description_is_quoted_witness :
  exists text,
    print_case_description inr Demo.case01_dir Demo.described
    = (Ok ["Case description:"; text], Demo.described)
    /\ lines text
       = List.map (String.append "> ")
           (lines (rstrip_newlines
                     ("first line" ++ src_main.newline ++ "second line"
                      ++ src_main.newline ++ src_main.newline)))
    /\ ends_with_newline
         (rstrip_newlines ("first line" ++ src_main.newline ++ "second line"
                           ++ src_main.newline ++ src_main.newline)) = false.
Proof.
  apply (case_description_is_quoted inr Demo.case01_dir Demo.described
           ("first line" ++ src_main.newline ++ "second line"
            ++ src_main.newline ++ src_main.newline));
    reflexivity.
Defined.
